(** * Remote tool-call proxy bridge (remote-tools.js): a shallow embedding

    The module proxies six tool calls (read_file, write_file, edit_file,
    glob, grep, bash) to a remote host through the editor's remote file
    system and a hidden terminal.

    - JavaScript strings are modelled by [string]; a character stands for
      one UTF-16 code unit below 256.  JavaScript numbers are modelled by
      [Z], the integral ones.
    - The module-level variables ([_writeCache], [_editOverride], the
      terminal and its counter) are the fields of [State], which also holds
      the clock read by [Date.now()] and the events issued so far.
    - A function of the module is a computation [M A]: it takes a state and
      gives a value or a thrown value, with the state after it.  What is
      thrown is an error with its message or, from the review gate of the
      caller only, [undefined] or [null].
    - Timers are those of Node.js: [setTimeout] takes a delay outside of
      1 .. 2147483647 for 1.
    - The remote side is a [Host]: its answers are functions of the events
      so far, so a remote file system that serves stale data, a command
      that completes late or never, and a review gate that changes its mind
      are all instances.  Every suspension ([await]) lets the clock advance
      by what was asked plus what the host adds.
    - A call of a tool runs from its start to its result with no other call
      of the bridge in between.  *)

From Stdlib Require Import ZArith List Ascii String Bool Lia DecimalString.
From Stdlib Require Import DecimalPos DecimalZ Sorted Permutation.
From stdpp Require Import base option gmap strings.

Local Open Scope string_scope.
Local Open Scope Z_scope.

#[local] Arguments String.append !s1 s2.

(** ** String and array primitives of the JavaScript runtime *)

Module JS.

Definition LF : ascii := "010"%char.
Definition CR : ascii := "013"%char.
Definition nl : string := String LF EmptyString.

(** [s.length] *)
Definition len (s : string) : Z := Z.of_nat (String.length s).

(** truthiness of a string: non-empty *)
Definition truthy (s : string) : bool :=
  match s with EmptyString => false | String _ _ => true end.

(** [s.startsWith(p)] *)
Fixpoint startsWith (s p : string) {struct p} : bool :=
  match p with
  | EmptyString => true
  | String c p' =>
      match s with
      | EmptyString => false
      | String d s' => if Ascii.eqb c d then startsWith s' p' else false
      end
  end.

Fixpoint sdrop (n : nat) (s : string) : string :=
  match n with
  | O => s
  | S n' => match s with EmptyString => EmptyString | String _ s' => sdrop n' s' end
  end.

Fixpoint stake (n : nat) (s : string) : string :=
  match n with
  | O => EmptyString
  | S n' => match s with EmptyString => EmptyString | String c s' => String c (stake n' s') end
  end.

(** relative index of [slice]: negative indices count from the end, and
    everything is clamped to [0, len] *)
Definition clampIndex (n i : Z) : Z :=
  if i <? 0 then Z.max (n + i) 0 else Z.min i n.

(** [s.slice(start, end)]; [None] is an omitted [end] *)
Definition slice (s : string) (start : Z) (end_ : option Z) : string :=
  let n := len s in
  let from := clampIndex n start in
  let to := match end_ with None => n | Some e => clampIndex n e end in
  stake (Z.to_nat (to - from)) (sdrop (Z.to_nat from) s).

(** [a.slice(start, end)] on arrays *)
Definition aslice {A} (a : list A) (start end_ : Z) : list A :=
  let n := Z.of_nat (List.length a) in
  let from := clampIndex n start in
  let to := clampIndex n end_ in
  take (Z.to_nat (to - from)) (drop (Z.to_nat from) a).

(** [a.join(sep)] *)
Fixpoint join (sep : string) (a : list string) : string :=
  match a with
  | [] => EmptyString
  | [x] => x
  | x :: rest => x ++ sep ++ join sep rest
  end.

(** [s.includes(x)] *)
Fixpoint includes (s x : string) : bool :=
  startsWith s x ||
  match s with
  | EmptyString => false
  | String _ s' => includes s' x
  end.

(** [s.split(sep)] for a non-empty separator: [skip] counts the characters
    of a separator already recognised, [cur] is the piece being read,
    reversed *)
Fixpoint revstr (acc s : string) : string :=
  match s with
  | EmptyString => acc
  | String c s' => revstr (String c acc) s'
  end.

Fixpoint split_go (sep : string) (skip : nat) (cur : string) (s : string) : list string :=
  match s with
  | EmptyString => [revstr EmptyString cur]
  | String c s' =>
      match skip with
      | S k => split_go sep k cur s'
      | O =>
          if startsWith s sep
          then revstr EmptyString cur :: split_go sep (Nat.pred (String.length sep)) EmptyString s'
          else split_go sep O (String c cur) s'
      end
  end.

Fixpoint chars (s : string) : list string :=
  match s with
  | EmptyString => []
  | String c s' => String c EmptyString :: chars s'
  end.

(** [s.split(sep)]: with the empty separator the result is the list of the
    code units of [s] *)
Definition split (s sep : string) : list string :=
  match sep with
  | EmptyString => chars s
  | String _ _ => split_go sep O EmptyString s
  end.

(** first occurrence of [x] in [s]: the text before it and the text after it *)
Fixpoint find_first (s x : string) : option (string * string) :=
  if startsWith s x then Some (EmptyString, sdrop (String.length x) s)
  else match s with
       | EmptyString => None
       | String c s' =>
           match find_first s' x with
           | Some (before, after) => Some (String c before, after)
           | None => None
           end
       end.

(** GetSubstitution of ECMAScript for a string pattern (no captures): in the
    replacement text, [$$] stands for [$], [$&] for the matched text, [$`]
    for the text before the match and [$'] for the text after it; any other
    character, and a [$] followed by anything else, is literal *)
Fixpoint getSubstitution (matched before after template : string) : string :=
  match template with
  | EmptyString => EmptyString
  | String c rest =>
      if Ascii.eqb c "$" then
        match rest with
        | String d rest' =>
            if Ascii.eqb d "$" then String "$" (getSubstitution matched before after rest')
            else if Ascii.eqb d "&" then matched ++ getSubstitution matched before after rest'
            else if Ascii.eqb d "`" then before ++ getSubstitution matched before after rest'
            else if Ascii.eqb d "'" then after ++ getSubstitution matched before after rest'
            else String c (getSubstitution matched before after rest)
        | EmptyString => String c EmptyString
        end
      else String c (getSubstitution matched before after rest)
  end.

(** [s.replace(x, y)] with a string pattern [x]: the first occurrence only,
    and [y] is a replacement template *)
Definition replace (s x y : string) : string :=
  match find_first s x with
  | None => s
  | Some (before, after) => before ++ getSubstitution x before after y ++ after
  end.

(** [s.replace(/c/g, d)]: every character [c] replaced by the text [d] *)
Fixpoint replaceAllChar (c : ascii) (d : string) (s : string) : string :=
  match s with
  | EmptyString => EmptyString
  | String e s' => (if Ascii.eqb e c then d else String e EmptyString) ++ replaceAllChar c d s'
  end.

Definition isSpace (c : ascii) : bool :=
  let n := nat_of_ascii c in
  ((9 <=? n)%nat && (n <=? 13)%nat) || (n =? 32)%nat || (n =? 160)%nat.

Fixpoint trimStart (s : string) : string :=
  match s with
  | String c s' => if isSpace c then trimStart s' else s
  | EmptyString => EmptyString
  end.

Definition trimEnd (s : string) : string :=
  revstr EmptyString (trimStart (revstr EmptyString s)).

(** [s.trim()] *)
Definition trim (s : string) : string := trimEnd (trimStart s).

Definition digit (c : ascii) : option Z :=
  let n := nat_of_ascii c in
  if ((48 <=? n)%nat && (n <=? 57)%nat) then Some (Z.of_nat n - 48) else None.

Fixpoint digits (acc : option Z) (s : string) : option Z :=
  match s with
  | EmptyString => acc
  | String c s' =>
      match digit c with
      | Some d => digits (Some (10 * default 0 acc + d)) s'
      | None => acc
      end
  end.

(** [parseInt(s, 10)]; [None] is NaN *)
Definition parseInt (s : string) : option Z :=
  match trimStart s with
  | String c s' =>
      if Ascii.eqb c "-" then Z.opp <$> digits None s'
      else if Ascii.eqb c "+" then digits None s'
      else digits None (String c s')
  | EmptyString => None
  end.

(** [String(n)] for an integral number *)
Definition ofNumber (n : Z) : string := NilZero.string_of_int (Z.to_int n).

(** [c.repeat(n)] *)
Fixpoint repeat (c : ascii) (n : nat) : string :=
  match n with
  | O => EmptyString
  | S n' => String c (repeat c n')
  end.

(** UTF-8 length of a string whose code units are below 256 *)
Fixpoint byteLength (s : string) : Z :=
  match s with
  | EmptyString => 0
  | String c s' => (if (nat_of_ascii c <? 128)%nat then 1 else 2) + byteLength s'
  end.

(** the default comparison of [Array.prototype.sort]: code unit order *)
Fixpoint insert_sorted (x : string) (l : list string) : list string :=
  match l with
  | [] => [x]
  | y :: l' => if String.leb x y then x :: l else y :: insert_sorted x l'
  end.

Definition sort (l : list string) : list string :=
  foldr insert_sorted [] l.

End JS.

(** ** [path.posix] of Node.js *)

Module NodePath.

(** [path.posix.isAbsolute] *)
Definition isAbsolute (p : string) : bool :=
  match p with
  | String c _ => Ascii.eqb c "/"
  | EmptyString => false
  end.

Fixpoint lastIsSlash (p : string) : bool :=
  match p with
  | EmptyString => false
  | String c EmptyString => Ascii.eqb c "/"
  | String _ p' => lastIsSlash p'
  end.

(** one segment pushed on the stack of resolved segments (newest first) *)
Definition pushSegment (allowAboveRoot : bool) (stack : list string) (seg : string) : list string :=
  if String.eqb seg "" || String.eqb seg "." then stack
  else if String.eqb seg ".." then
    match stack with
    | top :: below => if String.eqb top ".." then seg :: stack else below
    | [] => if allowAboveRoot then [seg] else []
    end
  else seg :: stack.

Definition normalizeString (p : string) (allowAboveRoot : bool) : string :=
  JS.join "/" (rev (fold_left (pushSegment allowAboveRoot) (JS.split p "/") [])).

(** [path.posix.normalize] *)
Definition normalize (p : string) : string :=
  match p with
  | EmptyString => "."
  | String _ _ =>
      let abs := isAbsolute p in
      let trailing := lastIsSlash p in
      let body := normalizeString p (negb abs) in
      match body with
      | EmptyString => if abs then "/" else if trailing then "./" else "."
      | String _ _ =>
          let body' := if trailing then body ++ "/" else body in
          if abs then "/" ++ body' else body'
      end
  end.

(** [path.posix.join] *)
Definition join (args : list string) : string :=
  match filter (fun a => JS.truthy a = true) args with
  | [] => "."
  | parts => normalize (JS.join "/" parts)
  end.

End NodePath.

(** ** The bridge *)

Module Bridge.

(** *** Results, events and the remote host *)

(** What is thrown, as far as the module looks at it: a value whose
    [message] property reads as the given text (an [Error] with that
    message, say), or [undefined] or [null], which have no property to
    read. *)
Inductive Exn : Type :=
| Err (message : string)
| Nullish (isNull : bool).
Coercion Err : string >-> Exn.

(** What running a piece of the module gives: a value, a thrown value, or
    a polling loop that ran out of fuel. *)
Inductive Outcome (A : Type) : Type :=
| Returned (a : A)
| Thrown (e : Exn)
| OutOfFuel.
Arguments Returned {A} a.
Arguments Thrown {A} e.
Arguments OutOfFuel {A}.

(** A settled promise: resolved with a value, or rejected with a reason. *)
Inductive SettledWith (E A : Type) : Type :=
| Resolved (a : A)
| Rejected (reason : E).
Arguments Resolved {E A} a.
Arguments Rejected {E A} reason.

(** A settled promise of the host editor or of a child process: these
    reject with [Error] objects, of which the module reads the message. *)
Definition Settled : Type -> Type := SettledWith string.

(** [{ content: [{ type: "text", text }], isError }] *)
Record ToolResult := { text : string; isError : bool }.

Definition ok (t : string) : ToolResult := {| text := t; isError := false |}.
Definition err (t : string) : ToolResult := {| text := t; isError := true |}.

(** [{ stdout, stderr, exitCode }]; the exit code is [None] for [null] *)
Record ExecResult := { stdout : string; stderr : string; exitCode : option Z }.

(** [{ accepted, finalContent }] of the review gate *)
Record Review := { accepted : bool; finalContent : string }.

(** What the bridge asks of its collaborators, in order of occurrence. *)
Inductive Event : Type :=
| EReadFile (uri : string)
| EWriteFile (uri content : string)
| EFindFiles (folderUri pattern : string) (maxResults : Z)
| ECreateTerminal
| ESendText (line : string)
| ESleep (ms : Z)
| ESpawnSsh (args : list string) (timeoutMs : Z)
| EReview (tool file_path oldContent newContent : string)
| EFileUpdated (remotePath oldContent newContent : string).

(** How an ssh subprocess ends: it closes after [duration] ms having
    emitted its output in chunks, or it cannot be started. *)
Inductive SshRun : Type :=
| SshClose (code : option Z) (outChunks errChunks : list string) (duration : Z)
| SshError (enoent : bool) (message : string).

(** The remote host and the editor's transport, as functions of the events
    so far (newest first): any deterministic behaviour of the remote side,
    stale reads included, is an instance. *)
Record Host := {
  fs_readFile : list Event -> string -> Settled string;
  fs_writeFile : list Event -> string -> string -> Settled unit;
  ws_findFiles : list Event -> string -> string -> Z -> Settled (list string);
  ssh_run : list Event -> list string -> SshRun;
  (** time in ms that the next suspension takes beyond what was asked *)
  elapsed : list Event -> N;
  (** [_remoteTerminal._isDisposed] *)
  terminalDisposed : list Event -> bool
}.

(** The editor's configuration and environment. *)
Record Config := {
  workspaceFolders : list string;   (** [uri.path] of each workspace folder *)
  sshHost : string;                 (** setting claudeCode.sshHost *)
  remoteAuthority : string;         (** [vscode.env.remoteAuthority], empty when absent *)
  homedir : string;                 (** [os.homedir()] *)
  useSSHExec : bool;
  sshIdentityFile : string;
  sshExtraArgs : list string;
  sshConfigFile : string            (** setting remote.SSH.configFile *)
}.

(** The last two arguments of [registerTools]: whether an update notifier
    is given, and the review gate if any.  The gate is a function of the
    caller: its promise may be rejected with any value, [undefined] and
    [null] included. *)
Record Hooks := {
  onFileUpdated : bool;
  reviewEdit :
    option (list Event -> string -> string -> string -> string -> SettledWith Exn Review)
}.

(** *** Module-level state *)

Record CacheEntry := { ce_content : string; ce_timestamp : Z }.
Record Override := { ov_remotePath : string; ov_content : string; ov_timestamp : Z }.

Record State := {
  clock : Z;                               (** [Date.now()] *)
  history : list Event;
  writeCache : gmap string CacheEntry;     (** [_writeCache] *)
  editOverride : option Override;          (** [_editOverride] *)
  remoteTerminal : bool;                   (** [_remoteTerminal] is set *)
  terminalReady : bool;                    (** [_terminalReady] *)
  execCounter : Z                          (** [_execCounter] *)
}.

Definition set_clock (t : Z) (st : State) : State :=
  {| clock := t; history := history st; writeCache := writeCache st;
     editOverride := editOverride st; remoteTerminal := remoteTerminal st;
     terminalReady := terminalReady st; execCounter := execCounter st |}.
Definition set_history (h : list Event) (st : State) : State :=
  {| clock := clock st; history := h; writeCache := writeCache st;
     editOverride := editOverride st; remoteTerminal := remoteTerminal st;
     terminalReady := terminalReady st; execCounter := execCounter st |}.
Definition set_writeCache (c : gmap string CacheEntry) (st : State) : State :=
  {| clock := clock st; history := history st; writeCache := c;
     editOverride := editOverride st; remoteTerminal := remoteTerminal st;
     terminalReady := terminalReady st; execCounter := execCounter st |}.
Definition set_editOverride (o : option Override) (st : State) : State :=
  {| clock := clock st; history := history st; writeCache := writeCache st;
     editOverride := o; remoteTerminal := remoteTerminal st;
     terminalReady := terminalReady st; execCounter := execCounter st |}.
Definition set_remoteTerminal (b : bool) (st : State) : State :=
  {| clock := clock st; history := history st; writeCache := writeCache st;
     editOverride := editOverride st; remoteTerminal := b;
     terminalReady := terminalReady st; execCounter := execCounter st |}.
Definition set_terminalReady (b : bool) (st : State) : State :=
  {| clock := clock st; history := history st; writeCache := writeCache st;
     editOverride := editOverride st; remoteTerminal := remoteTerminal st;
     terminalReady := b; execCounter := execCounter st |}.
Definition set_execCounter (n : Z) (st : State) : State :=
  {| clock := clock st; history := history st; writeCache := writeCache st;
     editOverride := editOverride st; remoteTerminal := remoteTerminal st;
     terminalReady := terminalReady st; execCounter := n |}.

Definition initial (t : Z) : State :=
  {| clock := t; history := []; writeCache := ∅; editOverride := None;
     remoteTerminal := false; terminalReady := false; execCounter := 0 |}.

(** [d] ms go by between two calls of the bridge *)
Definition elapse (d : Z) (st : State) : State := set_clock (clock st + d) st.

(** *** Computations: state passing with exceptions *)

Definition M (A : Type) : Type := State -> Outcome A * State.

Definition ret {A} (a : A) : M A := fun st => (Returned a, st).
Definition throw {A} (message : string) : M A := fun st => (Thrown message, st).
Definition out_of_fuel {A} : M A := fun st => (OutOfFuel, st).

Definition bind {A B} (m : M A) (k : A -> M B) : M B := fun st =>
  match m st with
  | (Returned a, st') => k a st'
  | (Thrown e, st') => (Thrown e, st')
  | (OutOfFuel, st') => (OutOfFuel, st')
  end.

(** [try { m } catch (err) { h(err) }] *)
Definition try_catch {A} (m : M A) (h : Exn -> M A) : M A := fun st =>
  match m st with
  | (Thrown e, st') => h e st'
  | r => r
  end.

(** a synchronous function that may throw, run inside a computation *)
Definition lift {A} (o : Outcome A) : M A := fun st => (o, st).

(** a function on the module-level state *)
Definition sync {A} (f : State -> A * State) : M A := fun st =>
  let (a, st') := f st in (Returned a, st').

Notation "'let*' x ':=' m 'in' k" := (bind m (fun x => k))
  (at level 10, x name, m at level 100, k at level 200).

(** *** Write cache *)

Definition WRITE_CACHE_TTL : Z := 10000.

Definition cacheWrite (remotePath content : string) (st : State) : unit * State :=
  (tt, set_writeCache
         (<[remotePath := {| ce_content := content; ce_timestamp := clock st |}]> (writeCache st))
         st).

Definition getCachedWrite (remotePath : string) (st : State) : option string * State :=
  match writeCache st !! remotePath with
  | None => (None, st)
  | Some entry =>
      if clock st - ce_timestamp entry >? WRITE_CACHE_TTL
      then (None, set_writeCache (delete remotePath (writeCache st)) st)
      else (Some (ce_content entry), st)
  end.

(** *** Edit override *)

Definition EDIT_OVERRIDE_TTL : Z := 10000.

Definition setEditOverride (remotePath content : string) (st : State) : unit * State :=
  (tt, set_editOverride
         (Some {| ov_remotePath := remotePath; ov_content := content;
                  ov_timestamp := clock st |}) st).

Definition consumeEditOverride (remotePath : string) (st : State) : option string * State :=
  match editOverride st with
  | Some o =>
      if String.eqb (ov_remotePath o) remotePath
         && (clock st - ov_timestamp o <? EDIT_OVERRIDE_TTL)
      then (Some (ov_content o), set_editOverride None st)
      else if clock st - ov_timestamp o >=? EDIT_OVERRIDE_TTL
           then (None, set_editOverride None st)
           else (None, st)
  | None => (None, st)
  end.

(** *** Helpers *)

Definition noLineTerminator (s : string) : bool :=
  negb (JS.includes s JS.nl) && negb (JS.includes s (String JS.CR EmptyString)).

(** [authority.match(/^ssh-remote\+(.+)$/)] *)
Definition matchSshRemote (authority : string) : option string :=
  if JS.startsWith authority "ssh-remote+" then
    let rest := JS.sdrop 11 authority in
    if JS.truthy rest && noLineTerminator rest then Some rest else None
  else None.

(** [s.replace(/^-/, "")] *)
Definition stripLeadingDash (s : string) : string :=
  match s with
  | String c s' => if Ascii.eqb c "-" then s' else s
  | EmptyString => s
  end.

(** [s.replace(/^[\/\\]/, "")] *)
Definition stripLeadingSep (s : string) : string :=
  match s with
  | String c s' => if Ascii.eqb c "/" || Ascii.eqb c "\" then s' else s
  | EmptyString => s
  end.

Definition shellEscape (str : string) : string :=
  "'" ++ JS.replaceAllChar "'" "'\''" str ++ "'".

(** [cwd ? `cd ${shellEscape(cwd)} && ` : ""] *)
Definition cdPart (cwd : string) : string :=
  if JS.truthy cwd then "cd " ++ shellEscape cwd ++ " && " else "".

Definition truncationMarker : string :=
  JS.nl ++ JS.nl ++ "... [truncated] ..." ++ JS.nl ++ JS.nl.

Definition truncateOutput (text : string) (maxChars : Z) : string :=
  if JS.len text <=? maxChars then text
  else
    let half := maxChars / 2 in
    JS.slice text 0 (Some half) ++ truncationMarker ++ JS.slice text (- half) None.

Section WithEnvironment.

Variable cfg : Config.
Variable host : Host.
Variable hooks : Hooks.

Definition getSshHost : string :=
  if JS.truthy (sshHost cfg) then sshHost cfg
  else match matchSshRemote (remoteAuthority cfg) with
       | Some h => h
       | None => ""
       end.

Definition getRemoteCwd : Outcome string :=
  match workspaceFolders cfg with
  | [] => Thrown "No workspace folder open; cannot determine remote working directory"
  | folder :: _ => Returned folder
  end.

Definition getLocalCwd : string :=
  let remotePath := match workspaceFolders cfg with
                    | folder :: _ => folder
                    | [] => "default"
                    end in
  let host_ := if JS.truthy getSshHost then getSshHost else "unknown" in
  let safeRemotePath := stripLeadingDash (JS.replaceAllChar "/" "-" remotePath) in
  NodePath.join [homedir cfg; ".claude"; "remote"; host_; safeRemotePath].

Definition toRemotePath (filePath : string) : Outcome string :=
  let localPrefix := getLocalCwd in
  match getRemoteCwd with
  | Returned remoteCwd =>
      if JS.startsWith filePath localPrefix then
        let rel := stripLeadingSep (JS.slice filePath (JS.len localPrefix) None) in
        Returned (if JS.truthy rel then NodePath.join [remoteCwd; rel] else remoteCwd)
      else if NodePath.isAbsolute filePath then Returned filePath
      else Returned (NodePath.join [remoteCwd; filePath])
  | Thrown e => Thrown e
  | OutOfFuel => OutOfFuel
  end.

(** the locator is kept as the text given to [vscode.Uri.parse] *)
Definition getRemoteUri (filePath : string) : Outcome string :=
  let host_ := getSshHost in
  match toRemotePath filePath with
  | Returned resolved => Returned ("vscode-remote://ssh-remote+" ++ host_ ++ resolved)
  | Thrown e => Thrown e
  | OutOfFuel => OutOfFuel
  end.

(** *** Suspensions and calls to the collaborators *)

(** an event is recorded; a suspension also lets the clock advance *)
Definition record (e : Event) (st : State) : State :=
  set_history (e :: history st) st.

Definition suspend (e : Event) (wait : Z) (st : State) : State :=
  set_clock (clock st + Z.max 0 wait + Z.of_N (elapsed host (history st))) (record e st).

Definition settle {A} (r : Settled A) : Outcome A :=
  match r with
  | Resolved a => Returned a
  | Rejected e => Thrown e
  end.

(** [Buffer.from(await vscode.workspace.fs.readFile(uri)).toString("utf8")] *)
Definition readFile (uri : string) : M string := fun st =>
  (settle (fs_readFile host (history st) uri), suspend (EReadFile uri) 0 st).

(** [await vscode.workspace.fs.writeFile(uri, Buffer.from(content, "utf8"))] *)
Definition writeFile (uri content : string) : M unit := fun st =>
  (settle (fs_writeFile host (history st) uri content), suspend (EWriteFile uri content) 0 st).

(** [await new Promise(r => setTimeout(r, ms))] *)
Definition sleep (ms : Z) : M unit := fun st =>
  (Returned tt, suspend (ESleep ms) ms st).

(** [terminal.sendText(line, true)] *)
Definition sendText (line : string) : M unit := fun st =>
  (Returned tt, record (ESendText line) st).

Definition now : M Z := fun st => (Returned (clock st), st).

(** [if (onFileUpdated) { try { onFileUpdated(...) } catch (_) {} }] *)
Definition notifyUpdated (remotePath oldText newText : string) : M unit := fun st =>
  (Returned tt,
   if onFileUpdated hooks then record (EFileUpdated remotePath oldText newText) st else st).

(** *** Remote command execution through the hidden terminal *)

Definition getRemoteTerminal : M unit := fun st =>
  if remoteTerminal st && negb (terminalDisposed host (history st)) then (Returned tt, st)
  else (Returned tt,
        set_terminalReady false (set_remoteTerminal true (record ECreateTerminal st))).

Definition pollInterval : Z := 300.

(** the polls that fit the time budget: every round of the loop sleeps
    [pollInterval] ms at least, so the loop never needs more rounds *)
Definition pollBudget (timeoutMs : Z) : nat := S (Z.to_nat (timeoutMs / pollInterval)).

Definition sentinels (tmpBase : string) : string :=
  tmpBase ++ ".out " ++ tmpBase ++ ".err " ++ tmpBase ++ ".exit".

(** one round of the polling loop after its sleep, the [try] block with its
    [catch]: [None] when the exit sentinel cannot be read or is still blank *)
Definition pollOnce (tmpBase exitFileUri : string) : M (option ExecResult) :=
  try_catch
    (let* exitData := readFile exitFileUri in
     let exitStr := JS.trim exitData in
     if negb (JS.truthy exitStr) then ret None
     else
       let exitCode := JS.parseInt exitStr in
       let* stdout :=
         try_catch (let* uri := lift (getRemoteUri (tmpBase ++ ".out")) in readFile uri)
                   (fun _ => ret "") in
       let* stderr :=
         try_catch (let* uri := lift (getRemoteUri (tmpBase ++ ".err")) in readFile uri)
                   (fun _ => ret "") in
       let* _ := sendText ("rm -f " ++ sentinels tmpBase) in
       ret (Some {| stdout := stdout; stderr := stderr;
                    exitCode := Some (default 1 exitCode) |}))
    (fun _ => ret None).

(** the [while (Date.now() - startTime < timeoutMs)] loop of [remoteExec] *)
Fixpoint poll (fuel : nat) (tmpBase exitFileUri : string) (startTime timeoutMs : Z)
  : M ExecResult :=
  let* t := now in
  if t - startTime <? timeoutMs then
    match fuel with
    | O => out_of_fuel
    | S fuel' =>
        let* _ := sleep pollInterval in
        let* found := pollOnce tmpBase exitFileUri in
        match found with
        | Some result => ret result
        | None => poll fuel' tmpBase exitFileUri startTime timeoutMs
        end
    end
  else
    let* _ := sendText ("kill %1 2>/dev/null; rm -f " ++ sentinels tmpBase) in
    throw ("Command timed out after " ++ JS.ofNumber timeoutMs ++ "ms").

Definition remoteExec (command cwd : string) (timeoutMs : option Z) : M ExecResult :=
  let timeoutMs := default 120000 timeoutMs in
  let* t := now in
  let* n := sync (fun st => (execCounter st + 1, set_execCounter (execCounter st + 1) st)) in
  let id := JS.ofNumber t ++ "_" ++ JS.ofNumber n in
  let tmpBase := "/tmp/.claude_exec_" ++ id in
  let* _ := getRemoteTerminal in
  let* ready := sync (fun st => (terminalReady st, st)) in
  let* _ := (if ready then ret tt
             else let* _ := sleep 500 in sync (fun st => (tt, set_terminalReady true st))) in
  let cdPart := cdPart cwd in
  let fullCmd := "(" ++ cdPart ++ command ++ ") > " ++ tmpBase ++ ".out 2> " ++ tmpBase
                 ++ ".err; echo $? > " ++ tmpBase ++ ".exit" in
  let* _ := sendText fullCmd in
  let* exitFileUri := lift (getRemoteUri (tmpBase ++ ".exit")) in
  let* startTime := now in
  poll (pollBudget timeoutMs) tmpBase exitFileUri startTime timeoutMs.

(** *** Execution through an ssh subprocess *)

(** [identityFile.replace(/^~/, os.homedir())] *)
Definition expandTilde (identityFile : string) : string :=
  match identityFile with
  | String c rest =>
      if Ascii.eqb c "~" then JS.getSubstitution "~" "" rest (homedir cfg) ++ rest
      else identityFile
  | EmptyString => identityFile
  end.

Definition buildSshArgs (host_ : string) : list string :=
  (if JS.truthy (sshConfigFile cfg) then ["-F"; sshConfigFile cfg] else [])
  ++ (if JS.truthy (sshIdentityFile cfg) then ["-i"; expandTilde (sshIdentityFile cfg)] else [])
  ++ sshExtraArgs cfg
  ++ ["-o"; "BatchMode=yes"; "-o"; "ConnectTimeout=10"; "-o"; "StrictHostKeyChecking=no"]
  ++ ["--"; host_].

Definition MAX_BUFFER : Z := 5 * 1024 * 1024.

(** the [data] handlers: a chunk is appended while the buffer is below
    [MAX_BUFFER] *)
Definition collect (chunks : list string) : string :=
  fold_left (fun acc d => if JS.len acc <? MAX_BUFFER then acc ++ d else acc) chunks "".

(** the delay that [setTimeout(f, ms)] of Node.js waits: a delay that is not
    between 1 and [TIMEOUT_MAX] is taken for 1 *)
Definition TIMEOUT_MAX : Z := 2147483647.

Definition timerDelay (ms : Z) : Z :=
  if (1 <=? ms) && (ms <=? TIMEOUT_MAX) then ms else 1.

Definition sshExec (host_ command cwd : string) (timeoutMs : option Z) : M ExecResult := fun st =>
  let timeoutMs := default 120000 timeoutMs in
  let fullCmd := cdPart cwd ++ command in
  let sshArgs := (buildSshArgs host_ ++ [fullCmd])%list in
  match ssh_run host (history st) sshArgs with
  | SshClose code outChunks errChunks duration =>
      (* the timer fires, and kills the process, unless it closed before *)
      let killed := negb (duration <? timerDelay timeoutMs) in
      (if killed
       then Thrown ("SSH command timed out after " ++ JS.ofNumber timeoutMs ++ "ms")
       else Returned {| stdout := collect outChunks; stderr := collect errChunks;
                        exitCode := code |},
       suspend (ESpawnSsh sshArgs timeoutMs) (Z.min duration (timerDelay timeoutMs)) st)
  | SshError enoent message =>
      (Thrown (if enoent then "SSH client not found." else message),
       suspend (ESpawnSsh sshArgs timeoutMs) 0 st)
  end.

Definition execRemoteCommand (command cwd : string) (timeoutMs : option Z) : M ExecResult :=
  let timeoutMs := default 120000 timeoutMs in
  if useSSHExec cfg then
    let host_ := getSshHost in
    if negb (JS.truthy host_) then throw "No SSH host configured"
    else sshExec host_ command cwd (Some timeoutMs)
  else remoteExec command cwd (Some timeoutMs).

(** *** The six tools *)

Definition given {A} (o : option A) : bool :=
  match o with Some _ => true | None => false end.

(** truthiness of an optional number: given and not zero *)
Definition numTruthy (o : option Z) : bool :=
  match o with Some n => negb (n =? 0) | None => false end.

(** truthiness of an optional string: given and not empty *)
Definition strTruthy (o : option string) : bool :=
  match o with Some s => JS.truthy s | None => false end.

(** the [TypeError] of reading [message] of [undefined] or [null] *)
Definition noMessage (isNull : bool) : string :=
  "Cannot read properties of " ++ (if isNull then "null" else "undefined")
  ++ " (reading 'message')".

(** the [try { ... } catch (err) { ... }] that wraps the body of every tool:
    a thrown value becomes an error result that carries its message; the
    handler reads [err.message], which throws in its turn when the value
    is [undefined] or [null] *)
Definition tryTool (prefix : string) (body : M ToolResult) : M ToolResult :=
  try_catch body (fun e =>
    match e with
    | Err message => ret (err (prefix ++ message))
    | Nullish isNull => throw (noMessage isNull)
    end).

(** the line slicing of [read_file] *)
Definition sliceLines (text : string) (offset limit : option Z) : string :=
  let lines := JS.split text JS.nl in
  let start := default 1 offset - 1 in
  let end_ := if numTruthy limit then start + default 0 limit
              else Z.of_nat (List.length lines) in
  JS.join JS.nl (JS.aslice lines start end_).

Definition read_file_body (file_path : string) (offset limit : option Z) : M ToolResult :=
    (let* remotePath := lift (toRemotePath file_path) in
     let* cached := sync (getCachedWrite remotePath) in
     let* text :=
       match cached with
       | Some t => ret t
       | None => let* uri := lift (getRemoteUri file_path) in readFile uri
       end in
     let text := if given offset || given limit then sliceLines text offset limit else text in
     ret (ok (truncateOutput text 30000))).

Definition read_file (file_path : string) (offset limit : option Z) : M ToolResult :=
  tryTool "Error reading file: " (read_file_body file_path offset limit).

(** [await reviewEdit(tool, input, oldText, newText)] when a review gate is
    given; [None] when there is none *)
Definition callReview (tool file_path oldText newText : string) : M (option Review) :=
  match reviewEdit hooks with
  | Some gate => fun st =>
      (match gate (history st) tool file_path oldText newText with
       | Resolved r => Returned (Some r)
       | Rejected e => Thrown e
       end,
       suspend (EReview tool file_path oldText newText) 0 st)
  | None => ret None
  end.

Definition write_file_body (file_path content : string) : M ToolResult :=
    (let* uri := lift (getRemoteUri file_path) in
     let* remotePath := lift (toRemotePath file_path) in
     let* _override := sync (consumeEditOverride remotePath) in
     match _override with
     | Some _override =>
         let* cached := sync (getCachedWrite remotePath) in
         let* oldText :=
           (if JS.truthy (default "" cached) then ret (default "" cached)
            else try_catch (readFile uri) (fun _ => ret "")) in
         let* _ := writeFile uri _override in
         let* _ := sync (cacheWrite remotePath _override) in
         let* _ := notifyUpdated remotePath oldText _override in
         ret (ok ("Successfully wrote " ++ JS.ofNumber (JS.byteLength _override)
                  ++ " bytes to " ++ file_path))
     | None =>
         let* cached := sync (getCachedWrite remotePath) in
         let* oldText :=
           (if JS.truthy (default "" cached) then ret (default "" cached)
            else try_catch (readFile uri) (fun _ => ret "")) in
         let* _review := callReview "write_file" file_path oldText content in
         match _review with
         | Some {| accepted := false |} =>
             ret (err ("Write rejected by user for " ++ file_path))
         | _ =>
             let _finalContent :=
               match _review with Some r => finalContent r | None => content end in
             let* _ := writeFile uri _finalContent in
             let* _ := sync (cacheWrite remotePath _finalContent) in
             let* _ := notifyUpdated remotePath oldText _finalContent in
             ret (ok ("Successfully wrote " ++ JS.ofNumber (JS.byteLength _finalContent)
                      ++ " bytes to " ++ file_path))
         end
     end).

Definition write_file (file_path content : string) : M ToolResult :=
  tryTool "Error writing file: " (write_file_body file_path content).

Definition edit_file_body (file_path old_string new_string : string) : M ToolResult :=
    (let* uri := lift (getRemoteUri file_path) in
     let* remotePath := lift (toRemotePath file_path) in
     let* _override := sync (consumeEditOverride remotePath) in
     match _override with
     | Some _override =>
         let* cached := sync (getCachedWrite remotePath) in
         let* oldText :=
           match cached with
           | Some t => ret t
           | None => try_catch (readFile uri) (fun _ => ret "")
           end in
         let* _ := writeFile uri _override in
         let* _ := sync (cacheWrite remotePath _override) in
         let* _ := notifyUpdated remotePath oldText _override in
         ret (ok ("Successfully edited " ++ file_path))
     | None =>
         let* cached := sync (getCachedWrite remotePath) in
         let* oldText :=
           match cached with
           | Some t => ret t
           | None => readFile uri
           end in
         if negb (JS.includes oldText old_string) then
           ret (err ("Error: old_string not found in " ++ file_path))
         else
           let count := Z.of_nat (List.length (JS.split oldText old_string)) - 1 in
           if count >? 1 then
             ret (err ("Error: old_string found " ++ JS.ofNumber count ++ " times in "
                       ++ file_path ++ ". Provide more context to make it unique."))
           else
             let newText := JS.replace oldText old_string new_string in
             let* _review := callReview "edit_file" file_path oldText newText in
             match _review with
             | Some {| accepted := false |} =>
                 ret (err ("Edit rejected by user for " ++ file_path))
             | _ =>
                 let _finalContent :=
                   match _review with Some r => finalContent r | None => newText end in
                 let* _ := writeFile uri _finalContent in
                 let* _ := sync (cacheWrite remotePath _finalContent) in
                 let* _ := notifyUpdated remotePath oldText _finalContent in
                 ret (ok ("Successfully edited " ++ file_path))
             end
     end).

Definition edit_file (file_path old_string new_string : string) : M ToolResult :=
  tryTool "Error editing file: " (edit_file_body file_path old_string new_string).

(** [p || getRemoteCwd()] *)
Definition orRemoteCwd (p : option string) : Outcome string :=
  if strTruthy p then Returned (default "" p) else getRemoteCwd.

(** [await vscode.workspace.findFiles(relPattern, null, 1000)], then [f.path] of each *)
Definition findFiles (folderUri pattern : string) (maxResults : Z) : M (list string) := fun st =>
  (settle (ws_findFiles host (history st) folderUri pattern maxResults),
   suspend (EFindFiles folderUri pattern maxResults) 0 st).

Definition glob_body (pattern : string) (searchPath : option string) : M ToolResult :=
    (let* start := lift (orRemoteCwd searchPath) in
     let* base := lift (toRemotePath start) in
     let* folderUri := lift (getRemoteUri base) in
     let* files := findFiles folderUri pattern 1000 in
     let paths := JS.sort files in
     ret (ok (match paths with
              | [] => "No files found matching pattern."
              | _ :: _ => JS.join JS.nl paths
              end))).

Definition glob (pattern : string) (searchPath : option string) : M ToolResult :=
  tryTool "Error globbing: " (glob_body pattern searchPath).

Definition rgCommand (pattern : string) (include : option string) (context max_results : option Z)
  : string :=
  "rg --color=never --line-number"
  ++ (if strTruthy include then " --glob " ++ shellEscape (default "" include) else "")
  ++ (if numTruthy context then " -C " ++ JS.ofNumber (default 0 context) else "")
  ++ (if numTruthy max_results then " --max-count " ++ JS.ofNumber (default 0 max_results) else "")
  ++ " " ++ shellEscape pattern.

Definition grepCommand (pattern : string) (include : option string) (context max_results : option Z)
  : string :=
  "grep -rn"
  ++ (if strTruthy include then " --include=" ++ shellEscape (default "" include) else "")
  ++ (if numTruthy context then " -C " ++ JS.ofNumber (default 0 context) else "")
  ++ (if numTruthy max_results then " -m " ++ JS.ofNumber (default 0 max_results) else "")
  ++ " " ++ shellEscape pattern ++ " .".

(** [`${exitCode}`] *)
Definition showExit (code : option Z) : string :=
  match code with Some n => JS.ofNumber n | None => "null" end.

(** [exitCode === 127 || (stderr && stderr.includes("command not found"))] *)
Definition toolAbsent (result : ExecResult) : bool :=
  bool_decide (exitCode result = Some 127)
  || (JS.truthy (stderr result) && JS.includes (stderr result) "command not found").

(** what [grep] answers from the final result of the search command *)
Definition grepAnswer (result : ExecResult) : ToolResult :=
  if bool_decide (exitCode result = Some 1) && negb (JS.truthy (stdout result)) then
    ok "No matches found."
  else if default 0 (exitCode result) >? 1 then
    err ("grep error (exit " ++ showExit (exitCode result) ++ "): "
         ++ (if JS.truthy (stderr result) then stderr result else stdout result))
  else ok (truncateOutput (stdout result) 30000).

Definition grep_body (pattern : string) (searchPath include : option string)
    (context max_results : option Z) : M ToolResult :=
    (let* start := lift (orRemoteCwd searchPath) in
     let* cwd := lift (toRemotePath start) in
     let rgCmd := rgCommand pattern include context max_results in
     let* result := execRemoteCommand rgCmd cwd None in
     let* result :=
       (if toolAbsent result then
          let grepCmd := grepCommand pattern include context max_results in
          execRemoteCommand grepCmd cwd None
        else ret result) in
     ret (grepAnswer result)).

Definition grep (pattern : string) (searchPath include : option string)
    (context max_results : option Z) : M ToolResult :=
  tryTool "Error running grep: " (grep_body pattern searchPath include context max_results).

(** the text [bash] answers from the result of the command: stdout, then
    stderr on a new line, or a note when both are empty *)
Definition bashOutput (result : ExecResult) : string :=
  let output := if JS.truthy (stdout result) then stdout result else "" in
  let output := if JS.truthy (stderr result)
                then output ++ (if JS.truthy output then JS.nl else "") ++ stderr result
                else output in
  if negb (JS.truthy output)
  then "(no output, exit code " ++ showExit (exitCode result) ++ ")"
  else output.

Definition bash_body (command : string) (cwd : option string) (timeout : option Z) : M ToolResult :=
    (let* start := lift (orRemoteCwd cwd) in
     let* remoteCwd := lift (toRemotePath start) in
     let timeoutMs := if numTruthy timeout then default 0 timeout else 120000 in
     let bashCmd := "bash -c " ++ shellEscape command in
     let* result := execRemoteCommand bashCmd remoteCwd (Some timeoutMs) in
     ret (ok (truncateOutput (bashOutput result) 30000))).

Definition bash (command : string) (cwd : option string) (timeout : option Z) : M ToolResult :=
  tryTool "Error running bash: " (bash_body command cwd timeout).

(** a call of one of the six registered tools, with its input *)
Inductive ToolCall : Type :=
| CallReadFile (file_path : string) (offset limit : option Z)
| CallWriteFile (file_path content : string)
| CallEditFile (file_path old_string new_string : string)
| CallGlob (pattern : string) (path : option string)
| CallGrep (pattern : string) (path include : option string) (context max_results : option Z)
| CallBash (command : string) (cwd : option string) (timeout : option Z).

Definition callTool (c : ToolCall) : M ToolResult :=
  match c with
  | CallReadFile file_path offset limit => read_file file_path offset limit
  | CallWriteFile file_path content => write_file file_path content
  | CallEditFile file_path old_string new_string => edit_file file_path old_string new_string
  | CallGlob pattern path => glob pattern path
  | CallGrep pattern path include context max_results =>
      grep pattern path include context max_results
  | CallBash command cwd timeout => bash command cwd timeout
  end.

(** the body of the tool's [try] block and the prefix of its [catch] message *)
Definition toolBody (c : ToolCall) : M ToolResult :=
  match c with
  | CallReadFile file_path offset limit => read_file_body file_path offset limit
  | CallWriteFile file_path content => write_file_body file_path content
  | CallEditFile file_path old_string new_string =>
      edit_file_body file_path old_string new_string
  | CallGlob pattern path => glob_body pattern path
  | CallGrep pattern path include context max_results =>
      grep_body pattern path include context max_results
  | CallBash command cwd timeout => bash_body command cwd timeout
  end.

Definition errorPrefix (c : ToolCall) : string :=
  match c with
  | CallReadFile _ _ _ => "Error reading file: "
  | CallWriteFile _ _ => "Error writing file: "
  | CallEditFile _ _ _ => "Error editing file: "
  | CallGlob _ _ => "Error globbing: "
  | CallGrep _ _ _ _ _ => "Error running grep: "
  | CallBash _ _ _ => "Error running bash: "
  end.

(** [registerTools]: what it registers and what it logs; the host is the
    only thing it looks at *)
Definition registerTools : Outcome (list string * list string) :=
  let host_ := getSshHost in
  let warned :=
    if negb (JS.truthy host_)
    then ["forceLocal: no SSH host detected, remote tools will not function"]
    else [] in
  Returned (["read_file"; "write_file"; "edit_file"; "glob"; "grep"; "bash"],
            (warned ++ ["forceLocal: registered 6 remote proxy tools (read_file, write_file, edit_file, glob, grep, bash)"])%list).

End WithEnvironment.

End Bridge.

(** ** Quoting in the POSIX shell

    The quoting rules of the shell command language, for command lines made
    of words, blanks, backslash escapes and single-quoted parts: inside
    single quotes every character is literal up to the closing quote; a
    backslash outside quotes makes the next character literal (and removes a
    following newline); unquoted blanks separate words.  A line with an
    unquoted operator or expansion character, or with an unclosed quote, is
    outside this fragment and gives [None]. *)

Module Posix.

Definition isBlank (c : ascii) : bool :=
  Ascii.eqb c " " || Ascii.eqb c "009".

Definition isSpecial (c : ascii) : bool :=
  existsb (Ascii.eqb c)
    ["|"; "&"; ";"; "<"; ">"; "("; ")"; "$"; "`"; "034"; "010"; "*"; "?"; "["; "#"; "~"]%char.

(** one more character of the word being read *)
Definition push (c : ascii) (cur : option string) : option string :=
  Some (default "" cur ++ String c "").

(** [words quoted cur s]: the words of [s], read with [cur] the word in
    progress (if any) and [quoted] telling whether a single quote is open *)
Fixpoint words (quoted : bool) (cur : option string) (s : string) : option (list string) :=
  match s with
  | EmptyString =>
      if quoted then None
      else Some (match cur with Some w => [w] | None => [] end)
  | String c s' =>
      if quoted then
        if Ascii.eqb c "'" then words false cur s' else words true (push c cur) s'
      else if Ascii.eqb c "'" then words true (Some (default "" cur)) s'
      else if Ascii.eqb c "\" then
        match s' with
        | String d s'' =>
            if Ascii.eqb d JS.LF then words false cur s'' else words false (push d cur) s''
        | EmptyString => None
        end
      else if isBlank c then
        match cur with
        | Some w => cons w <$> words false None s'
        | None => words false None s'
        end
      else if isSpecial c then None
      else words false (push c cur) s'
  end.

(** the words of a command line *)
Definition parse (line : string) : option (list string) := words false None line.

(** a character that stands for itself in an unquoted word *)
Definition plainChar (c : ascii) : bool :=
  negb (Ascii.eqb c "'") && negb (Ascii.eqb c "\") && negb (isBlank c) && negb (isSpecial c).

Fixpoint plain (s : string) : bool :=
  match s with
  | EmptyString => true
  | String c s' => plainChar c && plain s'
  end.

End Posix.

(** ** The choice of the extension kind (test-extensionkind-logic.js) *)

Module ExtensionKind.

(** [JSON.stringify] of a string (QuoteJSONString): the quote and the
    backslash are escaped with a backslash, a control character is written
    with its short escape or as a code unit in hexadecimal *)
Definition hexDigit (n : nat) : ascii :=
  nth n ["0"; "1"; "2"; "3"; "4"; "5"; "6"; "7"; "8"; "9"; "a"; "b"; "c"; "d"; "e"; "f"]%char
    "0"%char.

Definition escape (c : ascii) : string :=
  let n := nat_of_ascii c in
  if Ascii.eqb c "034" then String "\" (String "034" "")
  else if Ascii.eqb c "\" then "\\"
  else if (n =? 8)%nat then "\b"
  else if (n =? 9)%nat then "\t"
  else if (n =? 10)%nat then "\n"
  else if (n =? 12)%nat then "\f"
  else if (n =? 13)%nat then "\r"
  else if (n <? 32)%nat
       then "\u00" ++ String (hexDigit (n / 16)) (String (hexDigit (n mod 16)) "")
       else String c "".

Fixpoint escapeAll (s : string) : string :=
  match s with
  | EmptyString => EmptyString
  | String c s' => escape c ++ escapeAll s'
  end.

Definition quote (s : string) : string :=
  String "034" (escapeAll s ++ String "034" "").

(** [JSON.stringify] of an array of strings *)
Definition stringify (a : list string) : string :=
  "[" ++ JS.join "," (quote <$> a) ++ "]".

Definition computeDesiredExtensionKind (forceLocal isRemote : bool) : list string :=
  if negb isRemote then ["ui"; "workspace"]
  else if forceLocal then ["ui"; "workspace"]
  else ["workspace"; "ui"].

Definition shouldPromptReload (currentKind desiredKind : list string) : bool :=
  negb (String.eqb (stringify currentKind) (stringify desiredKind)).

Record SyncResult := { desired : list string; needsReload : bool }.

Definition simulateSync (forceLocal isRemote : bool) (currentExtensionKind : list string)
  : SyncResult :=
  let desired := computeDesiredExtensionKind forceLocal isRemote in
  let needsReload := shouldPromptReload currentExtensionKind desired in
  {| desired := desired; needsReload := needsReload |}.

(** the reader of one character of the text between the quotes *)
Definition unhex (c : ascii) : option nat :=
  let n := nat_of_ascii c in
  if ((48 <=? n) && (n <=? 57))%nat then Some (n - 48)%nat
  else if ((97 <=? n) && (n <=? 102))%nat then Some (n - 87)%nat
  else None.

Definition readChar (s : string) : option (ascii * string) :=
  match s with
  | EmptyString => None
  | String c r =>
      if Ascii.eqb c "034" then None
      else if Ascii.eqb c "\" then
        match r with
        | String d r' =>
            if Ascii.eqb d "034" then Some ("034"%char, r')
            else if Ascii.eqb d "\" then Some ("\"%char, r')
            else if Ascii.eqb d "b" then Some ("008"%char, r')
            else if Ascii.eqb d "t" then Some ("009"%char, r')
            else if Ascii.eqb d "n" then Some ("010"%char, r')
            else if Ascii.eqb d "f" then Some ("012"%char, r')
            else if Ascii.eqb d "r" then Some ("013"%char, r')
            else if Ascii.eqb d "u" then
              match r' with
              | String _ (String _ (String h (String l r''))) =>
                  match unhex h, unhex l with
                  | Some a, Some b => Some (ascii_of_nat (16 * a + b), r'')
                  | _, _ => None
                  end
              | _ => None
              end
            else None
        | EmptyString => None
        end
      else Some (c, r)
  end.

End ExtensionKind.

(** ** A simulated remote host, for running the bridge on concrete inputs *)

Module Sim.
Import Bridge.

(** The simulated file system has no staleness: a file holds what was last
    written to it, by the bridge or by a command sent to the terminal, and
    else what [files] gives it.  [shell] tells which files a command line
    sent to the terminal leaves behind. *)
Fixpoint fileAt (shell : string -> list (string * string)) (files : list (string * string))
    (uri : string) (h : list Event) : option string :=
  match h with
  | [] => snd <$> List.find (fun f => String.eqb (fst f) uri) files
  | EWriteFile u c :: h' => if String.eqb u uri then Some c else fileAt shell files uri h'
  | ESendText line :: h' =>
      match List.find (fun f => String.eqb (fst f) uri) (shell line) with
      | Some f => Some (snd f)
      | None => fileAt shell files uri h'
      end
  | _ :: h' => fileAt shell files uri h'
  end.

Definition memHost (shell : string -> list (string * string)) (files : list (string * string))
  : Host :=
  {| fs_readFile := fun h uri =>
       match fileAt shell files uri h with
       | Some c => Resolved c
       | None => Rejected ("EntryNotFound (FileSystemError): " ++ uri)
       end;
     fs_writeFile := fun _ _ _ => Resolved tt;
     ws_findFiles := fun _ _ _ _ => Resolved [];
     ssh_run := fun _ _ => SshError true "spawn ssh ENOENT";
     elapsed := fun _ => 0%N;
     terminalDisposed := fun _ => false |}.

Definition noShell (line : string) : list (string * string) := [].

(** a host on which no file can be read: no command ever completes *)
Definition deadHost : Host :=
  {| fs_readFile := fun _ uri => Rejected ("EntryNotFound (FileSystemError): " ++ uri);
     fs_writeFile := fun _ _ _ => Resolved tt;
     ws_findFiles := fun _ _ _ _ => Resolved [];
     ssh_run := fun _ _ => SshError true "spawn ssh ENOENT";
     elapsed := fun _ => 0%N;
     terminalDisposed := fun _ => false |}.

(** the sentinels of a command that printed done and exited with 0 before
    the first poll; it left no stderr sentinel *)
Definition doneAnswer (uri : string) : Settled string :=
  if String.eqb uri "vscode-remote://ssh-remote+box/tmp/.claude_exec_1000_1.exit"
  then Resolved ("0" ++ JS.nl)
  else if String.eqb uri "vscode-remote://ssh-remote+box/tmp/.claude_exec_1000_1.out"
       then Resolved ("done" ++ JS.nl)
       else Rejected ("EntryNotFound (FileSystemError): " ++ uri).

Definition doneHost : Host :=
  {| fs_readFile := fun _ uri => doneAnswer uri;
     fs_writeFile := fun _ _ _ => Resolved tt;
     ws_findFiles := fun _ _ _ _ => Resolved [];
     ssh_run := fun _ _ => SshError true "spawn ssh ENOENT";
     elapsed := fun _ => 0%N;
     terminalDisposed := fun _ => false |}.

(** a host on which the command takes its time: nothing can be read until
    a first wait of 300 ms is over, and from then on the sentinels of
    [doneAnswer] are there *)
Definition lateHost : Host :=
  {| fs_readFile := fun h uri =>
       if existsb (fun e => match e with ESleep 300 => true | _ => false end) h
       then doneAnswer uri
       else Rejected ("EntryNotFound (FileSystemError): " ++ uri);
     fs_writeFile := fun _ _ _ => Resolved tt;
     ws_findFiles := fun _ _ _ _ => Resolved [];
     ssh_run := fun _ _ => SshError true "spawn ssh ENOENT";
     elapsed := fun _ => 0%N;
     terminalDisposed := fun _ => false |}.

(** a host reached by ssh that has grep but not rg *)
Definition grepOnlyHost : Host :=
  {| fs_readFile := fun _ uri => Rejected ("EntryNotFound (FileSystemError): " ++ uri);
     fs_writeFile := fun _ _ _ => Resolved tt;
     ws_findFiles := fun _ _ _ _ => Resolved [];
     ssh_run := fun _ args =>
       if JS.includes (List.last args "") "&& rg "
       then SshClose (Some 127) [] ["bash: rg: command not found" ++ JS.nl] 20
       else SshClose (Some 0) ["./a.txt:1:needle" ++ JS.nl] [] 30;
     elapsed := fun _ => 0%N;
     terminalDisposed := fun _ => false |}.

(** a workspace opened on box:/work, the extension running with home /home/u *)
Definition cfg0 : Config :=
  {| workspaceFolders := ["/work"]; sshHost := ""; remoteAuthority := "ssh-remote+box";
     homedir := "/home/u"; useSSHExec := false; sshIdentityFile := "";
     sshExtraArgs := []; sshConfigFile := "" |}.

(** the same without any workspace folder *)
Definition cfgNoFolder : Config :=
  {| workspaceFolders := []; sshHost := ""; remoteAuthority := "ssh-remote+box";
     homedir := "/home/u"; useSSHExec := false; sshIdentityFile := "";
     sshExtraArgs := []; sshConfigFile := "" |}.

(** the same workspace with the ssh transport for commands *)
Definition cfgSsh : Config :=
  {| workspaceFolders := ["/work"]; sshHost := ""; remoteAuthority := "ssh-remote+box";
     homedir := "/home/u"; useSSHExec := true; sshIdentityFile := "";
     sshExtraArgs := []; sshConfigFile := "" |}.

(** a review gate that accepts what is proposed, and an update notifier *)
Definition acceptingHooks : Hooks :=
  {| onFileUpdated := true;
     reviewEdit := Some (fun _ _ _ _ newContent =>
                           Resolved {| accepted := true; finalContent := newContent |}) |}.

Definition noHooks : Hooks := {| onFileUpdated := false; reviewEdit := None |}.

(** a review gate whose promise is rejected without a reason: [undefined] *)
Definition brokenHooks : Hooks :=
  {| onFileUpdated := false;
     reviewEdit := Some (fun _ _ _ _ _ => Rejected (Nullish false)) |}.


(** the locator of a.txt in the workspace *)
Definition aTxt : string := "vscode-remote://ssh-remote+box/work/a.txt".

Definition threeLines : string := "a" ++ JS.nl ++ "b" ++ JS.nl ++ "c".

Definition resultText (o : Outcome ToolResult) : string :=
  match o with
  | Returned r => text r
  | _ => ""
  end.

(** a host whose file search finds two files, in no particular order *)
Definition listingHost : Host :=
  {| fs_readFile := fun _ uri => Rejected ("EntryNotFound (FileSystemError): " ++ uri);
     fs_writeFile := fun _ _ _ => Resolved tt;
     ws_findFiles := fun _ _ _ _ => Resolved ["/work/b.txt"; "/work/a/c.txt"; "/work/a.txt"];
     ssh_run := fun _ _ => SshError true "spawn ssh ENOENT";
     elapsed := fun _ => 0%N;
     terminalDisposed := fun _ => false |}.

End Sim.

(** * Vocabulary of the statements *)

Import Bridge.

Definition noRootMessage : string :=
  "No workspace folder open; cannot determine remote working directory".

(** the option words of the search commands, as the shell is meant to read them *)
Definition strFlag (flag : string) (v : option string) : list string :=
  if strTruthy v then [flag; default "" v] else [].

Definition numFlag (flag : string) (v : option Z) : list string :=
  if numTruthy v then [flag; JS.ofNumber (default 0 v)] else [].

(** the remote writes and the reviews asked among some events, oldest last *)
Definition writesOf (evs : list Event) : list (string * string) :=
  omap (fun e => match e with EWriteFile uri content => Some (uri, content) | _ => None end) evs.

Definition reviewsOf (evs : list Event) : list (string * string) :=
  omap (fun e => match e with EReview tool _ _ newContent => Some (tool, newContent) | _ => None end)
       evs.

(** *** The sentinel protocol *)

Definition timedOut (timeoutMs : Z) : string :=
  "Command timed out after " ++ JS.ofNumber timeoutMs ++ "ms".

(** a sentinel that cannot be read counts as empty *)
Definition orEmpty (r : Settled string) : string :=
  match r with
  | Resolved d => d
  | Rejected _ => ""
  end.

(** what a poll made after the events [h] sees of the exit sentinel: its
    trimmed text, or nothing when it cannot be read or is still blank *)
Definition exitSeen (host : Host) (exitUri : string) (h : list Event) : option string :=
  match fs_readFile host h exitUri with
  | Resolved d => if JS.truthy (JS.trim d) then Some (JS.trim d) else None
  | Rejected _ => None
  end.

(** the state after the wait of a poll, and after its read of the exit
    sentinel; the state in which the [k]-th test of the deadline is made
    when no poll before it saw the sentinel *)
Definition waited (host : Host) (st : State) : State :=
  suspend host (ESleep pollInterval) pollInterval st.

Definition polled (host : Host) (exitUri : string) (st : State) : State :=
  suspend host (EReadFile exitUri) 0 (waited host st).

Fixpoint pollAt (host : Host) (exitUri : string) (k : nat) (st : State) : State :=
  match k with
  | O => st
  | S k' => pollAt host exitUri k' (polled host exitUri st)
  end.

Section Protocol.

Variable host : Host.
Variables tmpBase exitUri outUri errUri : string.
Variables startTime timeoutMs : Z.

(** The polling loop as a relation between the state it is entered in, its
    outcome and the state it is left in.  It follows the loop of the code,
    not the words of the specification: the time budget is tested before
    each wait only, so a sentinel that is seen at a poll begun within the
    budget is taken even when the budget is over by then. *)
Inductive Polls : State -> Outcome ExecResult -> State -> Prop :=
| polls_timed_out (st : State) :
    timeoutMs <= clock st - startTime ->
    Polls st (Thrown (timedOut timeoutMs))
      (record (ESendText ("kill %1 2>/dev/null; rm -f " ++ sentinels tmpBase)) st)
| polls_not_yet (st : State) (r : Outcome ExecResult) (st' : State) :
    clock st - startTime < timeoutMs ->
    exitSeen host exitUri (history (suspend host (ESleep pollInterval) pollInterval st)) = None ->
    Polls (suspend host (EReadFile exitUri) 0 (suspend host (ESleep pollInterval) pollInterval st))
      r st' ->
    Polls st r st'
| polls_completed (st : State) (e : string) :
    clock st - startTime < timeoutMs ->
    let s1 := suspend host (ESleep pollInterval) pollInterval st in
    let s2 := suspend host (EReadFile exitUri) 0 s1 in
    let s3 := suspend host (EReadFile outUri) 0 s2 in
    let s4 := suspend host (EReadFile errUri) 0 s3 in
    exitSeen host exitUri (history s1) = Some e ->
    Polls st
      (Returned {| stdout := orEmpty (fs_readFile host (history s2) outUri);
                   stderr := orEmpty (fs_readFile host (history s3) errUri);
                   exitCode := Some (default 1 (JS.parseInt e)) |})
      (record (ESendText ("rm -f " ++ sentinels tmpBase)) s4).

End Protocol.

(** the name of the sentinel files of a command started in state [st] *)
Definition tmpBaseOf (st : State) : string :=
  "/tmp/.claude_exec_" ++ JS.ofNumber (clock st) ++ "_" ++ JS.ofNumber (execCounter st + 1).

(** the command line sent to the terminal *)
Definition fullCmdOf (st : State) (command cwd : string) : string :=
  "(" ++ cdPart cwd ++ command ++ ") > " ++ tmpBaseOf st ++ ".out 2> " ++ tmpBaseOf st
  ++ ".err; echo $? > " ++ tmpBaseOf st ++ ".exit".

(** [timeout || 120000] *)
Definition bashTimeout (timeout : option Z) : Z :=
  if numTruthy timeout then default 0 timeout else 120000.

(** the command lines handed to a shell among some events, newest first:
    the lines sent to the terminal and the last argument of ssh *)
Definition shellLines (evs : list Event) : list string :=
  omap (fun e => match e with
                 | ESendText line => Some line
                 | ESpawnSsh args _ => Some (List.last args "")
                 | _ => None
                 end) evs.

(** a computation that throws nothing but values with a message *)
Definition messaged {A} (m : M A) : Prop :=
  forall st e, fst (m st) = Thrown e -> exists message, e = Err message.


(** a computation that never runs out of fuel *)
Definition settles {A} (m : M A) : Prop := forall st, fst (m st) <> OutOfFuel.

(** a content of 30001 characters *)
Definition longContent : string := JS.repeat "a" (Z.to_nat 30001).

(** the module-level variables other than the clock and the events are the
    same in two states *)
Definition sameModuleState (st st' : State) : Prop :=
  writeCache st' = writeCache st
  /\ editOverride st' = editOverride st
  /\ remoteTerminal st' = remoteTerminal st
  /\ terminalReady st' = terminalReady st
  /\ execCounter st' = execCounter st.

(** the events of the polling loop: its waits of one interval, its reads
    and the lines it sends *)
Definition isPollEvent (e : Event) : bool :=
  match e with
  | ESleep ms => ms =? pollInterval
  | EReadFile _ => true
  | ESendText _ => true
  | _ => false
  end.

(** a computation that leaves the write cache and the override slot alone *)
Definition keepsFiles {A} (m : M A) : Prop :=
  forall st, writeCache (snd (m st)) = writeCache st
             /\ editOverride (snd (m st)) = editOverride st.

(** a character that a decimal number is printed with *)
Definition isNumberChar (c : ascii) : bool :=
  Ascii.eqb c "-" || match JS.digit c with Some _ => true | None => false end.

Fixpoint allChars (f : ascii -> bool) (s : string) : bool :=
  match s with
  | EmptyString => true
  | String c s' => f c && allChars f s'
  end.

(** the order of [Array.prototype.sort] without a comparison function *)
Definition codeUnitLe (x y : string) : Prop := String.leb x y = true.

(** the chunks of a stream put end to end, and the length of the longest *)
Definition joined (chunks : list string) : string := foldr String.append "" chunks.

Definition longest (chunks : list string) : Z := foldr Z.max 0 (JS.len <$> chunks).

(** * Properties *)

(** a thrown value that reaches the handler of a tool: by cases on what
    reading its message gives *)
Ltac caught H :=
  repeat match type of H with
    | context [match ?e with Err _ => _ | Nullish _ => _ end] => destruct e
    end.

(** an error result, or a throw, where a success was assumed *)
Ltac failed H :=
  caught H; solve [discriminate H | injection H as <- _; discriminate].

(** ** The runtime primitives on examples *)

Example split_lines : JS.split ("a" ++ JS.nl ++ "b" ++ JS.nl) JS.nl = ["a"; "b"; ""].
Proof. reflexivity. Qed.

Example split_multi : JS.split "aXYbXYXYc" "XY" = ["a"; "b"; ""; "c"].
Proof. reflexivity. Qed.

Example split_overlap : JS.split "aaa" "aa" = [""; "a"].
Proof. reflexivity. Qed.

Example split_empty_sep : JS.split "abc" "" = ["a"; "b"; "c"].
Proof. reflexivity. Qed.

Example replace_dollar : JS.replace "x" "x" "$$" = "$".
Proof. reflexivity. Qed.

Example replace_amp : JS.replace "a-b" "-" "[$&]" = "a[-]b".
Proof. reflexivity. Qed.

Example slice_tail : JS.slice "abcdef" (-2) None = "ef".
Proof. reflexivity. Qed.

Example parseInt_exit : JS.parseInt "127" = Some 127.
Proof. reflexivity. Qed.

Example join_up : NodePath.join ["/home/u/proj"; "../x/./y/"] = "/home/u/x/y/".
Proof. reflexivity. Qed.

Example join_rel : NodePath.join [""; ".claude"; "remote"] = ".claude/remote".
Proof. reflexivity. Qed.

Example sort_paths : JS.sort ["/b"; "/a/c"; "/a"] = ["/a"; "/a/c"; "/b"].
Proof. reflexivity. Qed.


(** ** Strings *)

Lemma append_nil_r (s : string) : s ++ "" = s.
Proof. induction s as [|c s IH]; simpl; [reflexivity | now rewrite IH]. Qed.

Lemma append_assoc (a b c : string) : (a ++ b) ++ c = a ++ (b ++ c).
Proof. induction a as [|x a IH]; simpl; [reflexivity | now rewrite IH]. Qed.

Lemma length_append (a b : string) :
  String.length (a ++ b) = (String.length a + String.length b)%nat.
Proof. induction a as [|x a IH]; simpl; [reflexivity | now rewrite IH]. Qed.

Lemma startsWith_append (p s : string) : JS.startsWith (p ++ s) p = true.
Proof.
  induction p as [|c p IH]; simpl; [reflexivity |].
  now rewrite Ascii.eqb_refl.
Qed.

Lemma sdrop_append (p s : string) : JS.sdrop (String.length p) (p ++ s) = s.
Proof. induction p as [|c p IH]; simpl; auto. Qed.

Lemma stake_all (n : nat) (s : string) : (String.length s <= n)%nat -> JS.stake n s = s.
Proof.
  revert n; induction s as [|c s IH]; intros [|n] Hn; simpl in *; try reflexivity; try lia.
  rewrite IH; [reflexivity | lia].
Qed.

Lemma stake_append (p s : string) : JS.stake (String.length p) (p ++ s) = p.
Proof. induction p as [|c p IH]; simpl; [reflexivity | now rewrite IH]. Qed.

(** [(p + s).slice(p.length)] is [s] *)
Lemma slice_append (p s : string) : JS.slice (p ++ s) (JS.len p) None = s.
Proof.
  unfold JS.slice, JS.len, JS.clampIndex.
  rewrite length_append.
  destruct (Z.ltb_spec (Z.of_nat (String.length p)) 0) as [H|H]; [lia |].
  rewrite Z.min_l by lia.
  rewrite Nat2Z.id, sdrop_append.
  apply stake_all. lia.
Qed.

Lemma startsWith_absolute (s p : string) :
  NodePath.isAbsolute p = true -> NodePath.isAbsolute s = false -> JS.truthy s = true ->
  JS.startsWith s p = false.
Proof.
  destruct p as [|c p]; simpl; [discriminate |].
  destruct s as [|d s]; simpl; [discriminate |].
  intros Hc Hd _.
  apply Ascii.eqb_eq in Hc; subst c.
  rewrite Ascii.eqb_sym, Hd. reflexivity.
Qed.

(** ** Path resolution *)

Lemma normalize_absolute (p : string) :
  NodePath.isAbsolute p = true -> NodePath.isAbsolute (NodePath.normalize p) = true.
Proof.
  destruct p as [|c p]; [discriminate |].
  intros H. unfold NodePath.normalize. rewrite H.
  destruct (NodePath.normalizeString (String c p) (negb true)); reflexivity.
Qed.

Lemma join_absolute (a : string) (rest : list string) :
  NodePath.isAbsolute a = true -> NodePath.isAbsolute (NodePath.join (a :: rest)) = true.
Proof.
  intros H. unfold NodePath.join.
  destruct a as [|c a]; [discriminate |].
  rewrite filter_cons_True by reflexivity.
  apply normalize_absolute.
  destruct (filter _ rest); exact H.
Qed.

(** the local working root is an absolute path when the home directory is *)
Lemma getLocalCwd_absolute (cfg : Config) :
  NodePath.isAbsolute (homedir cfg) = true -> NodePath.isAbsolute (getLocalCwd cfg) = true.
Proof. intros H. unfold getLocalCwd. now apply join_absolute. Qed.

Lemma truthy_relative_nonempty (r : string) : r <> "" -> JS.truthy r = true.
Proof. destruct r; [congruence | reflexivity]. Qed.

(** C9: a path under the local working root resolves like its
    workspace-relative form.  With a workspace folder [root] open and an
    absolute home directory, for every non-empty relative path [r] the path
    made of the local working root, a slash and [r] resolves to the same
    remote path as [r] alone, namely [r] joined onto [root]; and the local
    working root itself resolves to [root]. *)
Theorem toRemotePath_local_root_equiv (cfg : Config) (root : string) (others : list string)
    (r : string) :
  workspaceFolders cfg = root :: others ->
  NodePath.isAbsolute (homedir cfg) = true ->
  r <> "" ->
  NodePath.isAbsolute r = false ->
  toRemotePath cfg (getLocalCwd cfg ++ "/" ++ r) = toRemotePath cfg r
  /\ toRemotePath cfg r = Returned (NodePath.join [root; r])
  /\ toRemotePath cfg (getLocalCwd cfg) = Returned root.
Proof.
  intros Hroot Hhome Hne Hrel.
  pose proof (getLocalCwd_absolute cfg Hhome) as Habs.
  pose proof (truthy_relative_nonempty r Hne) as Htr.
  assert (Hr : toRemotePath cfg r = Returned (NodePath.join [root; r])).
  { unfold toRemotePath, getRemoteCwd. rewrite Hroot.
    rewrite (startsWith_absolute r _ Habs Hrel Htr), Hrel. reflexivity. }
  split; [| split]; [| exact Hr |].
  - rewrite Hr. unfold toRemotePath, getRemoteCwd. rewrite Hroot.
    rewrite startsWith_append, slice_append. simpl. rewrite Htr. reflexivity.
  - unfold toRemotePath, getRemoteCwd. rewrite Hroot.
    rewrite <- (append_nil_r (getLocalCwd cfg)) at 1.
    rewrite startsWith_append.
    rewrite <- (append_nil_r (getLocalCwd cfg)) at 1.
    rewrite slice_append. reflexivity.
Qed.

Lemma toRemotePath_local_root_equiv_witness :
  toRemotePath Sim.cfg0 ("/home/u/.claude/remote/box/work" ++ "/" ++ "src/a.txt")
  = toRemotePath Sim.cfg0 "src/a.txt"
  /\ toRemotePath Sim.cfg0 "src/a.txt" = Returned "/work/src/a.txt"
  /\ toRemotePath Sim.cfg0 "/home/u/.claude/remote/box/work" = Returned "/work".
Proof.
  apply (toRemotePath_local_root_equiv Sim.cfg0 "/work" [] "src/a.txt");
    [reflexivity | reflexivity | discriminate | reflexivity].
Defined.

(** ** Shell quoting *)

Lemma words_quoted_escape (s w rest : string) :
  Posix.words true (Some w) (JS.replaceAllChar "'" "'\''" s ++ "'" ++ rest)
  = Posix.words false (Some (w ++ s)) rest.
Proof.
  revert w; induction s as [|c s IH]; intros w.
  - simpl. now rewrite append_nil_r.
  - simpl JS.replaceAllChar. destruct (Ascii.eqb c "'") eqn:Hc.
    + apply Ascii.eqb_eq in Hc; subst c.
      rewrite append_assoc. simpl.
      unfold Posix.push. simpl default.
      rewrite IH, append_assoc. reflexivity.
    + rewrite append_assoc. simpl. rewrite Hc.
      unfold Posix.push. simpl default.
      rewrite IH, append_assoc. reflexivity.
Qed.

(** an escaped string read by the shell adds exactly the string to the word
    in progress *)
Lemma words_shellEscape (s : string) (cur : option string) (rest : string) :
  Posix.words false cur (shellEscape s ++ rest)
  = Posix.words false (Some (default "" cur ++ s)) rest.
Proof.
  unfold shellEscape. rewrite !append_assoc. simpl.
  apply words_quoted_escape.
Qed.

Lemma words_plain (w : string) (cur : option string) (rest : string) :
  Posix.plain w = true -> JS.truthy w = true ->
  Posix.words false cur (w ++ rest) = Posix.words false (Some (default "" cur ++ w)) rest.
Proof.
  revert cur; induction w as [|c w IH]; intros cur Hp Ht; [discriminate |].
  simpl in Hp. apply andb_prop in Hp as [Hc Hw].
  unfold Posix.plainChar in Hc.
  apply andb_prop in Hc as [Hc Hs]. apply andb_prop in Hc as [Hc Hb].
  apply andb_prop in Hc as [Hq Hbs].
  apply negb_true_iff in Hq, Hbs, Hb, Hs.
  simpl. rewrite Hq, Hbs, Hb, Hs.
  destruct w as [|d w].
  - simpl. reflexivity.
  - rewrite IH by (assumption || reflexivity).
    unfold Posix.push. simpl default. now rewrite append_assoc.
Qed.

Lemma plain_uint (d : Decimal.uint) : Posix.plain (NilEmpty.string_of_uint d) = true.
Proof. induction d; simpl; auto. Qed.

Lemma ofNumber_plain (n : Z) : Posix.plain (JS.ofNumber n) = true.
Proof.
  unfold JS.ofNumber, NilZero.string_of_int, NilZero.string_of_uint.
  destruct (Z.to_int n) as [d|d]; destruct d; simpl; auto using plain_uint.
Qed.

Lemma ofNumber_truthy (n : Z) : JS.truthy (JS.ofNumber n) = true.
Proof.
  unfold JS.ofNumber, NilZero.string_of_int, NilZero.string_of_uint.
  destruct (Z.to_int n) as [d|d]; destruct d; reflexivity.
Qed.

Lemma words_ofNumber (n : Z) (cur : option string) (rest : string) :
  Posix.words false cur (JS.ofNumber n ++ rest)
  = Posix.words false (Some (default "" cur ++ JS.ofNumber n)) rest.
Proof. apply words_plain; [apply ofNumber_plain | apply ofNumber_truthy]. Qed.

Lemma revstr_acc (s acc : string) : JS.revstr acc s = JS.revstr "" s ++ acc.
Proof.
  revert acc; induction s as [|c s IH]; intros acc; simpl; [reflexivity |].
  rewrite (IH (String c acc)), (IH (String c "")), append_assoc. reflexivity.
Qed.

Lemma join_cons (d x y : string) (l : list string) :
  JS.join d (x :: y :: l) = x ++ d ++ JS.join d (y :: l).
Proof. reflexivity. Qed.

Lemma split_go_cons (sep : string) (k : nat) (cur s : string) :
  exists y l, JS.split_go sep k cur s = y :: l.
Proof.
  revert k cur; induction s as [|c s IH]; intros k cur; simpl; [eauto |].
  destruct k; [destruct (JS.startsWith _ _) |]; eauto.
Qed.

(** splitting at a character and joining with a text replaces every
    occurrence of the character by the text *)
Lemma join_split_char (c : ascii) (d s cur : string) :
  JS.join d (JS.split_go (String c "") 0 cur s)
  = JS.revstr "" cur ++ JS.replaceAllChar c d s.
Proof.
  revert cur; induction s as [|e s IH]; intros cur.
  - simpl. now rewrite append_nil_r.
  - simpl. rewrite (Ascii.eqb_sym e c). destruct (Ascii.eqb c e).
    + destruct (split_go_cons (String c "") 0 "" s) as (y & l & Hy).
      pose proof (IH "") as IH0. rewrite Hy in *.
      rewrite join_cons, IH0. simpl. reflexivity.
    + rewrite IH. simpl. rewrite (revstr_acc cur (String e "")), append_assoc.
      reflexivity.
Qed.

(** [shellEscape] written with [split] and [join]: every quote is replaced *)
Lemma shellEscape_replaces (s : string) :
  shellEscape s = "'" ++ JS.join "'\''" (JS.split s "'") ++ "'".
Proof. unfold shellEscape, JS.split. now rewrite join_split_char. Qed.

(** ** Line slicing of read_file *)

(** inside the documented range, an offset from 1 on and a limit from 1 on,
    the slice is the [limit] lines that start at line [offset] *)
Lemma sliceLines_in_range (content : string) (offset limit : Z) :
  1 <= offset -> 1 <= limit ->
  sliceLines content (Some offset) (Some limit)
  = JS.join JS.nl (take (Z.to_nat limit) (drop (Z.to_nat (offset - 1)) (JS.split content JS.nl))).
Proof.
  intros Ho Hl. unfold sliceLines, numTruthy, JS.aslice, JS.clampIndex. simpl default.
  destruct (Z.eqb_spec limit 0) as [?|_]; [lia |]. simpl negb. cbv iota.
  set (lines := JS.split content JS.nl).
  destruct (Z.ltb_spec (offset - 1) 0); [lia |].
  destruct (Z.ltb_spec (offset - 1 + limit) 0); [lia |].
  f_equal.
  destruct (Z.le_gt_cases (Z.of_nat (List.length lines)) (offset - 1)) as [Hge|Hlt].
  - rewrite !drop_ge by lia. now rewrite !take_nil.
  - rewrite (Z.min_l (offset - 1)) by lia.
    destruct (Z.le_gt_cases (offset - 1 + limit) (Z.of_nat (List.length lines))) as [Hin|Hout].
    + rewrite Z.min_l by lia. f_equal. lia.
    + rewrite Z.min_r by lia.
      rewrite !take_ge; [reflexivity | |]; rewrite length_drop; lia.
Qed.

(** C8: with offset 1 and limit 0 on a file of three lines, read_file
    returns the three lines, where the lines numbered 1 through 0 are none:
    the test [limit ? ... : lines.length] takes a limit of 0 for an absent
    one; and with offset 0 and limit 2 it returns nothing, the start index
    -1 counting from the end of the lines. *)
Theorem read_file_limit_zero_reads_all :
  let host := Sim.memHost Sim.noShell [(Sim.aTxt, Sim.threeLines)] in
  fst (read_file Sim.cfg0 host "a.txt" (Some 1) (Some 0) (initial 0))
  = Returned (ok Sim.threeLines)
  /\ fst (read_file Sim.cfg0 host "a.txt" (Some 0) (Some 2) (initial 0))
     = Returned (ok "")
  /\ fst (read_file Sim.cfg0 host "a.txt" (Some 2) (Some 1) (initial 0))
     = Returned (ok "b").
Proof. repeat split; vm_compute; reflexivity. Qed.

(** ** Running computations *)

Lemma toRemotePath_no_root (cfg : Config) (p : string) :
  workspaceFolders cfg = [] -> toRemotePath cfg p = Thrown noRootMessage.
Proof. intros H. unfold toRemotePath, getRemoteCwd. now rewrite H. Qed.

Lemma getRemoteUri_no_root (cfg : Config) (p : string) :
  workspaceFolders cfg = [] -> getRemoteUri cfg p = Thrown noRootMessage.
Proof. intros H. unfold getRemoteUri. now rewrite toRemotePath_no_root. Qed.

Lemma toRemotePath_root (cfg : Config) (root : string) (others : list string) (p : string) :
  workspaceFolders cfg = root :: others -> exists q, toRemotePath cfg p = Returned q.
Proof.
  intros H. unfold toRemotePath, getRemoteCwd. rewrite H.
  destruct (JS.startsWith _ _); [eauto |].
  destruct (NodePath.isAbsolute p); eauto.
Qed.

Lemma getRemoteUri_of_toRemotePath (cfg : Config) (p q : string) :
  toRemotePath cfg p = Returned q ->
  getRemoteUri cfg p = Returned ("vscode-remote://ssh-remote+" ++ getSshHost cfg ++ q).
Proof. intros H. unfold getRemoteUri. now rewrite H. Qed.

Lemma getRemoteUri_returned (cfg : Config) (p uri : string) :
  getRemoteUri cfg p = Returned uri -> exists q, toRemotePath cfg p = Returned q.
Proof. unfold getRemoteUri. destruct (toRemotePath cfg p); [eauto | discriminate..]. Qed.

(** ** Missing workspace root *)

(** C7, as the code has it: without a workspace folder the registration of
    the tools succeeds all the same, every path resolution throws, at each
    call, and every call of a tool catches the error and answers an error
    result that carries its message; the state of the bridge is left as it
    was. *)
Theorem missing_root_is_a_per_call_error (cfg : Config) (host : Host) (hooks : Hooks)
    (c : ToolCall) (p : string) (st : State) :
  workspaceFolders cfg = [] ->
  (exists registered, registerTools cfg = Returned registered)
  /\ toRemotePath cfg p = Thrown noRootMessage
  /\ callTool cfg host hooks c st = (Returned (err (errorPrefix c ++ noRootMessage)), st).
Proof.
  intros H. split; [unfold registerTools; eauto |].
  split; [now apply toRemotePath_no_root |].
  destruct c; simpl;
    unfold read_file, write_file, edit_file, glob, grep, bash, tryTool, try_catch,
      read_file_body, write_file_body, edit_file_body, glob_body, grep_body, bash_body,
      bind, lift, orRemoteCwd, getRemoteCwd;
    rewrite ?(getRemoteUri_no_root cfg _ H), ?(toRemotePath_no_root cfg _ H), ?H;
    try reflexivity.
  all: match goal with |- context [strTruthy ?x] => destruct (strTruthy x) end;
    rewrite ?(toRemotePath_no_root cfg _ H); reflexivity.
Qed.

Lemma missing_root_is_a_per_call_error_witness :
  (exists registered, registerTools Sim.cfgNoFolder = Returned registered)
  /\ toRemotePath Sim.cfgNoFolder "/work/a.txt" = Thrown noRootMessage
  /\ callTool Sim.cfgNoFolder (Sim.memHost Sim.noShell []) Sim.noHooks
       (CallReadFile "/work/a.txt" None None) (initial 0)
     = (Returned (err ("Error reading file: " ++ noRootMessage)), initial 0).
Proof.
  apply (missing_root_is_a_per_call_error Sim.cfgNoFolder (Sim.memHost Sim.noShell [])
           Sim.noHooks (CallReadFile "/work/a.txt" None None) "/work/a.txt" (initial 0)).
  reflexivity.
Defined.

(** C7, as stated, fails: without a workspace folder nothing fails when the
    tools are registered, and the glob tool does not fail fatally; it
    returns an error result for that call. *)
Lemma missing_root_is_not_fatal :
  registerTools Sim.cfgNoFolder
  = Returned (["read_file"; "write_file"; "edit_file"; "glob"; "grep"; "bash"],
              ["forceLocal: registered 6 remote proxy tools (read_file, write_file, edit_file, glob, grep, bash)"])
  /\ fst (glob Sim.cfgNoFolder (Sim.memHost Sim.noShell []) "**/*.ts" None (initial 0))
     = Returned {| text := "Error globbing: No workspace folder open; cannot determine remote working directory";
                   isError := true |}
  /\ forall e, fst (glob Sim.cfgNoFolder (Sim.memHost Sim.noShell []) "**/*.ts" None (initial 0))
               <> Thrown e.
Proof. repeat split; try reflexivity. intros e; vm_compute; discriminate. Qed.

(** ** Editing *)

(** C4: on a file that holds x, edit_file with old_string x and new_string
    [$$] writes a single [$], not [$$], the new text being read as a
    replacement template; and on a file that holds aaa, where aa occurs at
    two places, edit_file with old_string aa reports no ambiguity and writes
    ba. *)
Theorem edit_file_replacement_patterns :
  let run T x y := edit_file Sim.cfg0 (Sim.memHost Sim.noShell [(Sim.aTxt, T)]) Sim.noHooks
                     "a.txt" x y (initial 0) in
  fst (run "x" "x" "$$") = Returned (ok "Successfully edited a.txt")
  /\ history (snd (run "x" "x" "$$")) = [EWriteFile Sim.aTxt "$"; EReadFile Sim.aTxt]
  /\ fst (run "aaa" "aa" "b") = Returned (ok "Successfully edited a.txt")
  /\ history (snd (run "aaa" "aa" "b")) = [EWriteFile Sim.aTxt "ba"; EReadFile Sim.aTxt].
Proof. repeat split; vm_compute; reflexivity. Qed.

(** where edit_file is literal: the two error answers leave the file alone,
    and a replacement text without [$] is written as it is *)

Lemma getSubstitution_literal (matched before after y : string) :
  JS.includes y "$" = false -> JS.getSubstitution matched before after y = y.
Proof.
  induction y as [|c y IH]; [reflexivity |].
  intros H. cbn [JS.includes JS.startsWith] in H. cbn [JS.getSubstitution].
  rewrite (Ascii.eqb_sym c "$").
  destruct (Ascii.eqb "$" c); [discriminate |].
  now rewrite IH.
Qed.

Section EditOnRemoteText.

Variable cfg : Config.
Variable host : Host.
Variable hooks : Hooks.
Variables P remotePath T x y : string.
Variable st : State.

Let uri := "vscode-remote://ssh-remote+" ++ getSshHost cfg ++ remotePath.

Hypothesis Hpath : toRemotePath cfg P = Returned remotePath.
Hypothesis Hoverride : editOverride st = None.
Hypothesis Hcache : writeCache st !! remotePath = None.
Hypothesis Hread : fs_readFile host (history st) uri = Resolved T.

Ltac edit_reads_remote :=
  unfold edit_file, tryTool, try_catch, edit_file_body, bind, lift, sync, ret, callReview,
    readFile, writeFile, notifyUpdated, cacheWrite;
  rewrite (getRemoteUri_of_toRemotePath cfg P remotePath Hpath), Hpath;
  fold uri; unfold consumeEditOverride; rewrite Hoverride; cbv beta iota;
  unfold getCachedWrite; rewrite Hcache; cbv beta iota;
  rewrite Hread; simpl settle; cbv beta iota.

Lemma edit_file_not_found :
  JS.includes T x = false ->
  edit_file cfg host hooks P x y st
  = (Returned (err ("Error: old_string not found in " ++ P)),
     suspend host (EReadFile uri) 0 st).
Proof. intros H. edit_reads_remote. now rewrite H. Qed.

Lemma edit_file_ambiguous :
  JS.includes T x = true ->
  1 < Z.of_nat (List.length (JS.split T x)) - 1 ->
  edit_file cfg host hooks P x y st
  = (Returned (err ("Error: old_string found "
                    ++ JS.ofNumber (Z.of_nat (List.length (JS.split T x)) - 1)
                    ++ " times in " ++ P ++ ". Provide more context to make it unique.")),
     suspend host (EReadFile uri) 0 st).
Proof.
  intros H Hn. edit_reads_remote. rewrite H. simpl negb. cbv iota.
  destruct (Z.gtb_spec (Z.of_nat (List.length (JS.split T x)) - 1) 1); [reflexivity | lia].
Qed.

Lemma edit_file_unique_literal (before after : string) :
  JS.find_first T x = Some (before, after) ->
  JS.includes T x = true ->
  Z.of_nat (List.length (JS.split T x)) - 1 <= 1 ->
  JS.includes y "$" = false ->
  reviewEdit hooks = None ->
  fs_writeFile host (history (suspend host (EReadFile uri) 0 st)) uri (before ++ y ++ after)
  = Resolved tt ->
  exists st',
    edit_file cfg host hooks P x y st = (Returned (ok ("Successfully edited " ++ P)), st')
    /\ writesOf (take 1 (drop (if onFileUpdated hooks then 1 else 0)%nat (history st')))
       = [(uri, before ++ y ++ after)].
Proof.
  intros Hfind Hinc Hcount Hy Hgate Hwrite.
  edit_reads_remote. rewrite Hinc. simpl negb. cbv iota.
  destruct (Z.gtb_spec (Z.of_nat (List.length (JS.split T x)) - 1) 1); [lia |].
  unfold JS.replace. rewrite Hfind, (getSubstitution_literal _ _ _ _ Hy), Hgate.
  unfold ret. cbv beta iota zeta delta [negb].
  rewrite Hwrite. simpl settle. cbv beta iota.
  destruct (onFileUpdated hooks); eexists; split; reflexivity.
Qed.

End EditOnRemoteText.

(** ** Write cache *)

Lemma getCachedWrite_frame (p : string) (st : State) :
  clock (snd (getCachedWrite p st)) = clock st
  /\ history (snd (getCachedWrite p st)) = history st
  /\ editOverride (snd (getCachedWrite p st)) = editOverride st.
Proof.
  unfold getCachedWrite. destruct (writeCache st !! p) as [entry|]; [| auto].
  destruct (_ >? _); auto.
Qed.

(** a fresh entry is served from the cache as long as it is no older than
    the time to live *)
Lemma getCachedWrite_fresh (p content : string) (st : State) :
  writeCache st !! p = Some {| ce_content := content; ce_timestamp := clock st |} ->
  forall d, 0 <= d <= WRITE_CACHE_TTL ->
  getCachedWrite p (elapse d st) = (Some content, elapse d st).
Proof.
  intros H d Hd. unfold getCachedWrite. simpl. rewrite H. simpl.
  destruct (Z.gtb_spec (clock st + d - clock st) WRITE_CACHE_TTL); [lia | reflexivity].
Qed.

Lemma truncateOutput_short (content : string) (maxChars : Z) :
  JS.len content <= maxChars -> truncateOutput content maxChars = content.
Proof.
  intros H. unfold truncateOutput.
  destruct (Z.leb_spec (JS.len content) maxChars); [reflexivity | lia].
Qed.

(** what a write without override and without review gate leaves in the
    cache when it reports success *)
Lemma write_file_caches (cfg : Config) (host : Host) (hooks : Hooks)
    (P C : string) (st st1 : State) (r : ToolResult) :
  reviewEdit hooks = None ->
  editOverride st = None ->
  write_file cfg host hooks P C st = (Returned r, st1) ->
  isError r = false ->
  exists remotePath,
    toRemotePath cfg P = Returned remotePath
    /\ writeCache st1 !! remotePath = Some {| ce_content := C; ce_timestamp := clock st1 |}.
Proof.
  intros Hgate Hov Hw Hok.
  unfold write_file, tryTool, try_catch, write_file_body, bind, lift, sync, callReview in Hw.
  rewrite Hgate in Hw.
  destruct (getRemoteUri cfg P) as [uri|e|] eqn:Huri; [| failed Hw..].
  destruct (toRemotePath cfg P) as [remotePath|e|] eqn:Hpath; [| failed Hw..].
  exists remotePath. split; [reflexivity |].
  unfold consumeEditOverride in Hw. rewrite Hov in Hw.
  destruct (getCachedWrite remotePath st) as [cached sA].
  unfold ret, try_catch, readFile, writeFile, notifyUpdated, cacheWrite in Hw.
  destruct (JS.truthy (default "" cached)).
  - simpl in Hw.
    destruct (settle (fs_writeFile host (history sA) uri C)) as [[]|e|]; [| failed Hw..].
    injection Hw as _ <-.
    destruct (onFileUpdated hooks); simpl; apply lookup_insert_eq.
  - destruct (settle (fs_readFile host (history sA) uri)) as [old|e|]; simpl in Hw;
      try discriminate.
    all: match type of Hw with context [settle ?w] => destruct (settle w) as [[]|e'|] end;
      [| failed Hw..].
    all: injection Hw as _ <-.
    all: destruct (onFileUpdated hooks); simpl; apply lookup_insert_eq.
Qed.

(** C1, as the code has it: after a successful write_file of [C] to [P]
    with no review gate and no pending override, a read_file of [P] without
    offset and limit that follows within the cache's time to live is served
    from the cache, without any remote read, and returns [C] cut down by
    [truncateOutput]; that is [C] itself when [C] has at most 30000
    characters. *)
Theorem read_after_write_from_cache (cfg : Config) (host : Host) (hooks : Hooks)
    (P C : string) (st st1 : State) (r : ToolResult) (d : Z) :
  reviewEdit hooks = None ->
  editOverride st = None ->
  write_file cfg host hooks P C st = (Returned r, st1) ->
  isError r = false ->
  0 <= d <= WRITE_CACHE_TTL ->
  read_file cfg host P None None (elapse d st1)
  = (Returned (ok (truncateOutput C 30000)), elapse d st1)
  /\ (JS.len C <= 30000 ->
      read_file cfg host P None None (elapse d st1) = (Returned (ok C), elapse d st1)).
Proof.
  intros Hgate Hov Hw Hok Hd.
  destruct (write_file_caches cfg host hooks P C st st1 r Hgate Hov Hw Hok)
    as (remotePath & Hpath & Hcache).
  assert (Hread : read_file cfg host P None None (elapse d st1)
                  = (Returned (ok (truncateOutput C 30000)), elapse d st1)).
  { unfold read_file, tryTool, try_catch, read_file_body, bind, lift, sync.
    rewrite Hpath, (getCachedWrite_fresh remotePath C st1 Hcache d Hd). reflexivity. }
  split; [exact Hread |].
  intros Hlen. now rewrite Hread, truncateOutput_short.
Qed.

Lemma read_after_write_from_cache_witness :
  let host := Sim.memHost Sim.noShell [] in
  let st1 := snd (write_file Sim.cfg0 host Sim.noHooks "a.txt" "hello" (initial 0)) in
  read_file Sim.cfg0 host "a.txt" None None (elapse 10000 st1)
  = (Returned (ok (truncateOutput "hello" 30000)), elapse 10000 st1)
  /\ (JS.len "hello" <= 30000 ->
      read_file Sim.cfg0 host "a.txt" None None (elapse 10000 st1)
      = (Returned (ok "hello"), elapse 10000 st1)).
Proof.
  apply (read_after_write_from_cache Sim.cfg0 (Sim.memHost Sim.noShell []) Sim.noHooks
           "a.txt" "hello" (initial 0) _ (ok "Successfully wrote 5 bytes to a.txt") 10000);
    [reflexivity | reflexivity | reflexivity | reflexivity | unfold WRITE_CACHE_TTL; lia].
Defined.

(** C1, as stated, fails: a content of 30001 characters is written with
    success, and the read that follows at once returns 30023 characters, the
    two halves of 15000 around the truncation marker, not the content. *)
Lemma read_after_long_write_is_truncated :
  let host := Sim.memHost Sim.noShell [] in
  let written := write_file Sim.cfg0 host Sim.noHooks "a.txt" longContent (initial 0) in
  let read := read_file Sim.cfg0 host "a.txt" None None (snd written) in
  Sim.resultText (fst written) = "Successfully wrote 30001 bytes to a.txt"
  /\ JS.len (Sim.resultText (fst read)) = 30023
  /\ fst read <> Returned (ok longContent).
Proof.
  cbv zeta. split; [vm_compute; reflexivity |].
  split; [vm_compute; reflexivity |].
  intros H. apply (f_equal (fun o => JS.len (Sim.resultText o))) in H.
  vm_compute in H. discriminate.
Qed.

(** ** Edit override *)

Lemma events_nil (h : list Event) : h = ([] ++ h)%list.
Proof. reflexivity. Qed.

Lemma events_cons (e : Event) (evs h h' : list Event) :
  h' = (evs ++ h)%list -> e :: h' = ((e :: evs) ++ h)%list.
Proof. now intros ->. Qed.

Ltac events_since := repeat first [apply events_nil | eapply events_cons].

Lemma consumeEditOverride_pending (remotePath O : string) (st0 : State) (d : Z) :
  0 <= d < EDIT_OVERRIDE_TTL ->
  let st := elapse d (snd (setEditOverride remotePath O st0)) in
  consumeEditOverride remotePath st = (Some O, set_editOverride None st).
Proof.
  intros Hd. unfold consumeEditOverride. simpl.
  rewrite String.eqb_refl.
  destruct (Z.ltb_spec (clock st0 + d - clock st0) EDIT_OVERRIDE_TTL); [reflexivity | lia].
Qed.

Ltac split_run H :=
  repeat match type of H with
    | context [settle ?w] => destruct w as [?|?]; simpl in H
    | context [match ?e with Err _ => _ | Nullish _ => _ end] => destruct e; simpl in H
    | context [onFileUpdated ?h] => destruct (onFileUpdated h); simpl in H
    | context [JS.truthy ?x] => destruct (JS.truthy x); simpl in H
    end.

(** what the write with a pending override does *)
Lemma write_file_override (cfg : Config) (host : Host) (hooks : Hooks)
    (P remotePath O anything : string) (st0 : State) (d : Z) :
  toRemotePath cfg P = Returned remotePath ->
  0 <= d < EDIT_OVERRIDE_TTL ->
  let uri := "vscode-remote://ssh-remote+" ++ getSshHost cfg ++ remotePath in
  let st := elapse d (snd (setEditOverride remotePath O st0)) in
  forall r1 st1, write_file cfg host hooks P anything st = (Returned r1, st1) ->
  editOverride st1 = None
  /\ (exists evs, history st1 = (evs ++ history st)%list
                  /\ writesOf evs = [(uri, O)] /\ reviewsOf evs = [])
  /\ (r1 = ok ("Successfully wrote " ++ JS.ofNumber (JS.byteLength O) ++ " bytes to " ++ P)
      \/ exists e, r1 = err ("Error writing file: " ++ e)).
Proof.
  intros Hpath Hd uri st r1 st1 Hw.
  unfold write_file, tryTool, try_catch, write_file_body, bind, lift, sync in Hw.
  rewrite (getRemoteUri_of_toRemotePath cfg P remotePath Hpath), Hpath in Hw.
  fold uri in Hw. subst st.
  rewrite (consumeEditOverride_pending remotePath O st0 d Hd) in Hw.
  match type of Hw with context [getCachedWrite ?p ?s] =>
    pose proof (getCachedWrite_frame p s) as (_ & Hh & Ho);
    destruct (getCachedWrite p s) as [cached sA] end.
  simpl in Hh, Ho.
  unfold ret, try_catch, readFile, writeFile, notifyUpdated, cacheWrite in Hw.
  split_run Hw; try discriminate; injection Hw as <- <-; simpl; rewrite ?Hh, ?Ho.
  all: split; [reflexivity |].
  all: split; [eexists; split; [events_since | split; reflexivity] | eauto].
Qed.

(** what the write without a pending override does, when the review gate,
    if there is one, accepts the proposed content as it is *)
Lemma write_file_normal (cfg : Config) (host : Host) (hooks : Hooks)
    (P remotePath C : string) (st : State) :
  toRemotePath cfg P = Returned remotePath ->
  editOverride st = None ->
  (forall gate h old, reviewEdit hooks = Some gate ->
     gate h "write_file" P old C = Resolved {| accepted := true; finalContent := C |}) ->
  let uri := "vscode-remote://ssh-remote+" ++ getSshHost cfg ++ remotePath in
  forall r2 st2, write_file cfg host hooks P C st = (Returned r2, st2) ->
  editOverride st2 = None
  /\ (exists evs, history st2 = (evs ++ history st)%list
                  /\ writesOf evs = [(uri, C)]
                  /\ reviewsOf evs = if given (reviewEdit hooks) then [("write_file", C)] else [])
  /\ (r2 = ok ("Successfully wrote " ++ JS.ofNumber (JS.byteLength C) ++ " bytes to " ++ P)
      \/ exists e, r2 = err ("Error writing file: " ++ e)).
Proof.
  intros Hpath Hov Hgate uri r2 st2 Hw.
  unfold write_file, tryTool, try_catch, write_file_body, bind, lift, sync, callReview in Hw.
  rewrite (getRemoteUri_of_toRemotePath cfg P remotePath Hpath), Hpath in Hw.
  fold uri in Hw.
  unfold consumeEditOverride in Hw. rewrite Hov in Hw.
  match type of Hw with context [getCachedWrite ?p ?s] =>
    pose proof (getCachedWrite_frame p s) as (_ & Hh & Ho);
    destruct (getCachedWrite p s) as [cached sA] end.
  simpl in Hh, Ho. rewrite Hov in Ho.
  unfold ret, try_catch, readFile, writeFile, notifyUpdated, cacheWrite in Hw.
  destruct (reviewEdit hooks) as [gate|] eqn:Hg.
  - specialize (fun h old => Hgate gate h old eq_refl).
    destruct (JS.truthy (default "" cached)); simpl in Hw.
    + rewrite Hgate in Hw. simpl in Hw.
      split_run Hw; try discriminate; injection Hw as <- <-; simpl; rewrite ?Hh, ?Ho.
      all: split; [reflexivity |].
      all: split; [eexists; split; [events_since | split; reflexivity] | eauto].
    + destruct (settle (fs_readFile host (history sA) uri)) as [old|e|]; simpl in Hw;
        try discriminate.
      all: rewrite Hgate in Hw; simpl in Hw.
      all: split_run Hw; try discriminate; injection Hw as <- <-; simpl; rewrite ?Hh, ?Ho.
      all: split; [reflexivity |].
      all: split; [eexists; split; [events_since | split; reflexivity] | eauto].
  - simpl in Hw.
    split_run Hw; try discriminate; injection Hw as <- <-; simpl; rewrite ?Hh, ?Ho.
    all: split; [reflexivity |].
    all: split; [eexists; split; [events_since | split; reflexivity] | eauto].
Qed.

(** ** The sentinel protocol of the command executor *)

(** when the exit sentinel never shows, the protocol ends in a timeout *)
Lemma Polls_never_seen (host : Host) (tmpBase exitUri outUri errUri : string)
    (startTime timeoutMs : Z) (st st' : State) (r : Outcome ExecResult) :
  (forall h, exitSeen host exitUri h = None) ->
  Polls host tmpBase exitUri outUri errUri startTime timeoutMs st r st' ->
  r = Thrown (timedOut timeoutMs).
Proof.
  intros Hnever Hp. induction Hp as [st H | st r st' H Hs Hp IH | st e H s1 s2 s3 s4 Hs].
  - reflexivity.
  - exact IH.
  - subst s1. rewrite Hnever in Hs. discriminate.
Qed.

(** when the sentinels are there from the start and do not change, the
    first poll returns them *)
Lemma Polls_settled (host : Host) (tmpBase exitUri outUri errUri : string)
    (startTime timeoutMs : Z) (answer : string -> Settled string) (ex : string)
    (st st' : State) (r : Outcome ExecResult) :
  (forall h uri, fs_readFile host h uri = answer uri) ->
  answer exitUri = Resolved ex ->
  JS.truthy (JS.trim ex) = true ->
  clock st - startTime < timeoutMs ->
  Polls host tmpBase exitUri outUri errUri startTime timeoutMs st r st' ->
  r = Returned {| stdout := orEmpty (answer outUri); stderr := orEmpty (answer errUri);
                  exitCode := Some (default 1 (JS.parseInt (JS.trim ex))) |}.
Proof.
  intros Hans Hex Htr Hlt Hp.
  assert (Hseen : forall h, exitSeen host exitUri h = Some (JS.trim ex)).
  { intros h. unfold exitSeen. now rewrite Hans, Hex, Htr. }
  destruct Hp as [st H | st r st' H Hs Hp | st e H s1 s2 s3 s4 Hs].
  - lia.
  - rewrite Hseen in Hs. discriminate.
  - subst s1. rewrite Hseen in Hs. injection Hs as <-.
    now rewrite !Hans.
Qed.

Lemma clock_suspend (host : Host) (e : Event) (wait : Z) (st : State) :
  clock (suspend host e wait st) = clock st + Z.max 0 wait + Z.of_N (elapsed host (history st)).
Proof. reflexivity. Qed.

Lemma clock_suspend_ge (host : Host) (e : Event) (wait : Z) (st : State) :
  clock st + wait <= clock (suspend host e wait st).
Proof. rewrite clock_suspend. lia. Qed.

(** one round of the loop, computed *)
Lemma pollOnce_run (cfg : Config) (host : Host) (tmpBase exitUri outUri errUri : string)
    (st : State) :
  getRemoteUri cfg (tmpBase ++ ".out") = Returned outUri ->
  getRemoteUri cfg (tmpBase ++ ".err") = Returned errUri ->
  pollOnce cfg host tmpBase exitUri st
  = match exitSeen host exitUri (history st) with
    | None => (Returned None, suspend host (EReadFile exitUri) 0 st)
    | Some e =>
        let s2 := suspend host (EReadFile exitUri) 0 st in
        let s3 := suspend host (EReadFile outUri) 0 s2 in
        let s4 := suspend host (EReadFile errUri) 0 s3 in
        (Returned (Some {| stdout := orEmpty (fs_readFile host (history s2) outUri);
                           stderr := orEmpty (fs_readFile host (history s3) errUri);
                           exitCode := Some (default 1 (JS.parseInt e)) |}),
         record (ESendText ("rm -f " ++ sentinels tmpBase)) s4)
    end.
Proof.
  intros Hout Herr.
  unfold pollOnce, exitSeen, try_catch, bind, readFile, lift, ret, sendText.
  rewrite Hout, Herr.
  destruct (fs_readFile host (history st) exitUri) as [d|e]; simpl; [| reflexivity].
  destruct (JS.truthy (JS.trim d)); simpl; [| reflexivity].
  destruct (fs_readFile host _ outUri); simpl;
    destruct (fs_readFile host _ errUri); reflexivity.
Qed.

(** the loop, one round unfolded *)
Lemma poll_unfold (cfg : Config) (host : Host) (tmpBase exitUri : string)
    (startTime timeoutMs : Z) (fuel : nat) (st : State) :
  poll cfg host fuel tmpBase exitUri startTime timeoutMs st
  = if clock st - startTime <? timeoutMs then
      match fuel with
      | O => (OutOfFuel, st)
      | S fuel' =>
          match pollOnce cfg host tmpBase exitUri
                  (suspend host (ESleep pollInterval) pollInterval st) with
          | (Returned (Some result), st') => (Returned result, st')
          | (Returned None, st') =>
              poll cfg host fuel' tmpBase exitUri startTime timeoutMs st'
          | (Thrown e, st') => (Thrown e, st')
          | (OutOfFuel, st') => (OutOfFuel, st')
          end
      end
    else (Thrown (timedOut timeoutMs),
          record (ESendText ("kill %1 2>/dev/null; rm -f " ++ sentinels tmpBase)) st).
Proof.
  destruct fuel; simpl; unfold bind, now, sleep, out_of_fuel, sendText, throw, ret;
    destruct (clock st - startTime <? timeoutMs); try reflexivity.
  destruct (pollOnce _ _ _ _ _) as [[[r|]|e|] st']; reflexivity.
Qed.

(** the loop of [remoteExec] follows the protocol, and its fuel lasts *)
Lemma poll_Polls (cfg : Config) (host : Host) (tmpBase exitUri outUri errUri : string)
    (startTime timeoutMs : Z) (fuel : nat) (st : State)
    (r : Outcome ExecResult) (st' : State) :
  getRemoteUri cfg (tmpBase ++ ".out") = Returned outUri ->
  getRemoteUri cfg (tmpBase ++ ".err") = Returned errUri ->
  timeoutMs - (clock st - startTime) < pollInterval * Z.of_nat fuel ->
  poll cfg host fuel tmpBase exitUri startTime timeoutMs st = (r, st') ->
  Polls host tmpBase exitUri outUri errUri startTime timeoutMs st r st'.
Proof.
  intros Hout Herr. revert st.
  induction fuel as [|fuel IH]; intros st Hfuel Hrun; rewrite poll_unfold in Hrun;
    destruct (Z.ltb_spec (clock st - startTime) timeoutMs) as [Hlt|Hge].
  - unfold pollInterval in Hfuel. lia.
  - injection Hrun as <- <-. now apply polls_timed_out.
  - rewrite (pollOnce_run cfg host tmpBase exitUri outUri errUri _ Hout Herr) in Hrun.
    destruct (exitSeen host exitUri _) as [e|] eqn:Hseen.
    + injection Hrun as <- <-.
      exact (polls_completed host tmpBase exitUri outUri errUri startTime timeoutMs st e
               Hlt Hseen).
    + apply polls_not_yet; [assumption | assumption |].
      apply IH; [| exact Hrun].
      pose proof (clock_suspend_ge host (ESleep pollInterval) pollInterval st).
      pose proof (clock_suspend_ge host (EReadFile exitUri) 0
                    (suspend host (ESleep pollInterval) pollInterval st)).
      unfold pollInterval in *. lia.
  - injection Hrun as <- <-. now apply polls_timed_out.
Qed.

Lemma pollBudget_enough (timeoutMs : Z) :
  timeoutMs < pollInterval * Z.of_nat (pollBudget timeoutMs).
Proof.
  unfold pollBudget, pollInterval.
  rewrite Nat2Z.inj_succ.
  destruct (Z.le_gt_cases 0 timeoutMs) as [Hpos|Hneg].
  - rewrite Z2Nat.id by (apply Z.div_pos; lia).
    pose proof (Z.mod_pos_bound timeoutMs 300 ltac:(lia)).
    pose proof (Z.div_mod timeoutMs 300 ltac:(lia)). lia.
  - lia.
Qed.

(** [remoteExec] submits the wrapped command, then polls by the protocol *)
Lemma remoteExec_Polls (cfg : Config) (host : Host) (command cwd : string)
    (timeoutMs : option Z) (st : State) (exitUri outUri errUri : string)
    (r : Outcome ExecResult) (st' : State) :
  getRemoteUri cfg (tmpBaseOf st ++ ".exit") = Returned exitUri ->
  getRemoteUri cfg (tmpBaseOf st ++ ".out") = Returned outUri ->
  getRemoteUri cfg (tmpBaseOf st ++ ".err") = Returned errUri ->
  remoteExec cfg host command cwd timeoutMs st = (r, st') ->
  exists st0 evs,
    history st0 = ESendText (fullCmdOf st command cwd) :: evs
    /\ Polls host (tmpBaseOf st) exitUri outUri errUri (clock st0) (default 120000 timeoutMs)
         st0 r st'.
Proof.
  intros Hexit Hout Herr Hrun.
  unfold remoteExec, bind, now, sync, getRemoteTerminal, sleep, sendText, lift, ret in Hrun.
  fold (tmpBaseOf st) in Hrun. cbv zeta in Hrun. rewrite Hexit in Hrun.
  fold (fullCmdOf st command cwd) in Hrun.
  pose proof (pollBudget_enough (default 120000 timeoutMs)) as Hbudget.
  cbn -[poll pollBudget tmpBaseOf fullCmdOf] in Hrun.
  destruct (remoteTerminal st && negb (terminalDisposed host (history st)));
    cbn -[poll pollBudget tmpBaseOf fullCmdOf] in Hrun;
    [destruct (terminalReady st); cbn -[poll pollBudget tmpBaseOf fullCmdOf] in Hrun |].
  all: match type of Hrun with poll _ _ _ _ _ _ _ ?s0 = _ => exists s0 end.
  all: eexists; split; [reflexivity |].
  all: eapply (poll_Polls cfg host _ exitUri outUri errUri); try eassumption.
  all: cbn -[pollBudget pollInterval Z.mul]; lia.
Qed.

Lemma Polls_settles (host : Host) (tmpBase exitUri outUri errUri : string)
    (startTime timeoutMs : Z) (st st' : State) (r : Outcome ExecResult) :
  Polls host tmpBase exitUri outUri errUri startTime timeoutMs st r st' -> r <> OutOfFuel.
Proof. induction 1; [discriminate | assumption | discriminate]. Qed.

(** ** Every tool body ends *)

Section Settles.

Variable cfg : Config.
Variable host : Host.
Variable hooks : Hooks.

Lemma settles_ret {A} (a : A) : settles (ret a).
Proof. intros st; discriminate. Qed.

Lemma settles_throw {A} (e : string) : settles (@throw A e).
Proof. intros st; discriminate. Qed.

Lemma settles_lift {A} (o : Outcome A) : o <> OutOfFuel -> settles (lift o).
Proof. intros H st; exact H. Qed.

Lemma settles_sync {A} (f : State -> A * State) : settles (sync f).
Proof. intros st. unfold sync. destruct (f st). discriminate. Qed.

Lemma settles_bind {A B} (m : M A) (k : A -> M B) :
  settles m -> (forall a, settles (k a)) -> settles (bind m k).
Proof.
  intros Hm Hk st. unfold bind. specialize (Hm st).
  destruct (m st) as [[a|e|] st']; simpl in *; [apply Hk | discriminate | congruence].
Qed.

Lemma settles_try_catch {A} (m : M A) (h : Exn -> M A) :
  settles m -> (forall e, settles (h e)) -> settles (try_catch m h).
Proof.
  intros Hm Hh st. unfold try_catch. specialize (Hm st).
  destruct (m st) as [[a|e|] st']; simpl in *; [discriminate | apply Hh | congruence].
Qed.

Lemma settle_settles {A} (r : Settled A) : settle r <> OutOfFuel.
Proof. destruct r; discriminate. Qed.

Lemma settles_readFile (uri : string) : settles (readFile host uri).
Proof. intros st. apply settle_settles. Qed.

Lemma settles_writeFile (uri content : string) : settles (writeFile host uri content).
Proof. intros st. apply settle_settles. Qed.

Lemma settles_findFiles (folderUri pattern : string) (n : Z) :
  settles (findFiles host folderUri pattern n).
Proof. intros st. apply settle_settles. Qed.

Lemma settles_notifyUpdated (p old new : string) : settles (notifyUpdated hooks p old new).
Proof. intros st; discriminate. Qed.

Lemma settles_callReview (tool p old new : string) :
  settles (callReview host hooks tool p old new).
Proof.
  intros st. unfold callReview. destruct (reviewEdit hooks) as [gate|]; [| discriminate].
  simpl. destruct (gate _ _ _ _ _); discriminate.
Qed.

Lemma toRemotePath_settles (p : string) : toRemotePath cfg p <> OutOfFuel.
Proof.
  unfold toRemotePath, getRemoteCwd. destruct (workspaceFolders cfg); [discriminate |].
  destruct (JS.startsWith _ _); [discriminate |].
  destruct (NodePath.isAbsolute p); discriminate.
Qed.

Lemma getRemoteUri_settles (p : string) : getRemoteUri cfg p <> OutOfFuel.
Proof.
  unfold getRemoteUri. pose proof (toRemotePath_settles p).
  destruct (toRemotePath cfg p); [discriminate | discriminate | congruence].
Qed.

Lemma orRemoteCwd_settles (p : option string) : orRemoteCwd cfg p <> OutOfFuel.
Proof.
  unfold orRemoteCwd, getRemoteCwd. destruct (strTruthy p); [discriminate |].
  destruct (workspaceFolders cfg); discriminate.
Qed.

Lemma settles_sshExec (host_ command cwd : string) (timeoutMs : option Z) :
  settles (sshExec cfg host host_ command cwd timeoutMs).
Proof.
  intros st. unfold sshExec. cbv zeta.
  destruct (ssh_run host _ _); simpl; [| discriminate].
  destruct (negb _); discriminate.
Qed.

(** the polling loop of [remoteExec] always ends: with the exit code, or
    with the timeout, or with the error of a missing workspace folder *)
Lemma settles_remoteExec (command cwd : string) (timeoutMs : option Z) :
  settles (remoteExec cfg host command cwd timeoutMs).
Proof.
  intros st.
  destruct (workspaceFolders cfg) as [|root others] eqn:Hroot.
  - unfold remoteExec, bind, now, sync, getRemoteTerminal, sleep, sendText, lift, ret.
    cbv zeta. rewrite (getRemoteUri_no_root cfg _ Hroot).
    cbn -[poll pollBudget].
    destruct (remoteTerminal st && negb (terminalDisposed host (history st)));
      cbn -[poll pollBudget]; [destruct (terminalReady st) |]; discriminate.
  - destruct (toRemotePath_root cfg root others (tmpBaseOf st ++ ".exit") Hroot) as [q1 H1].
    destruct (toRemotePath_root cfg root others (tmpBaseOf st ++ ".out") Hroot) as [q2 H2].
    destruct (toRemotePath_root cfg root others (tmpBaseOf st ++ ".err") Hroot) as [q3 H3].
    apply getRemoteUri_of_toRemotePath in H1, H2, H3.
    destruct (remoteExec cfg host command cwd timeoutMs st) as [r st'] eqn:Hrun.
    destruct (remoteExec_Polls cfg host command cwd timeoutMs st _ _ _ r st' H1 H2 H3 Hrun)
      as (st0 & evs & _ & Hp).
    simpl. eapply Polls_settles, Hp.
Qed.

Lemma settles_execRemoteCommand (command cwd : string) (timeoutMs : option Z) :
  settles (execRemoteCommand cfg host command cwd timeoutMs).
Proof.
  unfold execRemoteCommand. cbv zeta. destruct (useSSHExec cfg).
  - destruct (negb _); [apply settles_throw | apply settles_sshExec].
  - apply settles_remoteExec.
Qed.

Ltac settles_step :=
  first
    [ apply settles_ret | apply settles_throw | apply settles_sync
    | apply settles_readFile | apply settles_writeFile | apply settles_findFiles
    | apply settles_notifyUpdated | apply settles_callReview
    | apply settles_execRemoteCommand
    | apply settles_lift;
      first [apply toRemotePath_settles | apply getRemoteUri_settles | apply orRemoteCwd_settles]
    | apply settles_bind; [| intros ?]
    | apply settles_try_catch; [| intros ?]
    | match goal with
      | |- settles (match ?x with _ => _ end) => destruct x
      end ].

Lemma settles_toolBody (c : ToolCall) : settles (toolBody cfg host hooks c).
Proof.
  destruct c; simpl;
    unfold read_file_body, write_file_body, edit_file_body, glob_body, grep_body, bash_body;
    repeat settles_step.
Qed.

End Settles.

(** ** What the polling loop leaves alone *)

Lemma sameModuleState_refl (st : State) : sameModuleState st st.
Proof. repeat split. Qed.

Lemma sameModuleState_trans (a b c : State) :
  sameModuleState a b -> sameModuleState b c -> sameModuleState a c.
Proof.
  intros (H1 & H2 & H3 & H4 & H5) (K1 & K2 & K3 & K4 & K5).
  repeat split; congruence.
Qed.

Lemma pollOnce_frame (cfg : Config) (host : Host) (tmpBase exitUri : string) (st : State) :
  sameModuleState st (snd (pollOnce cfg host tmpBase exitUri st))
  /\ (exists evs, history (snd (pollOnce cfg host tmpBase exitUri st)) = (evs ++ history st)%list
                  /\ forallb isPollEvent evs = true)
  /\ exists found, fst (pollOnce cfg host tmpBase exitUri st) = Returned found.
Proof.
  unfold pollOnce, try_catch, bind, readFile, lift, ret, sendText.
  destruct (fs_readFile host (history st) exitUri) as [d|e]; simpl.
  - destruct (JS.truthy (JS.trim d)); simpl.
    + pose proof (getRemoteUri_settles cfg (tmpBase ++ ".out")) as Hs1.
      pose proof (getRemoteUri_settles cfg (tmpBase ++ ".err")) as Hs2.
      destruct (getRemoteUri cfg (tmpBase ++ ".out")) as [u1|e1|]; [| | congruence]; simpl;
        [destruct (fs_readFile host _ u1); simpl |];
        (destruct (getRemoteUri cfg (tmpBase ++ ".err")) as [u2|e2|]; [| | congruence]; simpl;
         [destruct (fs_readFile host _ u2); simpl |]).
      all: split; [repeat split |];
        (split; [eexists; split; [events_since | reflexivity] | eauto]).
    + split; [repeat split |].
      split; [eexists; split; [events_since | reflexivity] | eauto].
  - split; [repeat split |].
    split; [eexists; split; [events_since | reflexivity] | eauto].
Qed.

Lemma sameModuleState_suspend (host : Host) (e : Event) (wait : Z) (st : State) :
  sameModuleState st (suspend host e wait st).
Proof. repeat split. Qed.

Lemma poll_frame (cfg : Config) (host : Host) (tmpBase exitUri : string)
    (startTime timeoutMs : Z) (fuel : nat) (st : State) :
  sameModuleState st (snd (poll cfg host fuel tmpBase exitUri startTime timeoutMs st))
  /\ exists evs,
       history (snd (poll cfg host fuel tmpBase exitUri startTime timeoutMs st))
       = (evs ++ history st)%list
       /\ forallb isPollEvent evs = true.
Proof.
  revert st. induction fuel as [|fuel IH]; intros st; rewrite poll_unfold;
    destruct (clock st - startTime <? timeoutMs).
  - split; [apply sameModuleState_refl |]. exists []. split; reflexivity.
  - split; [repeat split |]. eexists. split; [simpl; events_since | reflexivity].
  - destruct (pollOnce_frame cfg host tmpBase exitUri
                (suspend host (ESleep pollInterval) pollInterval st))
      as (Hsame & (evs & Hev & Hall) & (found & Hfound)).
    destruct (pollOnce cfg host tmpBase exitUri _) as [o s2]. simpl in *. subst o.
    assert (Hsame2 : sameModuleState st s2).
    { eapply sameModuleState_trans; [apply sameModuleState_suspend | exact Hsame]. }
    assert (Hev2 : history s2 = ((evs ++ [ESleep pollInterval]) ++ history st)%list).
    { rewrite Hev. now rewrite <- app_assoc. }
    assert (Hall2 : forallb isPollEvent (evs ++ [ESleep pollInterval]) = true).
    { rewrite forallb_app, Hall. reflexivity. }
    destruct found as [result|].
    + split; [exact Hsame2 |]. eexists. split; [exact Hev2 | exact Hall2].
    + destruct (IH s2) as (Hsame3 & evs3 & Hev3 & Hall3).
      split; [eapply sameModuleState_trans; eassumption |].
      exists (evs3 ++ evs ++ [ESleep pollInterval])%list. split.
      * rewrite Hev3, Hev2. now rewrite <- !app_assoc.
      * rewrite forallb_app, Hall3. exact Hall2.
  - split; [repeat split |]. eexists. split; [simpl; events_since | reflexivity].
Qed.

(** ** What can be thrown

    The host editor and the child process reject with errors, and the
    module itself throws errors: only the review gate can bring in a value
    without a message. *)

Section Messaged.

Variable cfg : Config.
Variable host : Host.
Variable hooks : Hooks.

Lemma messaged_ret {A} (a : A) : messaged (ret a).
Proof. intros st e; discriminate. Qed.

Lemma messaged_throw {A} (message : string) : messaged (@throw A message).
Proof. intros st e [= <-]. eexists; reflexivity. Qed.

Lemma messaged_lift {A} (o : Outcome A) :
  (forall isNull, o <> Thrown (Nullish isNull)) -> messaged (lift o).
Proof. intros H st [m|b] He; [eauto | now destruct (H b)]. Qed.

Lemma messaged_sync {A} (f : State -> A * State) : messaged (sync f).
Proof. intros st e. unfold sync. destruct (f st). discriminate. Qed.

Lemma messaged_bind {A B} (m : M A) (k : A -> M B) :
  messaged m -> (forall a, messaged (k a)) -> messaged (bind m k).
Proof.
  intros Hm Hk st e. unfold bind. specialize (Hm st).
  destruct (m st) as [[a|e'|] st']; simpl in *; [apply Hk | | discriminate].
  intros [= <-]. now apply Hm.
Qed.

Lemma messaged_try_catch {A} (m : M A) (h : Exn -> M A) :
  (forall e, messaged (h e)) -> messaged (try_catch m h).
Proof.
  intros Hh st e. unfold try_catch.
  destruct (m st) as [[a|e'|] st']; simpl; [discriminate | apply Hh | discriminate].
Qed.

Lemma settle_messaged {A} (r : Settled A) (isNull : bool) : settle r <> Thrown (Nullish isNull).
Proof. destruct r; discriminate. Qed.

Lemma messaged_settled {A} (r : State -> Settled A) (next : State -> State) :
  messaged (fun st => (settle (r st), next st)).
Proof. intros st [m|b] H; [eauto | now destruct (settle_messaged (r st) b)]. Qed.

Lemma messaged_readFile (uri : string) : messaged (readFile host uri).
Proof. apply (messaged_settled (fun st => fs_readFile host (history st) uri)). Qed.

Lemma messaged_writeFile (uri content : string) : messaged (writeFile host uri content).
Proof. apply (messaged_settled (fun st => fs_writeFile host (history st) uri content)). Qed.

Lemma messaged_findFiles (folderUri pattern : string) (n : Z) :
  messaged (findFiles host folderUri pattern n).
Proof.
  apply (messaged_settled (fun st => ws_findFiles host (history st) folderUri pattern n)).
Qed.

Lemma messaged_notifyUpdated (p old new : string) : messaged (notifyUpdated hooks p old new).
Proof. intros st e; discriminate. Qed.

Lemma messaged_callReview (tool p old new : string) :
  (forall gate h isNull,
      reviewEdit hooks = Some gate -> gate h tool p old new <> Rejected (Nullish isNull)) ->
  messaged (callReview host hooks tool p old new).
Proof.
  intros Hgate st e. unfold callReview.
  destruct (reviewEdit hooks) as [gate|]; [| discriminate].
  simpl. specialize (fun h b => Hgate gate h b eq_refl).
  destruct (gate _ _ _ _ _) as [r|[m|b]] eqn:Hg;
    [discriminate | intros [= <-]; eexists; reflexivity |].
  now destruct (Hgate _ _ Hg).
Qed.

Lemma toRemotePath_messaged (p : string) (isNull : bool) :
  toRemotePath cfg p <> Thrown (Nullish isNull).
Proof.
  unfold toRemotePath, getRemoteCwd. destruct (workspaceFolders cfg); [discriminate |].
  destruct (JS.startsWith _ _); [discriminate |].
  destruct (NodePath.isAbsolute p); discriminate.
Qed.

Lemma getRemoteUri_messaged (p : string) (isNull : bool) :
  getRemoteUri cfg p <> Thrown (Nullish isNull).
Proof.
  unfold getRemoteUri. pose proof (toRemotePath_messaged p isNull).
  destruct (toRemotePath cfg p); [discriminate | congruence | discriminate].
Qed.

Lemma orRemoteCwd_messaged (p : option string) (isNull : bool) :
  orRemoteCwd cfg p <> Thrown (Nullish isNull).
Proof.
  unfold orRemoteCwd, getRemoteCwd. destruct (strTruthy p); [discriminate |].
  destruct (workspaceFolders cfg); discriminate.
Qed.

Lemma messaged_sshExec (host_ command cwd : string) (timeoutMs : option Z) :
  messaged (sshExec cfg host host_ command cwd timeoutMs).
Proof.
  intros st e. unfold sshExec. cbv zeta.
  destruct (ssh_run host _ _) as [code o e' d|[] m]; simpl;
    [| intros [= <-]; eexists; reflexivity..].
  destruct (negb _); [intros [= <-]; eexists; reflexivity | discriminate].
Qed.

Lemma messaged_poll (fuel : nat) (tmpBase exitUri : string) (startTime timeoutMs : Z) :
  messaged (poll cfg host fuel tmpBase exitUri startTime timeoutMs).
Proof.
  intros st e. revert st.
  induction fuel as [|fuel IH]; intros st; rewrite poll_unfold;
    destruct (clock st - startTime <? timeoutMs);
    try (simpl; intros [= <-]; eexists; reflexivity); try discriminate.
  destruct (pollOnce_frame cfg host tmpBase exitUri
              (suspend host (ESleep pollInterval) pollInterval st))
    as (_ & _ & (found & Hfound)).
  destruct (pollOnce cfg host tmpBase exitUri _) as [o s2]. simpl in Hfound. subst o.
  destruct found as [result|]; [discriminate | apply IH].
Qed.

Lemma messaged_remoteExec (command cwd : string) (timeoutMs : option Z) :
  messaged (remoteExec cfg host command cwd timeoutMs).
Proof.
  intros st e.
  unfold remoteExec, bind, now, sync, getRemoteTerminal, sleep, sendText, lift, ret.
  cbv zeta. cbn -[poll pollBudget].
  destruct (remoteTerminal st && negb (terminalDisposed host (history st)));
    cbn -[poll pollBudget];
    [destruct (terminalReady st); cbn -[poll pollBudget] |];
    (match goal with |- context [getRemoteUri cfg ?p] =>
       pose proof (getRemoteUri_messaged p) as Hu;
       destruct (getRemoteUri cfg p) as [exitUri|[m|b]|] end; cbn -[poll pollBudget];
     [apply messaged_poll | intros [= <-]; eexists; reflexivity | now destruct (Hu b)
     | discriminate]).
Qed.

Lemma messaged_execRemoteCommand (command cwd : string) (timeoutMs : option Z) :
  messaged (execRemoteCommand cfg host command cwd timeoutMs).
Proof.
  unfold execRemoteCommand. cbv zeta. destruct (useSSHExec cfg).
  - destruct (negb _); [apply messaged_throw | apply messaged_sshExec].
  - apply messaged_remoteExec.
Qed.

Ltac messaged_step :=
  first
    [ apply messaged_ret | apply messaged_throw | apply messaged_sync
    | apply messaged_readFile | apply messaged_writeFile | apply messaged_findFiles
    | apply messaged_notifyUpdated
    | apply messaged_execRemoteCommand
    | apply messaged_lift; intros ?;
      first [apply toRemotePath_messaged | apply getRemoteUri_messaged
            | apply orRemoteCwd_messaged]
    | apply messaged_bind; [| intros ?]
    | apply messaged_try_catch; intros ?
    | match goal with
      | |- messaged (match ?x with _ => _ end) => destruct x
      end ].

(** the tools that ask no review throw nothing but errors *)
Lemma messaged_unreviewed (c : ToolCall) :
  match c with CallWriteFile _ _ | CallEditFile _ _ _ => False | _ => True end ->
  messaged (toolBody cfg host hooks c).
Proof.
  destruct c; simpl; intros H; try contradiction;
    unfold read_file_body, glob_body, grep_body, bash_body;
    repeat messaged_step.
Qed.

(** and so do the two others when the review gate, asked about what they
    are about to write, is not rejected without a reason *)
Lemma messaged_write_file_body (P C : string) :
  (forall gate h old isNull,
      reviewEdit hooks = Some gate ->
      gate h "write_file" P old C <> Rejected (Nullish isNull)) ->
  messaged (write_file_body cfg host hooks P C).
Proof.
  intros Hgate. unfold write_file_body.
  repeat first [ apply messaged_callReview; intros gate h b; apply Hgate | messaged_step ].
Qed.



End Messaged.

Lemma messaged_not_nullish {A} (m : M A) (st : State) (isNull : bool) :
  messaged m -> fst (m st) <> Thrown (Nullish isNull).
Proof. intros Hm H. destruct (Hm st _ H) as [message Hmsg]. discriminate. Qed.

(** a tool's [try] with its [catch] returns a result whenever its body ends *)
Lemma tryTool_returns (prefix : string) (body : M ToolResult) (st : State) :
  fst (body st) <> OutOfFuel ->
  (forall isNull, fst (body st) <> Thrown (Nullish isNull)) ->
  exists r st',
    tryTool prefix body st = (Returned r, st')
    /\ (forall e : string,
          fst (body st) = Thrown e -> r = {| text := prefix ++ e; isError := true |})
    /\ (forall r0, fst (body st) = Returned r0 -> r = r0).
Proof.
  intros Hs Hn. unfold tryTool, try_catch.
  destruct (body st) as [[r0|[e|b]|] st']; simpl in *.
  - exists r0, st'. repeat split; [discriminate | congruence].
  - eexists; eexists. split; [reflexivity |]. split; [| discriminate].
    intros e' [= <-]. reflexivity.
  - now destruct (Hn b).
  - congruence.
Qed.

(** and lets through the [TypeError] of its own handler when the body
    throws [undefined] or [null] *)
Lemma tryTool_throws (prefix : string) (body : M ToolResult) (st : State) (isNull : bool) :
  fst (body st) = Thrown (Nullish isNull) ->
  tryTool prefix body st = (Thrown (noMessage isNull), snd (body st)).
Proof.
  intros H. unfold tryTool, try_catch. destruct (body st) as [o st']. simpl in H. now subst o.
Qed.

Lemma callTool_tryTool (cfg : Config) (host : Host) (hooks : Hooks) (c : ToolCall) :
  callTool cfg host hooks c = tryTool (errorPrefix c) (toolBody cfg host hooks c).
Proof. destruct c; reflexivity. Qed.

(** a call returns a result whenever its body throws neither [undefined]
    nor [null] *)
Lemma callTool_returns (cfg : Config) (host : Host) (hooks : Hooks) (c : ToolCall)
    (st : State) :
  (forall isNull, fst (toolBody cfg host hooks c st) <> Thrown (Nullish isNull)) ->
  exists r st',
    callTool cfg host hooks c st = (Returned r, st')
    /\ (forall e : string,
          fst (toolBody cfg host hooks c st) = Thrown e ->
          r = {| text := errorPrefix c ++ e; isError := true |})
    /\ (forall r0, fst (toolBody cfg host hooks c st) = Returned r0 -> r = r0).
Proof.
  intros H. rewrite callTool_tryTool. apply tryTool_returns; [apply settles_toolBody | exact H].
Qed.

Lemma write_file_returns (cfg : Config) (host : Host) (hooks : Hooks)
    (P C : string) (st : State) :
  (forall isNull, fst (write_file_body cfg host hooks P C st) <> Thrown (Nullish isNull)) ->
  exists r st', write_file cfg host hooks P C st = (Returned r, st').
Proof.
  intros H.
  destruct (callTool_returns cfg host hooks (CallWriteFile P C) st H) as (r & st' & Hr & _).
  exists r, st'. exact Hr.
Qed.

(** C3, where the code departs from it: the handler of every tool reads
    the message of what was thrown, so a value without properties,
    [undefined] or [null], thrown in the body makes the handler throw in its
    turn, and the call ends in a [TypeError] where the claim has a result.
    The review gate is a function of the caller whose promise can be
    rejected with such a value: write_file and edit_file then throw, on a
    file that can be read and written. *)
Theorem tool_call_throws_on_nullish_rejection :
  callTool Sim.cfg0 (Sim.memHost Sim.noShell []) Sim.brokenHooks
    (CallWriteFile "a.txt" "hello") (initial 0)
  = (Thrown "Cannot read properties of undefined (reading 'message')",
     suspend (Sim.memHost Sim.noShell []) (EReview "write_file" "a.txt" "" "hello") 0
       (suspend (Sim.memHost Sim.noShell []) (EReadFile Sim.aTxt) 0 (initial 0)))
  /\ fst (callTool Sim.cfg0 (Sim.memHost Sim.noShell [(Sim.aTxt, "hello world")])
            Sim.brokenHooks (CallEditFile "a.txt" "world" "there") (initial 0))
     = Thrown "Cannot read properties of undefined (reading 'message')"
  /\ (forall cfg host hooks c st isNull,
        fst (toolBody cfg host hooks c st) = Thrown (Nullish isNull) ->
        callTool cfg host hooks c st
        = (Thrown (noMessage isNull), snd (toolBody cfg host hooks c st))).
Proof.
  split; [reflexivity |]. split; [reflexivity |].
  intros cfg host hooks c st isNull H. rewrite callTool_tryTool. now apply tryTool_throws.
Qed.

(** ** The command executor and bash *)

(** with a workspace folder and the terminal transport, [bash] is
    [remoteExec] on the quoted command, its result turned into a tool result *)
Lemma bash_via_remoteExec (cfg : Config) (host : Host) (root : string) (others : list string)
    (command : string) (cwd : option string) (timeout : option Z) (st : State) :
  workspaceFolders cfg = root :: others ->
  useSSHExec cfg = false ->
  exists remoteCwd,
    bash cfg host command cwd timeout st
    = match remoteExec cfg host ("bash -c " ++ shellEscape command) remoteCwd
              (Some (bashTimeout timeout)) st with
      | (Returned r, st') => (Returned (ok (truncateOutput (bashOutput r) 30000)), st')
      | (Thrown (Err e), st') => (Returned (err ("Error running bash: " ++ e)), st')
      | (Thrown (Nullish isNull), st') => (Thrown (noMessage isNull), st')
      | (OutOfFuel, st') => (OutOfFuel, st')
      end.
Proof.
  intros Hroot Hssh.
  unfold bash, tryTool, try_catch, bash_body, bind, lift, orRemoteCwd, getRemoteCwd,
    execRemoteCommand.
  rewrite Hroot, Hssh. fold (bashTimeout timeout).
  destruct (strTruthy cwd).
  - destruct (toRemotePath_root cfg root others (default "" cwd) Hroot) as [q Hq].
    rewrite Hq. exists q. simpl default.
    destruct (remoteExec _ _ _ _ _ _) as [[r|[e|b]|] st']; reflexivity.
  - destruct (toRemotePath_root cfg root others root Hroot) as [q Hq].
    rewrite Hq. exists q. simpl default.
    destruct (remoteExec _ _ _ _ _ _) as [[r|[e|b]|] st']; reflexivity.
Qed.

(** the ssh transport: the result of the process when it closes before the
    timer fires, the timeout when it does not, the error when ssh cannot be
    started *)
Lemma sshExec_outcome (cfg : Config) (host : Host) (host_ command cwd : string)
    (timeoutMs : option Z) (st : State) :
  let T := default 120000 timeoutMs in
  1 <= T <= TIMEOUT_MAX ->
  fst (sshExec cfg host host_ command cwd timeoutMs st)
  = match ssh_run host (history st) (buildSshArgs cfg host_ ++ [(cdPart cwd ++ command)%string])%list with
    | SshClose code outChunks errChunks duration =>
        if duration <? T
        then Returned {| stdout := collect outChunks; stderr := collect errChunks;
                         exitCode := code |}
        else Thrown ("SSH command timed out after " ++ JS.ofNumber T ++ "ms")
    | SshError enoent message =>
        Thrown (if enoent then "SSH client not found." else message)
    end.
Proof.
  intros T HT. unfold sshExec. cbv zeta. fold T.
  assert (Hdelay : timerDelay T = T).
  { unfold timerDelay. destruct (Z.leb_spec 1 T); [| lia].
    destruct (Z.leb_spec T TIMEOUT_MAX); [reflexivity | lia]. }
  rewrite Hdelay.
  destruct (ssh_run host _ _) as [code o e d|enoent m]; [| reflexivity].
  simpl. destruct (d <? T); reflexivity.
Qed.

(** with a workspace folder and the ssh transport, [bash] is [sshExec] on the
    quoted command *)
Lemma bash_via_sshExec (cfg : Config) (host : Host) (root : string) (others : list string)
    (command : string) (cwd : option string) (timeout : option Z) (st : State) :
  workspaceFolders cfg = root :: others ->
  useSSHExec cfg = true ->
  getSshHost cfg <> "" ->
  exists remoteCwd,
    toRemotePath cfg (if strTruthy cwd then default "" cwd else root) = Returned remoteCwd
    /\ bash cfg host command cwd timeout st
    = match sshExec cfg host (getSshHost cfg) ("bash -c " ++ shellEscape command) remoteCwd
              (Some (bashTimeout timeout)) st with
      | (Returned r, st') => (Returned (ok (truncateOutput (bashOutput r) 30000)), st')
      | (Thrown (Err e), st') => (Returned (err ("Error running bash: " ++ e)), st')
      | (Thrown (Nullish isNull), st') => (Thrown (noMessage isNull), st')
      | (OutOfFuel, st') => (OutOfFuel, st')
      end.
Proof.
  intros Hroot Hssh Hhost.
  unfold bash, tryTool, try_catch, bash_body, bind, lift, orRemoteCwd, getRemoteCwd,
    execRemoteCommand.
  rewrite Hroot, Hssh. fold (bashTimeout timeout).
  assert (Ht : JS.truthy (getSshHost cfg) = true)
    by (destruct (getSshHost cfg); [congruence | reflexivity]).
  rewrite Ht. cbv beta iota delta [negb].
  destruct (strTruthy cwd).
  - destruct (toRemotePath_root cfg root others (default "" cwd) Hroot) as [q Hq].
    rewrite Hq. exists q. split; [reflexivity |]. simpl default.
    destruct (sshExec _ _ _ _ _ _ _) as [[r|[e|b]|] st']; reflexivity.
  - destruct (toRemotePath_root cfg root others root Hroot) as [q Hq].
    rewrite Hq. exists q. split; [reflexivity |]. simpl default.
    destruct (sshExec _ _ _ _ _ _ _) as [[r|[e|b]|] st']; reflexivity.
Qed.

(** the loop by its schedule: the first test of the deadline at which the
    budget is over, or at whose poll the sentinel is seen, decides *)
Lemma Polls_schedule (host : Host) (tmpBase exitUri outUri errUri : string)
    (startTime timeoutMs : Z) (st st' : State) (r : Outcome ExecResult) :
  Polls host tmpBase exitUri outUri errUri startTime timeoutMs st r st' ->
  exists n,
    (forall k, (k < n)%nat ->
       clock (pollAt host exitUri k st) - startTime < timeoutMs
       /\ exitSeen host exitUri (history (waited host (pollAt host exitUri k st))) = None)
    /\ ((timeoutMs <= clock (pollAt host exitUri n st) - startTime
         /\ r = Thrown (timedOut timeoutMs))
        \/ (clock (pollAt host exitUri n st) - startTime < timeoutMs
            /\ exists e,
                 exitSeen host exitUri (history (waited host (pollAt host exitUri n st)))
                 = Some e
                 /\ r = Returned
                          {| stdout :=
                               orEmpty (fs_readFile host
                                          (history (polled host exitUri
                                                      (pollAt host exitUri n st))) outUri);
                             stderr :=
                               orEmpty (fs_readFile host
                                          (history (suspend host (EReadFile outUri) 0
                                                      (polled host exitUri
                                                         (pollAt host exitUri n st))))
                                          errUri);
                             exitCode := Some (default 1 (JS.parseInt e)) |})).
Proof.
  induction 1 as [st H | st r st' H Hs Hp IH | st e H s1 s2 s3 s4 Hs].
  - exists 0%nat. split; [intros k Hk; lia |]. left. split; [exact H | reflexivity].
  - destruct IH as (n & Hbefore & Hat). exists (S n). split; [| exact Hat].
    intros [|k] Hk; [split; assumption |]. apply Hbefore. lia.
  - exists 0%nat. split; [intros k Hk; lia |]. right. split; [exact H |].
    exists e. split; [exact Hs | reflexivity].
Qed.

(** C5, as the code has it: with a workspace folder open, [remoteExec]
    with timeout [T] (120000 when none is given) submits the wrapped
    command and then tests the deadline before each wait of 300 ms only:
    the first test at which [T] ms or more have gone by ends it with the
    timeout error, and the first poll that sees a non-blank exit sentinel,
    the test before it having found less than [T] ms gone by, ends it with
    the exit code read there (1 when it is not a number) and the contents
    of the two output sentinels, an unreadable one counting as empty; the
    sentinel is so taken up to a polling interval after the deadline.  So
    when no exit sentinel ever shows, it fails with the timeout and bash
    answers an error result; and when the three sentinels are there from
    the first poll on, with [T] positive, it returns them and bash answers
    their output.  Over ssh, with [T] between 1 and 2147483647, the command
    fails with its timeout exactly when the process has not closed before
    [T] ms, and bash answers accordingly. *)
Theorem remoteExec_times_out_or_returns (cfg : Config) (host : Host)
    (root : string) (others : list string)
    (command cwd : string) (timeoutMs : option Z) (st : State) :
  workspaceFolders cfg = root :: others ->
  let T := default 120000 timeoutMs in
  exists exitUri outUri errUri r st',
    getRemoteUri cfg (tmpBaseOf st ++ ".exit") = Returned exitUri
    /\ getRemoteUri cfg (tmpBaseOf st ++ ".out") = Returned outUri
    /\ getRemoteUri cfg (tmpBaseOf st ++ ".err") = Returned errUri
    /\ remoteExec cfg host command cwd timeoutMs st = (r, st')
    /\ (exists st0 evs n,
          history st0 = ESendText (fullCmdOf st command cwd) :: evs
          /\ (forall k, (k < n)%nat ->
                clock (pollAt host exitUri k st0) - clock st0 < T
                /\ exitSeen host exitUri (history (waited host (pollAt host exitUri k st0)))
                   = None)
          /\ ((T <= clock (pollAt host exitUri n st0) - clock st0
               /\ r = Thrown (timedOut T))
              \/ (clock (pollAt host exitUri n st0) - clock st0 < T
                  /\ exists e,
                       exitSeen host exitUri
                         (history (waited host (pollAt host exitUri n st0))) = Some e
                       /\ r = Returned
                                {| stdout :=
                                     orEmpty (fs_readFile host
                                                (history (polled host exitUri
                                                            (pollAt host exitUri n st0)))
                                                outUri);
                                   stderr :=
                                     orEmpty (fs_readFile host
                                                (history
                                                   (suspend host (EReadFile outUri) 0
                                                      (polled host exitUri
                                                         (pollAt host exitUri n st0))))
                                                errUri);
                                   exitCode := Some (default 1 (JS.parseInt e)) |})))
    /\ ((forall h, exitSeen host exitUri h = None) -> r = Thrown (timedOut T))
    /\ (forall answer ex,
          (forall h uri, fs_readFile host h uri = answer uri) ->
          answer exitUri = Resolved ex -> JS.truthy (JS.trim ex) = true -> 0 < T ->
          r = Returned {| stdout := orEmpty (answer outUri); stderr := orEmpty (answer errUri);
                          exitCode := Some (default 1 (JS.parseInt (JS.trim ex))) |})
    /\ (useSSHExec cfg = false ->
        forall (script : string) (dir : option string) (timeout : option Z),
          ((forall h, exitSeen host exitUri h = None) ->
           fst (bash cfg host script dir timeout st)
           = Returned (err ("Error running bash: " ++ timedOut (bashTimeout timeout))))
          /\ (forall answer ex,
                (forall h uri, fs_readFile host h uri = answer uri) ->
                answer exitUri = Resolved ex -> JS.truthy (JS.trim ex) = true ->
                0 < bashTimeout timeout ->
                fst (bash cfg host script dir timeout st)
                = Returned (ok (truncateOutput
                                  (bashOutput
                                     {| stdout := orEmpty (answer outUri);
                                        stderr := orEmpty (answer errUri);
                                        exitCode := Some (default 1 (JS.parseInt (JS.trim ex))) |})
                                  30000))))
    /\ (useSSHExec cfg = true -> getSshHost cfg <> "" ->
        (1 <= T <= TIMEOUT_MAX ->
         fst (execRemoteCommand cfg host command cwd timeoutMs st)
         = match ssh_run host (history st)
                   (buildSshArgs cfg (getSshHost cfg) ++ [(cdPart cwd ++ command)%string])%list
           with
           | SshClose code outChunks errChunks duration =>
               if duration <? T
               then Returned {| stdout := collect outChunks; stderr := collect errChunks;
                                exitCode := code |}
               else Thrown ("SSH command timed out after " ++ JS.ofNumber T ++ "ms")
           | SshError enoent message =>
               Thrown (if enoent then "SSH client not found." else message)
           end)
        /\ forall (script : string) (dir : option string) (timeout : option Z),
             1 <= bashTimeout timeout <= TIMEOUT_MAX ->
             exists remoteCwd,
               toRemotePath cfg (if strTruthy dir then default "" dir else root)
               = Returned remoteCwd
               /\ fst (bash cfg host script dir timeout st)
                  = match ssh_run host (history st)
                            (buildSshArgs cfg (getSshHost cfg)
                             ++ [(cdPart remoteCwd ++ "bash -c " ++ shellEscape script)%string])%list
                    with
                    | SshClose code outChunks errChunks duration =>
                        if duration <? bashTimeout timeout
                        then Returned (ok (truncateOutput
                                             (bashOutput {| stdout := collect outChunks;
                                                            stderr := collect errChunks;
                                                            exitCode := code |})
                                             30000))
                        else Returned (err ("Error running bash: SSH command timed out after "
                                            ++ JS.ofNumber (bashTimeout timeout) ++ "ms"))
                    | SshError enoent message =>
                        Returned (err ("Error running bash: "
                                       ++ (if enoent then "SSH client not found." else message)))
                    end).
Proof.
  intros Hroot T.
  destruct (toRemotePath_root cfg root others (tmpBaseOf st ++ ".exit") Hroot) as [q1 H1].
  destruct (toRemotePath_root cfg root others (tmpBaseOf st ++ ".out") Hroot) as [q2 H2].
  destruct (toRemotePath_root cfg root others (tmpBaseOf st ++ ".err") Hroot) as [q3 H3].
  apply getRemoteUri_of_toRemotePath in H1, H2, H3.
  destruct (remoteExec cfg host command cwd timeoutMs st) as [r st'] eqn:Hrun.
  do 3 eexists. exists r, st'.
  split; [exact H1 |]. split; [exact H2 |]. split; [exact H3 |]. split; [reflexivity |].
  destruct (remoteExec_Polls cfg host command cwd timeoutMs st _ _ _ r st' H1 H2 H3 Hrun)
    as (st0 & evs & Hsent & Hp).
  split.
  { destruct (Polls_schedule _ _ _ _ _ _ _ _ _ _ Hp) as (n & Hbefore & Hat).
    exists st0, evs, n. split; [exact Hsent |]. split; assumption. }
  split; [intros Hnever; eapply Polls_never_seen; eassumption |].
  split.
  { intros answer ex Hans Hex Htr HT.
    eapply Polls_settled; try eassumption. fold T. lia. }
  split.
  { intros Hssh script dir timeout.
    destruct (bash_via_remoteExec cfg host root others script dir timeout st Hroot Hssh)
      as (remoteCwd & Hbash).
    rewrite Hbash.
    destruct (remoteExec cfg host ("bash -c " ++ shellEscape script) remoteCwd
                (Some (bashTimeout timeout)) st) as [rb sb] eqn:Hrunb.
    destruct (remoteExec_Polls cfg host _ remoteCwd _ st _ _ _ rb sb H1 H2 H3 Hrunb)
      as (sb0 & evsb & _ & Hpb).
    simpl default in Hpb.
    split.
    - intros Hnever.
      rewrite (Polls_never_seen _ _ _ _ _ _ _ _ _ _ Hnever Hpb). reflexivity.
    - intros answer ex Hans Hex Htr HT.
      assert (Hlt : clock sb0 - clock sb0 < bashTimeout timeout) by lia.
      rewrite (Polls_settled _ _ _ _ _ _ _ answer ex _ _ _ Hans Hex Htr Hlt Hpb).
      reflexivity. }
  intros Hssh Hhost. split.
  - intros HT. unfold execRemoteCommand. cbv zeta. rewrite Hssh.
    assert (Ht : JS.truthy (getSshHost cfg) = true)
      by (destruct (getSshHost cfg); [congruence | reflexivity]).
    rewrite Ht. cbv beta iota delta [negb].
    apply (sshExec_outcome cfg host (getSshHost cfg) command cwd (Some T) st). exact HT.
  - intros script dir timeout HT.
    destruct (bash_via_sshExec cfg host root others script dir timeout st Hroot Hssh Hhost)
      as (remoteCwd & Hcwd & Hbash).
    exists remoteCwd. split; [exact Hcwd |]. rewrite Hbash.
    pose proof (sshExec_outcome cfg host (getSshHost cfg) ("bash -c " ++ shellEscape script)
                  remoteCwd (Some (bashTimeout timeout)) st HT) as Ho.
    simpl default in Ho.
    destruct (sshExec _ _ _ _ _ _ _) as [o s]. simpl in Ho. subst o.
    destruct (ssh_run host _ _) as [code out e d|[] m]; [| reflexivity..].
    destruct (d <? bashTimeout timeout); reflexivity.
Qed.

Lemma remoteExec_times_out_or_returns_witness :
  fst (bash Sim.cfg0 Sim.deadHost "sleep 10" None (Some 50) (initial 1000))
  = Returned (err "Error running bash: Command timed out after 50ms")
  /\ fst (bash Sim.cfg0 Sim.doneHost "echo done" None (Some 5000) (initial 1000))
     = Returned (ok ("done" ++ JS.nl)).
Proof.
  split.
  - destruct (remoteExec_times_out_or_returns Sim.cfg0 Sim.deadHost "/work" [] "" "" None
                (initial 1000) eq_refl)
      as (exitUri & outUri & errUri & r & st' & _ & _ & _ & _ & _ & _ & _ & Hbash & _).
    apply (Hbash eq_refl "sleep 10" None (Some 50)).
    intros h. reflexivity.
  - destruct (remoteExec_times_out_or_returns Sim.cfg0 Sim.doneHost "/work" [] "" "" None
                (initial 1000) eq_refl)
      as (exitUri & outUri & errUri & r & st' & H1 & H2 & H3 & _ & _ & _ & _ & Hbash & _).
    vm_compute in H1, H2, H3.
    injection H1 as <-. injection H2 as <-. injection H3 as <-.
    apply (proj2 (Hbash eq_refl "echo done" None (Some 5000)) Sim.doneAnswer ("0" ++ JS.nl));
      [reflexivity | reflexivity | reflexivity | reflexivity].
Defined.

(** C5, as stated, fails: with a timeout of 50 ms, on a host where nothing
    can be read before a first wait of 300 ms is over, so that no sentinel
    shows within the timeout, [remoteExec] does not fail with the timeout:
    it returns the output that its first poll finds, 300 ms after its
    start, and bash answers that output. *)
Lemma late_sentinel_is_returned :
  let run := remoteExec Sim.cfg0 Sim.lateHost "sleep 0.2; echo done" "/work" (Some 50)
               (initial 1000) in
  (forall h uri,
      existsb (fun e => match e with ESleep 300 => true | _ => false end) h = false ->
      fs_readFile Sim.lateHost h uri = Rejected ("EntryNotFound (FileSystemError): " ++ uri))
  /\ fst run = Returned {| stdout := "done" ++ JS.nl; stderr := ""; exitCode := Some 0 |}
  /\ fst run <> Thrown (timedOut 50)
  /\ clock (snd run) - (clock (initial 1000) + 500) = 300
  /\ fst (bash Sim.cfg0 Sim.lateHost "sleep 0.2; echo done" None (Some 50) (initial 1000))
     = Returned (ok ("done" ++ JS.nl)).
Proof.
  cbv zeta. split; [intros h uri H; simpl; now rewrite H |].
  split; [vm_compute; reflexivity |].
  split; [vm_compute; discriminate |].
  split; vm_compute; reflexivity.
Qed.


(** ** Search with fallback *)





(** a write that the review gate declines: an error result, and nothing
    written *)
Lemma write_file_rejected (cfg : Config) (host : Host) (hooks : Hooks)
    (gate : list Event -> string -> string -> string -> string -> SettledWith Exn Review)
    (P remotePath C : string) (st : State) :
  toRemotePath cfg P = Returned remotePath ->
  editOverride st = None ->
  reviewEdit hooks = Some gate ->
  (forall h old, exists final,
      gate h "write_file" P old C = Resolved {| accepted := false; finalContent := final |}) ->
  exists st' evs,
    write_file cfg host hooks P C st = (Returned (err ("Write rejected by user for " ++ P)), st')
    /\ history st' = (evs ++ history st)%list
    /\ writesOf evs = [].
Proof.
  intros Hpath Hov Hg Hgate.
  unfold write_file, tryTool, try_catch, write_file_body, bind, lift, sync, callReview.
  rewrite (getRemoteUri_of_toRemotePath cfg P remotePath Hpath), Hpath, Hg.
  unfold consumeEditOverride. rewrite Hov.
  match goal with |- context [getCachedWrite ?p ?s] =>
    pose proof (getCachedWrite_frame p s) as (_ & Hh & _);
    destruct (getCachedWrite p s) as [cached sA] end.
  simpl in Hh.
  unfold ret, try_catch, readFile.
  destruct (JS.truthy (default "" cached)).
  - destruct (Hgate (history sA) (default "" cached)) as [final ->]. simpl.
    eexists; eexists. split; [reflexivity |]. simpl history. rewrite Hh.
    split; [events_since | reflexivity].
  - destruct (settle (fs_readFile host (history sA) _)) as [old|e|] eqn:Hr;
      [| | destruct (fs_readFile host (history sA) _); discriminate];
      cbv beta iota;
      match goal with |- context [gate ?h "write_file" P ?o C] =>
        destruct (Hgate h o) as [final ->] end;
      simpl;
      eexists; eexists; (split; [reflexivity |]); simpl history; rewrite Hh;
      (split; [events_since | reflexivity]).
Qed.

(** ** Override precedence *)

(** with a pending override the write asks no review: it throws nothing but
    the errors of the remote side *)
Lemma write_file_body_override_messaged (cfg : Config) (host : Host) (hooks : Hooks)
    (P remotePath O anything : string) (st0 : State) (d : Z) (isNull : bool) :
  toRemotePath cfg P = Returned remotePath ->
  0 <= d < EDIT_OVERRIDE_TTL ->
  fst (write_file_body cfg host hooks P anything
         (elapse d (snd (setEditOverride remotePath O st0))))
  <> Thrown (Nullish isNull).
Proof.
  intros Hpath Hd.
  unfold write_file_body, bind, lift, sync.
  rewrite (getRemoteUri_of_toRemotePath cfg P remotePath Hpath), Hpath.
  rewrite (consumeEditOverride_pending remotePath O st0 d Hd).
  match goal with |- context [getCachedWrite ?p ?s] =>
    destruct (getCachedWrite p s) as [cached sA] end.
  unfold ret, try_catch, readFile, writeFile, notifyUpdated, cacheWrite.
  repeat match goal with
    | |- context [settle ?w] => destruct w as [?|?]; simpl
    | |- context [JS.truthy ?x] => destruct (JS.truthy x); simpl
    end; discriminate.
Qed.

(** C2: an override [O] set for the remote path of [P] and younger than
    its time to live is what the next write_file to [P] writes, whatever
    content is asked; that write asks no review and empties the override
    slot.  A second write_file to [P], of [C2], then takes the normal path:
    it asks the review gate when there is one, and, the gate accepting [C2]
    as it is, writes [C2]. *)
Theorem override_precedence (cfg : Config) (host : Host) (hooks : Hooks)
    (P remotePath O anything C2 : string) (st0 : State) (d : Z) :
  toRemotePath cfg P = Returned remotePath ->
  0 <= d < EDIT_OVERRIDE_TTL ->
  (forall gate h old, reviewEdit hooks = Some gate ->
     gate h "write_file" P old C2 = Resolved {| accepted := true; finalContent := C2 |}) ->
  let uri := "vscode-remote://ssh-remote+" ++ getSshHost cfg ++ remotePath in
  let st := elapse d (snd (setEditOverride remotePath O st0)) in
  exists r1 st1 r2 st2,
    write_file cfg host hooks P anything st = (Returned r1, st1)
    /\ write_file cfg host hooks P C2 st1 = (Returned r2, st2)
    /\ editOverride st1 = None
    /\ (exists evs, history st1 = (evs ++ history st)%list
                    /\ writesOf evs = [(uri, O)] /\ reviewsOf evs = [])
    /\ (r1 = ok ("Successfully wrote " ++ JS.ofNumber (JS.byteLength O) ++ " bytes to " ++ P)
        \/ exists e, r1 = err ("Error writing file: " ++ e))
    /\ editOverride st2 = None
    /\ (exists evs, history st2 = (evs ++ history st1)%list
                    /\ writesOf evs = [(uri, C2)]
                    /\ reviewsOf evs
                       = if given (reviewEdit hooks) then [("write_file", C2)] else []).
Proof.
  intros Hpath Hd Hgate uri st.
  destruct (write_file_returns cfg host hooks P anything st) as (r1 & st1 & H1).
  { intros b. now apply (write_file_body_override_messaged cfg host hooks P remotePath). }
  destruct (write_file_returns cfg host hooks P C2 st1) as (r2 & st2 & H2).
  { intros b. apply messaged_not_nullish, messaged_write_file_body.
    intros gate h old b' Hg. rewrite (Hgate gate h old Hg). discriminate. }
  exists r1, st1, r2, st2.
  destruct (write_file_override cfg host hooks P remotePath O anything st0 d Hpath Hd
              r1 st1 H1) as (Hov1 & Hev1 & Hr1).
  destruct (write_file_normal cfg host hooks P remotePath C2 st1 Hpath Hov1 Hgate r2 st2 H2)
    as (Hov2 & Hev2 & _).
  repeat split; assumption.
Qed.

Lemma override_precedence_witness :
  let host := Sim.memHost Sim.noShell [] in
  let st := elapse 9999 (snd (setEditOverride "/work/a.txt" "reviewed" (initial 0))) in
  exists r1 st1 r2 st2,
    write_file Sim.cfg0 host Sim.acceptingHooks "a.txt" "proposed" st = (Returned r1, st1)
    /\ write_file Sim.cfg0 host Sim.acceptingHooks "a.txt" "second" st1 = (Returned r2, st2)
    /\ editOverride st1 = None
    /\ (exists evs, history st1 = (evs ++ history st)%list
                    /\ writesOf evs = [(Sim.aTxt, "reviewed")] /\ reviewsOf evs = [])
    /\ (r1 = ok "Successfully wrote 8 bytes to a.txt"
        \/ exists e, r1 = err ("Error writing file: " ++ e))
    /\ editOverride st2 = None
    /\ (exists evs, history st2 = (evs ++ history st1)%list
                    /\ writesOf evs = [(Sim.aTxt, "second")]
                    /\ reviewsOf evs = [("write_file", "second")]).
Proof.
  apply (override_precedence Sim.cfg0 (Sim.memHost Sim.noShell []) Sim.acceptingHooks
           "a.txt" "/work/a.txt" "reviewed" "proposed" "second" (initial 0) 9999).
  - reflexivity.
  - unfold EDIT_OVERRIDE_TTL. lia.
  - intros gate h old [= <-]. reflexivity.
Defined.

(** ** Quoting in the command lines *)

(** the line that [remoteExec] sends first, before any poll *)
Lemma remoteExec_first_line (cfg : Config) (host : Host) (command cwd : string)
    (timeoutMs : option Z) (st : State) :
  exists later pre,
    history (snd (remoteExec cfg host command cwd timeoutMs st))
    = (later ++ ESendText (fullCmdOf st command cwd) :: pre ++ history st)%list
    /\ shellLines pre = [].
Proof.
  unfold remoteExec, bind, now, sync, getRemoteTerminal, sleep, sendText, lift, ret.
  fold (tmpBaseOf st). cbv zeta. fold (fullCmdOf st command cwd).
  cbn -[poll pollBudget tmpBaseOf fullCmdOf].
  destruct (remoteTerminal st && negb (terminalDisposed host (history st)));
    cbn -[poll pollBudget tmpBaseOf fullCmdOf];
    [destruct (terminalReady st); cbn -[poll pollBudget tmpBaseOf fullCmdOf] |];
    (match goal with |- context [getRemoteUri cfg ?p] =>
       destruct (getRemoteUri cfg p) as [exitUri|e|] end;
     cbn -[poll pollBudget tmpBaseOf fullCmdOf];
     [ match goal with |- context [poll cfg host ?f ?a ?u ?b ?c ?s0] =>
         destruct (poll_frame cfg host a u b c f s0) as (_ & evs & Hev & _) end;
       exists evs; rewrite Hev
     | exists [] | exists [] ]);
    first [ exists []; split; reflexivity
          | exists [ESleep 500]; split; reflexivity
          | exists [ESleep 500; ECreateTerminal]; split; reflexivity ].
Qed.

#[local] Opaque shellEscape JS.ofNumber.

Ltac read_words :=
  repeat first
    [ rewrite words_shellEscape
    | rewrite words_ofNumber
    | progress simpl ].

Lemma shellEscape_reads (s : string) : Posix.parse (shellEscape s) = Some [s].
Proof.
  unfold Posix.parse. rewrite <- (append_nil_r (shellEscape s)). read_words; reflexivity.
Qed.

(** how the shell reads the command lines of bash and of the two searches *)
Lemma shell_reads_commands (command pattern : string) (include : option string)
    (context max_results : option Z) :
  Posix.parse ("bash -c " ++ shellEscape command) = Some ["bash"; "-c"; command]
  /\ Posix.parse (rgCommand pattern include context max_results)
     = Some (["rg"; "--color=never"; "--line-number"] ++ strFlag "--glob" include
             ++ numFlag "-C" context ++ numFlag "--max-count" max_results ++ [pattern])%list
  /\ Posix.parse (grepCommand pattern include context max_results)
     = Some (["grep"; "-rn"]
             ++ (if strTruthy include then [("--include=" ++ default "" include)%string] else [])
             ++ numFlag "-C" context ++ numFlag "-m" max_results ++ [pattern; "."])%list.
Proof.
  assert (Hend : forall x, shellEscape x = shellEscape x ++ "")
    by (intros x; now rewrite append_nil_r).
  repeat split.
  - unfold Posix.parse. rewrite (Hend command). read_words; reflexivity.
  - unfold Posix.parse, rgCommand, strFlag, numFlag. rewrite (Hend pattern).
    destruct (strTruthy include), (numTruthy context), (numTruthy max_results);
      rewrite ?append_assoc; read_words; reflexivity.
  - unfold Posix.parse, grepCommand, strFlag, numFlag.
    destruct (strTruthy include), (numTruthy context), (numTruthy max_results);
      rewrite ?append_assoc; read_words; reflexivity.
Qed.

Lemma cdPart_reads (cwd : string) :
  cdPart cwd = (if JS.truthy cwd then ("cd " ++ shellEscape cwd) ++ " && " else "")
  /\ Posix.parse ("cd " ++ shellEscape cwd) = Some ["cd"; cwd].
Proof.
  split.
  - unfold cdPart. destruct (JS.truthy cwd); [| reflexivity]. now rewrite append_assoc.
  - unfold Posix.parse. rewrite <- (append_nil_r (shellEscape cwd)). read_words; reflexivity.
Qed.

#[local] Transparent shellEscape JS.ofNumber.

(** the one thing [sshExec] asks for: ssh, with the command line last *)
Lemma sshExec_line (cfg : Config) (host : Host) (host_ command cwd : string)
    (timeoutMs : option Z) (st : State) :
  history (snd (sshExec cfg host host_ command cwd timeoutMs st))
  = ESpawnSsh (buildSshArgs cfg host_ ++ [(cdPart cwd ++ command)%string])
      (default 120000 timeoutMs) :: history st.
Proof. unfold sshExec. cbv zeta. destruct (ssh_run host _ _); reflexivity. Qed.

(** bash and grep end in the state their runs of the executor end in *)
Lemma bash_runs_executor (cfg : Config) (host : Host) (root : string) (others : list string)
    (command : string) (cwd : option string) (timeout : option Z) (st : State) :
  workspaceFolders cfg = root :: others ->
  exists remoteCwd,
    toRemotePath cfg (if strTruthy cwd then default "" cwd else root) = Returned remoteCwd
    /\ snd (bash cfg host command cwd timeout st)
       = snd (execRemoteCommand cfg host ("bash -c " ++ shellEscape command) remoteCwd
                (Some (bashTimeout timeout)) st).
Proof.
  intros Hroot.
  destruct (toRemotePath_root cfg root others
              (if strTruthy cwd then default "" cwd else root) Hroot) as [q Hq].
  exists q. split; [exact Hq |].
  unfold bash, tryTool, try_catch, bash_body, bind, lift, orRemoteCwd, getRemoteCwd, ret.
  rewrite Hroot. fold (bashTimeout timeout).
  destruct (strTruthy cwd); rewrite Hq;
    destruct (execRemoteCommand _ _ _ _ _ _) as [[r|[e|b]|] s]; reflexivity.
Qed.

Lemma grep_runs_executor (cfg : Config) (host : Host) (root : string) (others : list string)
    (pattern : string) (searchPath include : option string) (context max_results : option Z)
    (st : State) :
  workspaceFolders cfg = root :: others ->
  exists cwd,
    toRemotePath cfg (if strTruthy searchPath then default "" searchPath else root)
    = Returned cwd
    /\ let first := execRemoteCommand cfg host (rgCommand pattern include context max_results)
                      cwd None st in
       let run := grep cfg host pattern searchPath include context max_results st in
       snd run = snd first
       \/ snd run
          = snd (execRemoteCommand cfg host (grepCommand pattern include context max_results)
                   cwd None (snd first)).
Proof.
  intros Hroot.
  destruct (toRemotePath_root cfg root others
              (if strTruthy searchPath then default "" searchPath else root) Hroot) as [q Hq].
  exists q. split; [exact Hq |]. cbv zeta.
  unfold grep, tryTool, try_catch, grep_body, bind, lift, orRemoteCwd, getRemoteCwd, ret.
  rewrite Hroot.
  destruct (strTruthy searchPath); rewrite Hq;
    (destruct (execRemoteCommand cfg host (rgCommand _ _ _ _) q None st)
       as [[r1|[e|b]|] s1]; simpl; [| auto..];
     destruct (toolAbsent r1); [| auto];
     destruct (execRemoteCommand cfg host (grepCommand _ _ _ _) q None s1)
       as [[r2|[e|b]|] s2]; simpl; auto).
Qed.

(** C10: [shellEscape] wraps its argument in single quotes with every
    embedded single quote replaced by quote-backslash-quote-quote, so the
    shell reads the escaped text back as exactly one word equal to the
    argument.  The builders of the code escape what they are given: the
    search commands carry the pattern and the include filter as single
    words; whatever the executor is asked to run, the line it hands to ssh,
    or sends first to the terminal, is the command, after a change of
    directory that carries the working directory as a single word when
    there is one; bash runs the executor on a line that reads as bash, -c
    and the command as one word, in the directory resolved from its cwd; and
    grep runs it on the two search commands. *)
Theorem shellEscape_roundtrip (s pattern : string) (include : option string)
    (context max_results : option Z) :
  shellEscape s = "'" ++ JS.join "'\''" (JS.split s "'") ++ "'"
  /\ Posix.parse (shellEscape s) = Some [s]
  /\ Posix.parse (rgCommand pattern include context max_results)
     = Some (["rg"; "--color=never"; "--line-number"] ++ strFlag "--glob" include
             ++ numFlag "-C" context ++ numFlag "--max-count" max_results ++ [pattern])%list
  /\ Posix.parse (grepCommand pattern include context max_results)
     = Some (["grep"; "-rn"]
             ++ (if strTruthy include then [("--include=" ++ default "" include)%string] else [])
             ++ numFlag "-C" context ++ numFlag "-m" max_results ++ [pattern; "."])%list
  /\ (forall cfg host command cwd timeoutMs st,
        exists cdLine,
          Posix.parse cdLine = Some ["cd"; cwd]
          /\ let line := (if JS.truthy cwd then cdLine ++ " && " else "") ++ command in
             let run := execRemoteCommand cfg host command cwd timeoutMs st in
             (useSSHExec cfg = true -> getSshHost cfg <> "" ->
              history (snd run)
              = ESpawnSsh (buildSshArgs cfg (getSshHost cfg) ++ [line])
                  (default 120000 timeoutMs) :: history st)
             /\ (useSSHExec cfg = false ->
                 exists later pre,
                   history (snd run)
                   = (later
                      ++ ESendText ("(" ++ line ++ ") > " ++ tmpBaseOf st ++ ".out 2> "
                                    ++ tmpBaseOf st ++ ".err; echo $? > " ++ tmpBaseOf st
                                    ++ ".exit")
                      :: pre ++ history st)%list
                   /\ shellLines pre = []))
  /\ (forall cfg host root others command cwd timeout st,
        workspaceFolders cfg = root :: others ->
        exists remoteCwd bashLine,
          toRemotePath cfg (if strTruthy cwd then default "" cwd else root)
          = Returned remoteCwd
          /\ Posix.parse bashLine = Some ["bash"; "-c"; command]
          /\ snd (bash cfg host command cwd timeout st)
             = snd (execRemoteCommand cfg host bashLine remoteCwd
                      (Some (bashTimeout timeout)) st))
  /\ (forall cfg host root others searchPath st,
        workspaceFolders cfg = root :: others ->
        exists cwd,
          toRemotePath cfg (if strTruthy searchPath then default "" searchPath else root)
          = Returned cwd
          /\ let first := execRemoteCommand cfg host
                            (rgCommand pattern include context max_results) cwd None st in
             let run := grep cfg host pattern searchPath include context max_results st in
             snd run = snd first
             \/ snd run
                = snd (execRemoteCommand cfg host
                         (grepCommand pattern include context max_results) cwd None
                         (snd first))).
Proof.
  split; [apply shellEscape_replaces |].
  split; [apply shellEscape_reads |].
  destruct (shell_reads_commands "" pattern include context max_results) as (_ & Hrg & Hgrep).
  split; [exact Hrg |]. split; [exact Hgrep |].
  split; [| split].
  - intros cfg host command cwd timeoutMs st.
    destruct (cdPart_reads cwd) as [Hcd Hparse].
    exists ("cd " ++ shellEscape cwd). split; [exact Hparse |].
    cbv zeta. rewrite <- Hcd. unfold execRemoteCommand. cbv zeta. split.
    + intros Hssh Hhost. rewrite Hssh.
      assert (Ht : JS.truthy (getSshHost cfg) = true)
        by (destruct (getSshHost cfg); [congruence | reflexivity]).
      rewrite Ht. cbv beta iota delta [negb].
      apply (sshExec_line cfg host (getSshHost cfg) command cwd
               (Some (default 120000 timeoutMs)) st).
    + intros Hssh. rewrite Hssh.
      destruct (remoteExec_first_line cfg host command cwd
                  (Some (default 120000 timeoutMs)) st) as (later & pre & Hh & Hpre).
      exists later, pre. split; [| exact Hpre].
      rewrite Hh. unfold fullCmdOf. now rewrite !append_assoc.
  - intros cfg host root others command cwd timeout st Hroot.
    destruct (bash_runs_executor cfg host root others command cwd timeout st Hroot)
      as (remoteCwd & Hcwd & Hrun).
    exists remoteCwd, ("bash -c " ++ shellEscape command).
    split; [exact Hcwd |]. split; [| exact Hrun].
    apply (shell_reads_commands command pattern include context max_results).
  - intros cfg host root others searchPath st Hroot.
    apply (grep_runs_executor cfg host root others pattern searchPath include context
             max_results st Hroot).
Qed.

(** * Further properties of the code *)

(** ** The write cache as a map with a time to live *)

(** X1: an entry written to the cache is served at any later age up to
    10000 ms, the state staying as it is, and at any greater age the lookup
    answers nothing and removes the entry. *)
Theorem cache_entry_lives_ttl (remotePath content : string) (st : State) (d : Z) :
  let written := elapse d (snd (cacheWrite remotePath content st)) in
  fst (getCachedWrite remotePath written)
  = (if d <=? WRITE_CACHE_TTL then Some content else None)
  /\ writeCache (snd (getCachedWrite remotePath written)) !! remotePath
     = (if d <=? WRITE_CACHE_TTL
        then Some {| ce_content := content; ce_timestamp := clock st |}
        else None)
  /\ (d <= WRITE_CACHE_TTL -> snd (getCachedWrite remotePath written) = written).
Proof.
  cbv zeta. unfold getCachedWrite, cacheWrite. simpl.
  rewrite lookup_insert_eq. simpl.
  replace (clock st + d - clock st) with d by lia.
  destruct (Z.gtb_spec d WRITE_CACHE_TTL) as [Hgt|Hle];
    destruct (Z.leb_spec d WRITE_CACHE_TTL) as [Hle'|Hgt']; try lia; simpl.
  - rewrite lookup_delete_eq. repeat split; lia.
  - rewrite lookup_insert_eq. repeat split.
Qed.

(** X2: the cache holds one entry per path, the last one written: a write
    for a path replaces what was cached for it and leaves the entries of all
    other paths as they were. *)
Theorem cache_last_write_wins (p q c1 c2 : string) (st : State) :
  let st2 := snd (cacheWrite q c2 (snd (cacheWrite p c1 st))) in
  fst (getCachedWrite p st2) = Some (if String.eqb p q then c2 else c1)
  /\ forall r, r <> q -> writeCache st2 !! r = writeCache (snd (cacheWrite p c1 st)) !! r.
Proof.
  cbv zeta. unfold getCachedWrite, cacheWrite. simpl. split.
  - destruct (String.eqb_spec p q) as [->|Hne].
    + rewrite lookup_insert_eq. simpl.
      destruct (Z.gtb_spec (clock st - clock st) WRITE_CACHE_TTL); [unfold WRITE_CACHE_TTL in *; lia |].
      reflexivity.
    + rewrite lookup_insert_ne by congruence. rewrite lookup_insert_eq. simpl.
      destruct (Z.gtb_spec (clock st - clock st) WRITE_CACHE_TTL); [unfold WRITE_CACHE_TTL in *; lia |].
      reflexivity.
  - intros r Hr. now rewrite lookup_insert_ne by congruence.
Qed.

(** ** The edit override as a mailbox with one slot *)

(** X3: an override is consumed once: younger than 10000 ms it is handed to
    the first lookup for its path, and every later lookup, for any path and
    at any time, gets nothing. *)
Theorem override_is_consumed_once (remotePath O : string) (st0 : State) (d : Z) :
  d < EDIT_OVERRIDE_TTL ->
  let st := elapse d (snd (setEditOverride remotePath O st0)) in
  fst (consumeEditOverride remotePath st) = Some O
  /\ forall q d', fst (consumeEditOverride q (elapse d' (snd (consumeEditOverride remotePath st))))
                  = None.
Proof.
  intros Hd. cbv zeta. unfold consumeEditOverride at 1 3. simpl.
  rewrite String.eqb_refl.
  destruct (Z.ltb_spec (clock st0 + d - clock st0) EDIT_OVERRIDE_TTL); [| lia].
  simpl. split; [reflexivity |]. intros q d'. reflexivity.
Qed.

Lemma override_is_consumed_once_witness :
  let st := elapse 9999 (snd (setEditOverride "/work/a.txt" "reviewed" (initial 0))) in
  fst (consumeEditOverride "/work/a.txt" st) = Some "reviewed"
  /\ forall q d', fst (consumeEditOverride q (elapse d' (snd (consumeEditOverride "/work/a.txt" st))))
                  = None.
Proof.
  apply (override_is_consumed_once "/work/a.txt" "reviewed" (initial 0) 9999).
  unfold EDIT_OVERRIDE_TTL. lia.
Defined.

(** X4: a lookup for another path leaves a young override in its slot: it
    gets nothing, changes nothing, and a lookup for the override's own path
    that comes while the override is still young gets it. *)
Theorem override_survives_other_path (remotePath other O : string) (st0 : State) (d d' : Z) :
  other <> remotePath ->
  d < EDIT_OVERRIDE_TTL ->
  d + d' < EDIT_OVERRIDE_TTL ->
  let st := elapse d (snd (setEditOverride remotePath O st0)) in
  consumeEditOverride other st = (None, st)
  /\ fst (consumeEditOverride remotePath (elapse d' (snd (consumeEditOverride other st))))
     = Some O.
Proof.
  intros Hne Hd Hd'. cbv zeta.
  assert (Hother : consumeEditOverride other
                     (elapse d (snd (setEditOverride remotePath O st0)))
                   = (None, elapse d (snd (setEditOverride remotePath O st0)))).
  { unfold consumeEditOverride. simpl.
    destruct (String.eqb_spec remotePath other) as [->|_]; [congruence |]. simpl.
    destruct (Z.geb_spec (clock st0 + d - clock st0) EDIT_OVERRIDE_TTL); [lia | reflexivity]. }
  rewrite Hother. split; [reflexivity |].
  unfold consumeEditOverride. simpl. rewrite String.eqb_refl.
  destruct (Z.ltb_spec (clock st0 + d + d' - clock st0) EDIT_OVERRIDE_TTL); [reflexivity | lia].
Qed.

Lemma override_survives_other_path_witness :
  let st := elapse 4000 (snd (setEditOverride "/work/a.txt" "reviewed" (initial 0))) in
  consumeEditOverride "/work/b.txt" st = (None, st)
  /\ fst (consumeEditOverride "/work/a.txt"
            (elapse 5000 (snd (consumeEditOverride "/work/b.txt" st))))
     = Some "reviewed".
Proof.
  apply (override_survives_other_path "/work/a.txt" "/work/b.txt" "reviewed" (initial 0)
           4000 5000); [discriminate | unfold EDIT_OVERRIDE_TTL; lia..].
Defined.

(** X5: an override of 10000 ms or older is dropped by the next lookup,
    whatever path it asks for: the lookup gets nothing and empties the
    slot. *)
Theorem override_expires (remotePath q O : string) (st0 : State) (d : Z) :
  EDIT_OVERRIDE_TTL <= d ->
  let st := elapse d (snd (setEditOverride remotePath O st0)) in
  fst (consumeEditOverride q st) = None
  /\ editOverride (snd (consumeEditOverride q st)) = None.
Proof.
  intros Hd. cbv zeta. unfold consumeEditOverride. simpl.
  destruct (Z.ltb_spec (clock st0 + d - clock st0) EDIT_OVERRIDE_TTL); [lia |].
  rewrite andb_false_r.
  destruct (Z.geb_spec (clock st0 + d - clock st0) EDIT_OVERRIDE_TTL); [| lia].
  split; reflexivity.
Qed.

Lemma override_expires_witness :
  let st := elapse 10000 (snd (setEditOverride "/work/a.txt" "reviewed" (initial 0))) in
  fst (consumeEditOverride "/work/a.txt" st) = None
  /\ editOverride (snd (consumeEditOverride "/work/a.txt" st)) = None.
Proof.
  apply (override_expires "/work/a.txt" "/work/a.txt" "reviewed" (initial 0) 10000).
  unfold EDIT_OVERRIDE_TTL. lia.
Defined.

(** X6: the slot holds the last override only: a second override, set for
    another path before the first was consumed, makes the first one
    unreachable, a lookup for the first path getting nothing, and is itself
    handed to the lookup for the second path. *)
Theorem override_last_set_wins (p1 p2 O1 O2 : string) (st0 : State) (d1 d2 : Z) :
  p1 <> p2 ->
  d2 < EDIT_OVERRIDE_TTL ->
  let st := elapse d2 (snd (setEditOverride p2 O2 (elapse d1 (snd (setEditOverride p1 O1 st0))))) in
  fst (consumeEditOverride p1 st) = None
  /\ fst (consumeEditOverride p2 (snd (consumeEditOverride p1 st))) = Some O2.
Proof.
  intros Hne Hd. cbv zeta. unfold consumeEditOverride. simpl.
  destruct (String.eqb_spec p2 p1) as [->|_]; [congruence |]. simpl.
  destruct (Z.geb_spec (clock st0 + d1 + d2 - (clock st0 + d1)) EDIT_OVERRIDE_TTL); [lia |].
  simpl. rewrite String.eqb_refl.
  destruct (Z.ltb_spec (clock st0 + d1 + d2 - (clock st0 + d1)) EDIT_OVERRIDE_TTL); [| lia].
  split; reflexivity.
Qed.

Lemma override_last_set_wins_witness :
  let st := elapse 10 (snd (setEditOverride "/work/b.txt" "second"
                              (elapse 10 (snd (setEditOverride "/work/a.txt" "first" (initial 0)))))) in
  fst (consumeEditOverride "/work/a.txt" st) = None
  /\ fst (consumeEditOverride "/work/b.txt" (snd (consumeEditOverride "/work/a.txt" st)))
     = Some "second".
Proof.
  apply (override_last_set_wins "/work/a.txt" "/work/b.txt" "first" "second" (initial 0) 10 10);
    [discriminate | unfold EDIT_OVERRIDE_TTL; lia].
Defined.

(** ** Truncation *)

Lemma length_stake (n : nat) (s : string) :
  String.length (JS.stake n s) = Nat.min n (String.length s).
Proof.
  revert n; induction s as [|c s IH]; intros [|n]; simpl; try reflexivity.
  now rewrite IH.
Qed.

Lemma length_sdrop (n : nat) (s : string) :
  String.length (JS.sdrop n s) = (String.length s - n)%nat.
Proof.
  revert n; induction s as [|c s IH]; intros [|n]; simpl; try reflexivity.
  now rewrite IH.
Qed.

Lemma stake_sdrop (n : nat) (s : string) : JS.stake n s ++ JS.sdrop n s = s.
Proof.
  revert n; induction s as [|c s IH]; intros [|n]; simpl; try reflexivity.
  now rewrite IH.
Qed.

(** X7: a text longer than a budget of at least 2 characters is cut to its
    first and its last [maxChars / 2] characters with the marker between
    them: the result has [2 * (maxChars / 2) + 23] characters, at most 23
    more than the budget, and both ends of the text are kept. *)
Theorem truncateOutput_keeps_both_ends (content : string) (maxChars : Z) :
  2 <= maxChars ->
  maxChars < JS.len content ->
  let half := Z.to_nat (maxChars / 2) in
  truncateOutput content maxChars
  = JS.stake half content ++ truncationMarker
    ++ JS.sdrop (String.length content - half) content
  /\ JS.len (truncateOutput content maxChars) = 2 * (maxChars / 2) + 23
  /\ JS.len (truncateOutput content maxChars) <= maxChars + 23.
Proof.
  intros H2 Hlong. cbv zeta.
  assert (Hhalf : 1 <= maxChars / 2) by (apply Z.div_le_lower_bound; lia).
  assert (Hle : 2 * (maxChars / 2) <= maxChars) by (apply Z.mul_div_le; lia).
  unfold JS.len in Hlong.
  assert (Heq : truncateOutput content maxChars
                = JS.stake (Z.to_nat (maxChars / 2)) content ++ truncationMarker
                  ++ JS.sdrop (String.length content - Z.to_nat (maxChars / 2)) content).
  { unfold truncateOutput, JS.slice, JS.clampIndex, JS.len.
    destruct (Z.leb_spec (Z.of_nat (String.length content)) maxChars); [lia |].
    destruct (Z.ltb_spec 0 0); [lia |].
    destruct (Z.ltb_spec (maxChars / 2) 0); [lia |].
    destruct (Z.ltb_spec (- (maxChars / 2)) 0); [| lia].
    rewrite (Z.min_l 0) by lia. rewrite (Z.min_l (maxChars / 2)) by lia.
    rewrite Z.max_l by lia.
    replace (maxChars / 2 - 0) with (maxChars / 2) by lia. simpl JS.sdrop at 1.
    replace (Z.to_nat (Z.of_nat (String.length content) + - (maxChars / 2)))
      with (String.length content - Z.to_nat (maxChars / 2))%nat by lia.
    rewrite (stake_all _ (JS.sdrop _ content)); [reflexivity |].
    rewrite length_sdrop. lia. }
  split; [exact Heq |].
  assert (Hlen : JS.len (truncateOutput content maxChars) = 2 * (maxChars / 2) + 23).
  { rewrite Heq. unfold JS.len.
    rewrite !length_append, length_stake, length_sdrop.
    change (String.length truncationMarker) with 23%nat. lia. }
  split; [exact Hlen | lia].
Qed.

Lemma truncateOutput_keeps_both_ends_witness :
  truncateOutput "abcdefghij" 4
  = JS.stake 2 "abcdefghij" ++ truncationMarker ++ JS.sdrop (10 - 2) "abcdefghij"
  /\ JS.len (truncateOutput "abcdefghij" 4) = 2 * (4 / 2) + 23
  /\ JS.len (truncateOutput "abcdefghij" 4) <= 4 + 23.
Proof.
  apply (truncateOutput_keeps_both_ends "abcdefghij" 4); [lia | vm_compute; reflexivity].
Defined.

(** X8: with a budget of 0 or 1 character nothing is cut: the half is 0,
    the head slice is empty and the tail slice, taken from index -0, is the
    whole text, so a text longer than the budget comes back whole after the
    marker. *)
Theorem truncateOutput_tiny_budget (content : string) (maxChars : Z) :
  0 <= maxChars <= 1 ->
  maxChars < JS.len content ->
  truncateOutput content maxChars = truncationMarker ++ content.
Proof.
  intros Hm Hlong. unfold truncateOutput.
  destruct (Z.leb_spec (JS.len content) maxChars); [lia |].
  assert (Hhalf : maxChars / 2 = 0) by (apply Z.div_small; lia).
  rewrite Hhalf. unfold JS.slice, JS.clampIndex, JS.len.
  change (- 0) with 0. change (0 <? 0) with false. cbv iota.
  assert (Hmin : Z.min 0 (Z.of_nat (String.length content)) = 0) by lia.
  rewrite Hmin. simpl.
  rewrite stake_all by lia. reflexivity.
Qed.

Lemma truncateOutput_tiny_budget_witness :
  truncateOutput "abc" 1 = truncationMarker ++ "abc".
Proof. apply (truncateOutput_tiny_budget "abc" 1); [lia | vm_compute; reflexivity]. Defined.

(** ** Lines *)

Lemma replaceAllChar_same (c : ascii) (s : string) :
  JS.replaceAllChar c (String c "") s = s.
Proof.
  induction s as [|e s IH]; [reflexivity |].
  simpl. destruct (Ascii.eqb_spec e c) as [->|_]; simpl; now rewrite IH.
Qed.

(** X9: splitting a text at a character and joining the pieces with that
    character gives the text back; so read_file with offset 1 and no limit
    returns the lines of the file as they are. *)
Theorem split_join_roundtrip (c : ascii) (content : string) :
  JS.join (String c "") (JS.split content (String c "")) = content
  /\ sliceLines content (Some 1) None = content.
Proof.
  assert (Hrt : forall s, JS.join (String c "") (JS.split s (String c "")) = s).
  { intros s. unfold JS.split. rewrite join_split_char. simpl. apply replaceAllChar_same. }
  split; [apply Hrt |].
  unfold sliceLines, numTruthy, JS.aslice, JS.clampIndex. simpl default.
  change (1 - 1) with 0.
  destruct (Z.ltb_spec 0 0); [lia |].
  destruct (Z.ltb_spec (Z.of_nat (List.length (JS.split content JS.nl))) 0); [lia |].
  rewrite Z.min_l by lia.
  assert (Hmin : Z.min 0 (Z.of_nat (List.length (JS.split content JS.nl))) = 0) by lia.
  rewrite Hmin. change (Z.to_nat 0) with 0%nat. rewrite drop_0, take_ge by lia.
  unfold JS.nl. unfold JS.split, JS.nl in *. rewrite join_split_char. simpl.
  apply replaceAllChar_same.
Qed.

(** X10: inside the documented range, an offset from 1 on, read_file slices
    by line numbers counted from 1: with a limit from 1 on it gives the
    [limit] lines that start at line [offset], without a limit the lines
    from [offset] to the last one, and with a limit alone the first [limit]
    lines. *)
Theorem sliceLines_by_line_numbers (content : string) (offset limit : Z) :
  1 <= offset ->
  1 <= limit ->
  let lines := JS.split content JS.nl in
  sliceLines content (Some offset) (Some limit)
  = JS.join JS.nl (take (Z.to_nat limit) (drop (Z.to_nat (offset - 1)) lines))
  /\ sliceLines content (Some offset) None
     = JS.join JS.nl (drop (Z.to_nat (offset - 1)) lines)
  /\ sliceLines content None (Some limit) = JS.join JS.nl (take (Z.to_nat limit) lines).
Proof.
  intros Ho Hl. cbv zeta.
  split; [now apply sliceLines_in_range |].
  split.
  - unfold sliceLines, numTruthy, JS.aslice, JS.clampIndex. simpl default.
    set (lines := JS.split content JS.nl).
    destruct (Z.ltb_spec (offset - 1) 0); [lia |].
    destruct (Z.ltb_spec (Z.of_nat (List.length lines)) 0); [lia |].
    rewrite (Z.min_l (Z.of_nat (List.length lines))) by lia.
    f_equal.
    destruct (Z.le_gt_cases (Z.of_nat (List.length lines)) (offset - 1)) as [Hge|Hlt].
    + rewrite !drop_ge by lia. now rewrite take_nil.
    + assert (Hmin : Z.min (offset - 1) (Z.of_nat (List.length lines)) = offset - 1) by lia.
      rewrite Hmin. apply take_ge. rewrite length_drop. lia.
  - change (sliceLines content None (Some limit))
      with (sliceLines content (Some 1) (Some limit)).
    rewrite sliceLines_in_range by lia. reflexivity.
Qed.

Lemma sliceLines_by_line_numbers_witness :
  let lines := JS.split Sim.threeLines JS.nl in
  sliceLines Sim.threeLines (Some 2) (Some 1)
  = JS.join JS.nl (take (Z.to_nat 1) (drop (Z.to_nat (2 - 1)) lines))
  /\ sliceLines Sim.threeLines (Some 2) None
     = JS.join JS.nl (drop (Z.to_nat (2 - 1)) lines)
  /\ sliceLines Sim.threeLines None (Some 1) = JS.join JS.nl (take (Z.to_nat 1) lines).
Proof. apply (sliceLines_by_line_numbers Sim.threeLines 2 1); lia. Defined.

(** ** Reads and edits after a write *)

Lemma write_file_leaves_no_override (cfg : Config) (host : Host) (hooks : Hooks)
    (P C : string) (st st1 : State) (r : ToolResult) :
  reviewEdit hooks = None ->
  editOverride st = None ->
  write_file cfg host hooks P C st = (Returned r, st1) ->
  isError r = false ->
  editOverride st1 = None.
Proof.
  intros Hgate Hov Hw Hok.
  destruct (write_file_caches cfg host hooks P C st st1 r Hgate Hov Hw Hok)
    as (remotePath & Hpath & _).
  apply (write_file_normal cfg host hooks P remotePath C st Hpath Hov) in Hw.
  - apply Hw.
  - intros gate h old Hg. congruence.
Qed.

(** X11: once the cached entry of a successful write is older than 10000
    ms, read_file no longer answers from the cache: it removes the entry,
    reads the remote file, and answers with what the remote side gives at
    that moment, or with an error result when that read fails. *)
Theorem read_after_ttl_reads_remote (cfg : Config) (host : Host) (hooks : Hooks)
    (P C : string) (st st1 : State) (r : ToolResult) (d : Z) :
  reviewEdit hooks = None ->
  editOverride st = None ->
  write_file cfg host hooks P C st = (Returned r, st1) ->
  isError r = false ->
  WRITE_CACHE_TTL < d ->
  exists remotePath uri,
    toRemotePath cfg P = Returned remotePath
    /\ getRemoteUri cfg P = Returned uri
    /\ fst (read_file cfg host P None None (elapse d st1))
       = match fs_readFile host (history st1) uri with
         | Resolved content => Returned (ok (truncateOutput content 30000))
         | Rejected e => Returned (err ("Error reading file: " ++ e))
         end
    /\ history (snd (read_file cfg host P None None (elapse d st1)))
       = EReadFile uri :: history st1
    /\ writeCache (snd (read_file cfg host P None None (elapse d st1))) !! remotePath = None.
Proof.
  intros Hgate Hov Hw Hok Hd.
  destruct (write_file_caches cfg host hooks P C st st1 r Hgate Hov Hw Hok)
    as (remotePath & Hpath & Hcache).
  exists remotePath. eexists.
  split; [exact Hpath |].
  split; [apply (getRemoteUri_of_toRemotePath cfg P remotePath Hpath) |].
  unfold read_file, tryTool, try_catch, read_file_body, bind, lift, sync, getCachedWrite.
  rewrite Hpath, (getRemoteUri_of_toRemotePath cfg P remotePath Hpath).
  simpl writeCache. rewrite Hcache. simpl.
  destruct (Z.gtb_spec (clock st1 + d - clock st1) WRITE_CACHE_TTL); [| lia].
  unfold readFile. simpl.
  destruct (fs_readFile host (history st1) _); simpl;
    (split; [reflexivity |]); (split; [reflexivity |]); apply lookup_delete_eq.
Qed.

Lemma read_after_ttl_reads_remote_witness :
  let host := Sim.memHost Sim.noShell [] in
  let st1 := snd (write_file Sim.cfg0 host Sim.noHooks "a.txt" "hello" (initial 0)) in
  exists remotePath uri,
    toRemotePath Sim.cfg0 "a.txt" = Returned remotePath
    /\ getRemoteUri Sim.cfg0 "a.txt" = Returned uri
    /\ fst (read_file Sim.cfg0 host "a.txt" None None (elapse 10001 st1))
       = match fs_readFile host (history st1) uri with
         | Resolved content => Returned (ok (truncateOutput content 30000))
         | Rejected e => Returned (err ("Error reading file: " ++ e))
         end
    /\ history (snd (read_file Sim.cfg0 host "a.txt" None None (elapse 10001 st1)))
       = EReadFile uri :: history st1
    /\ writeCache (snd (read_file Sim.cfg0 host "a.txt" None None (elapse 10001 st1)))
         !! remotePath = None.
Proof.
  apply (read_after_ttl_reads_remote Sim.cfg0 (Sim.memHost Sim.noShell []) Sim.noHooks
           "a.txt" "hello" (initial 0) _ (ok "Successfully wrote 5 bytes to a.txt") 10001);
    [reflexivity | reflexivity | reflexivity | reflexivity | unfold WRITE_CACHE_TTL; lia].
Defined.

(** X12: an edit that follows a successful write within 10000 ms works on
    the written content taken from the cache, whatever the remote file
    holds: when the text to replace is not in that content, it answers the
    not-found error without any remote read and leaves the state as it
    is. *)
Theorem edit_after_write_uses_cache (cfg : Config) (host : Host) (hooks : Hooks)
    (P C x y : string) (st st1 : State) (r : ToolResult) (d : Z) :
  reviewEdit hooks = None ->
  editOverride st = None ->
  write_file cfg host hooks P C st = (Returned r, st1) ->
  isError r = false ->
  0 <= d <= WRITE_CACHE_TTL ->
  JS.includes C x = false ->
  edit_file cfg host hooks P x y (elapse d st1)
  = (Returned (err ("Error: old_string not found in " ++ P)), elapse d st1).
Proof.
  intros Hgate Hov Hw Hok Hd Hinc.
  destruct (write_file_caches cfg host hooks P C st st1 r Hgate Hov Hw Hok)
    as (remotePath & Hpath & Hcache).
  pose proof (write_file_leaves_no_override cfg host hooks P C st st1 r Hgate Hov Hw Hok)
    as Hov1.
  unfold edit_file, tryTool, try_catch, edit_file_body, bind, lift, sync.
  rewrite (getRemoteUri_of_toRemotePath cfg P remotePath Hpath), Hpath.
  unfold consumeEditOverride. simpl editOverride. rewrite Hov1.
  rewrite (getCachedWrite_fresh remotePath C st1 Hcache d Hd).
  unfold ret. rewrite Hinc. reflexivity.
Qed.

Lemma edit_after_write_uses_cache_witness :
  let host := Sim.memHost Sim.noShell [(Sim.aTxt, "needle in the remote file")] in
  let st1 := snd (write_file Sim.cfg0 host Sim.noHooks "a.txt" "hello" (initial 0)) in
  edit_file Sim.cfg0 host Sim.noHooks "a.txt" "needle" "pin" (elapse 5000 st1)
  = (Returned (err ("Error: old_string not found in " ++ "a.txt")), elapse 5000 st1).
Proof.
  apply (edit_after_write_uses_cache Sim.cfg0
           (Sim.memHost Sim.noShell [(Sim.aTxt, "needle in the remote file")]) Sim.noHooks
           "a.txt" "hello" "needle" "pin" (initial 0) _
           (ok "Successfully wrote 5 bytes to a.txt") 5000);
    [reflexivity | reflexivity | reflexivity | reflexivity | unfold WRITE_CACHE_TTL; lia
    | reflexivity].
Defined.

(** ** What a failed write and a read leave behind *)

Lemma getCachedWrite_cache (p q : string) (st : State) :
  writeCache (snd (getCachedWrite p st)) !! q = writeCache st !! q
  \/ writeCache (snd (getCachedWrite p st)) !! q = None.
Proof.
  unfold getCachedWrite. destruct (writeCache st !! p) as [entry|]; [| auto].
  destruct (_ >? _); [| auto]. simpl.
  destruct (String.eqb_spec p q) as [->|Hne].
  - right. apply lookup_delete_eq.
  - left. now apply lookup_delete_ne.
Qed.

Lemma consumeEditOverride_cache (p : string) (st : State) :
  writeCache (snd (consumeEditOverride p st)) = writeCache st.
Proof.
  unfold consumeEditOverride. destruct (editOverride st) as [o|]; [| reflexivity].
  destruct (_ && _); [reflexivity |]. destruct (_ >=? _); reflexivity.
Qed.

(** X13: a write_file that answers an error result has cached nothing: for
    every path the cache holds what it held before the call, or nothing
    (an entry past its age may have been removed), so no read is ever
    served a content that was not written. *)
Theorem failed_write_caches_nothing (cfg : Config) (host : Host) (hooks : Hooks)
    (P C : string) (st st1 : State) (r : ToolResult) :
  write_file cfg host hooks P C st = (Returned r, st1) ->
  isError r = true ->
  forall q, writeCache st1 !! q = writeCache st !! q \/ writeCache st1 !! q = None.
Proof.
  intros Hw Herr q.
  unfold write_file, tryTool, try_catch, write_file_body, bind, lift, sync, callReview, ret
    in Hw.
  destruct (getRemoteUri cfg P) as [uri|e|];
    [| destruct e; [injection Hw as _ <-; auto | discriminate] | discriminate].
  destruct (toRemotePath cfg P) as [remotePath|e|];
    [| destruct e; [injection Hw as _ <-; auto | discriminate] | discriminate].
  pose proof (consumeEditOverride_cache remotePath st) as Hc0.
  destruct (consumeEditOverride remotePath st) as [o sB]. simpl in Hc0.
  cbv beta iota in Hw.
  assert (Hcache : forall cached sA,
             getCachedWrite remotePath sB = (cached, sA) ->
             writeCache sA !! q = writeCache st !! q \/ writeCache sA !! q = None).
  { intros cached sA Hg. pose proof (getCachedWrite_cache remotePath q sB) as Hc1.
    rewrite Hg in Hc1. simpl in Hc1. now rewrite Hc0 in Hc1. }
  unfold ret, try_catch, readFile, writeFile, notifyUpdated, cacheWrite in Hw.
  destruct o as [o|];
    destruct (getCachedWrite remotePath sB) as [cached sA] eqn:Hg;
    specialize (Hcache cached sA eq_refl); cbv beta iota in Hw.
  - split_run Hw; try discriminate; injection Hw as <- <-; simpl in *;
      try discriminate; exact Hcache.
  - destruct (reviewEdit hooks) as [gate|].
    + destruct (JS.truthy (default "" cached)); simpl in Hw.
      * destruct (gate _ _ _ _ _) as [[[] final]|e]; simpl in Hw;
          split_run Hw; try discriminate; injection Hw as <- <-; simpl in *;
          try discriminate; exact Hcache.
      * destruct (fs_readFile host (history sA) uri) as [old|e]; simpl in Hw;
          destruct (gate _ _ _ _ _) as [[[] final]|e']; simpl in Hw;
          split_run Hw; try discriminate; injection Hw as <- <-; simpl in *;
          try discriminate; exact Hcache.
    + simpl in Hw.
      split_run Hw; try discriminate; injection Hw as <- <-; simpl in *;
        try discriminate; exact Hcache.
Qed.

Lemma failed_write_caches_nothing_witness :
  writeCache (snd (write_file Sim.cfgNoFolder (Sim.memHost Sim.noShell []) Sim.noHooks
                     "a.txt" "hello" (initial 0))) !! "/work/a.txt"
  = writeCache (initial 0) !! "/work/a.txt"
  \/ writeCache (snd (write_file Sim.cfgNoFolder (Sim.memHost Sim.noShell []) Sim.noHooks
                        "a.txt" "hello" (initial 0))) !! "/work/a.txt"
     = None.
Proof.
  apply (failed_write_caches_nothing Sim.cfgNoFolder (Sim.memHost Sim.noShell []) Sim.noHooks
           "a.txt" "hello" (initial 0) _
           (err ("Error writing file: " ++ noRootMessage)));
    reflexivity.
Defined.

(** X14: read_file and glob only read: whatever they answer, they ask the
    remote side for at most one thing, a file read or a file search, they
    send nothing to the terminal and write no file, and they leave the
    override slot, the terminal and the command counter as they were. *)
Theorem read_only_tools_only_read (cfg : Config) (host : Host)
    (file_path pattern : string) (offset limit : option Z) (searchPath : option string)
    (st : State) :
  let afterRead := snd (read_file cfg host file_path offset limit st) in
  let afterGlob := snd (glob cfg host pattern searchPath st) in
  (history afterRead = history st
   \/ exists uri, history afterRead = EReadFile uri :: history st)
  /\ editOverride afterRead = editOverride st
  /\ remoteTerminal afterRead = remoteTerminal st
  /\ execCounter afterRead = execCounter st
  /\ (history afterGlob = history st
      \/ exists folderUri, history afterGlob = EFindFiles folderUri pattern 1000 :: history st)
  /\ editOverride afterGlob = editOverride st
  /\ writeCache afterGlob = writeCache st
  /\ remoteTerminal afterGlob = remoteTerminal st
  /\ execCounter afterGlob = execCounter st.
Proof.
  cbv zeta.
  assert (Hread : (history (snd (read_file cfg host file_path offset limit st)) = history st
                   \/ exists uri, history (snd (read_file cfg host file_path offset limit st))
                                  = EReadFile uri :: history st)
                  /\ editOverride (snd (read_file cfg host file_path offset limit st))
                     = editOverride st
                  /\ remoteTerminal (snd (read_file cfg host file_path offset limit st))
                     = remoteTerminal st
                  /\ execCounter (snd (read_file cfg host file_path offset limit st))
                     = execCounter st).
  { unfold read_file, tryTool, try_catch, read_file_body, bind, lift, sync, ret.
    destruct (toRemotePath cfg file_path) as [remotePath|[e|b]|]; simpl; auto.
    unfold getCachedWrite.
    destruct (writeCache st !! remotePath) as [entry|].
    - destruct (_ >? _); simpl.
      + destruct (getRemoteUri cfg file_path) as [uri|[e|b]|]; simpl; auto.
        unfold readFile. destruct (fs_readFile host _ uri); simpl; eauto 10.
      + auto.
    - destruct (getRemoteUri cfg file_path) as [uri|[e|b]|]; simpl; auto.
      unfold readFile. destruct (fs_readFile host _ uri); simpl; eauto 10. }
  destruct Hread as (H1 & H2 & H3 & H4).
  split; [exact H1 |]. split; [exact H2 |]. split; [exact H3 |]. split; [exact H4 |].
  unfold glob, tryTool, try_catch, glob_body, bind, lift, ret.
  destruct (orRemoteCwd cfg searchPath) as [start|[e|b]|]; simpl; auto 10.
  destruct (toRemotePath cfg start) as [base|[e|b]|]; simpl; auto 10.
  destruct (getRemoteUri cfg base) as [folderUri|[e|b]|]; simpl; auto 10.
  unfold findFiles. destruct (ws_findFiles host _ _ _ _); simpl; eauto 15.
Qed.

(** ** The polling loop: what it touches, what it issues, how long it takes *)

(** what [remoteExec] does to the module-level variables *)
Lemma remoteExec_fields (cfg : Config) (host : Host) (command cwd : string)
    (timeoutMs : option Z) (st : State) :
  let st' := snd (remoteExec cfg host command cwd timeoutMs st) in
  writeCache st' = writeCache st
  /\ editOverride st' = editOverride st
  /\ remoteTerminal st' = true
  /\ terminalReady st' = true
  /\ execCounter st' = execCounter st + 1.
Proof.
  cbv zeta.
  unfold remoteExec, bind, now, sync, getRemoteTerminal, sleep, sendText, lift, ret.
  cbv zeta. cbn -[poll pollBudget].
  assert (Hpoll : forall exitUri s0 a b c,
             remoteTerminal s0 = true -> terminalReady s0 = true ->
             writeCache s0 = writeCache st -> editOverride s0 = editOverride st ->
             execCounter s0 = execCounter st + 1 ->
             let st' := snd (poll cfg host (pollBudget (default 120000 timeoutMs)) a exitUri b c s0) in
             writeCache st' = writeCache st /\ editOverride st' = editOverride st
             /\ remoteTerminal st' = true /\ terminalReady st' = true
             /\ execCounter st' = execCounter st + 1).
  { intros exitUri s0 a b c H1 H2 H3 H4 H5. cbv zeta.
    destruct (poll_frame cfg host a exitUri b c (pollBudget (default 120000 timeoutMs)) s0)
      as ((K1 & K2 & K3 & K4 & K5) & _).
    repeat split; congruence. }
  destruct (remoteTerminal st && negb (terminalDisposed host (history st))) eqn:Hterm;
    cbn -[poll pollBudget].
  - apply andb_prop in Hterm as [Hterm _].
    destruct (terminalReady st) eqn:Hready; cbn -[poll pollBudget];
      match goal with |- context [getRemoteUri cfg ?p] =>
        pose proof (getRemoteUri_settles cfg p) as Hs;
        destruct (getRemoteUri cfg p) as [exitUri|e|]; [| | congruence]
      end;
      cbn -[poll pollBudget];
      [apply Hpoll; reflexivity || assumption | repeat split; assumption
      | apply Hpoll; reflexivity || assumption | repeat split; assumption].
  - match goal with |- context [getRemoteUri cfg ?p] =>
      pose proof (getRemoteUri_settles cfg p) as Hs;
      destruct (getRemoteUri cfg p) as [exitUri|e|]; [| | congruence]
    end;
      cbn -[poll pollBudget]; [apply Hpoll; reflexivity | repeat split].
Qed.

Lemma remoteExec_Polls_clock (cfg : Config) (host : Host) (command cwd : string)
    (timeoutMs : option Z) (st : State) (exitUri outUri errUri : string)
    (r : Outcome ExecResult) (st' : State) :
  getRemoteUri cfg (tmpBaseOf st ++ ".exit") = Returned exitUri ->
  getRemoteUri cfg (tmpBaseOf st ++ ".out") = Returned outUri ->
  getRemoteUri cfg (tmpBaseOf st ++ ".err") = Returned errUri ->
  remoteExec cfg host command cwd timeoutMs st = (r, st') ->
  exists st0,
    clock st <= clock st0
    /\ Polls host (tmpBaseOf st) exitUri outUri errUri (clock st0) (default 120000 timeoutMs)
         st0 r st'.
Proof.
  intros Hexit Hout Herr Hrun.
  unfold remoteExec, bind, now, sync, getRemoteTerminal, sleep, sendText, lift, ret in Hrun.
  fold (tmpBaseOf st) in Hrun. cbv zeta in Hrun. rewrite Hexit in Hrun.
  fold (fullCmdOf st command cwd) in Hrun.
  pose proof (pollBudget_enough (default 120000 timeoutMs)) as Hbudget.
  cbn -[poll pollBudget tmpBaseOf fullCmdOf] in Hrun.
  destruct (remoteTerminal st && negb (terminalDisposed host (history st)));
    cbn -[poll pollBudget tmpBaseOf fullCmdOf] in Hrun;
    [destruct (terminalReady st); cbn -[poll pollBudget tmpBaseOf fullCmdOf] in Hrun |].
  all: match type of Hrun with poll _ _ _ _ _ _ _ ?s0 = _ => exists s0 end.
  all: split; [cbn; lia |].
  all: eapply (poll_Polls cfg host _ exitUri outUri errUri); try eassumption.
  all: cbn -[pollBudget pollInterval Z.mul]; lia.
Qed.

Lemma Polls_clock (host : Host) (tmpBase exitUri outUri errUri : string)
    (startTime timeoutMs : Z) (st st' : State) (r : Outcome ExecResult) :
  Polls host tmpBase exitUri outUri errUri startTime timeoutMs st r st' ->
  clock st <= clock st'
  /\ (forall e, r = Thrown e -> e = timedOut timeoutMs /\ timeoutMs <= clock st' - startTime)
  /\ (forall result, r = Returned result -> clock st + pollInterval <= clock st').
Proof.
  induction 1 as [st H | st r st' H Hs Hp IH | st e H s1 s2 s3 s4 Hs].
  - split; [simpl; lia |]. split; [| discriminate].
    intros e [= <-]. split; [reflexivity | simpl; lia].
  - destruct IH as (I1 & I2 & I3).
    pose proof (clock_suspend_ge host (ESleep pollInterval) pollInterval st).
    pose proof (clock_suspend_ge host (EReadFile exitUri) 0
                  (suspend host (ESleep pollInterval) pollInterval st)).
    unfold pollInterval in *.
    split; [lia |]. split; [exact I2 |].
    intros result Hr. specialize (I3 result Hr). lia.
  - pose proof (clock_suspend_ge host (ESleep pollInterval) pollInterval st).
    pose proof (clock_suspend_ge host (EReadFile exitUri) 0 s1).
    pose proof (clock_suspend_ge host (EReadFile outUri) 0 s2).
    pose proof (clock_suspend_ge host (EReadFile errUri) 0 s3).
    assert (Hc : clock (record (ESendText ("rm -f " ++ sentinels tmpBase)) s4) = clock s4)
      by reflexivity.
    rewrite Hc. subst s1 s2 s3 s4. unfold pollInterval in *.
    split; [lia |]. split; [discriminate |]. intros result _. lia.
Qed.

(** X15: with a workspace folder open, [remoteExec] never reports a timeout
    early and never returns a result at once: the only error it throws is
    the timeout, thrown when at least [timeoutMs] ms went by since its
    start, and a result is returned after one polling interval of 300 ms at
    the least. *)
Theorem remoteExec_timing (cfg : Config) (host : Host) (root : string) (others : list string)
    (command cwd : string) (timeoutMs : option Z) (st : State) :
  workspaceFolders cfg = root :: others ->
  let T := default 120000 timeoutMs in
  let run := remoteExec cfg host command cwd timeoutMs st in
  (forall e, fst run = Thrown e -> e = timedOut T /\ T <= clock (snd run) - clock st)
  /\ (forall result, fst run = Returned result -> 300 <= clock (snd run) - clock st).
Proof.
  intros Hroot T run.
  destruct (toRemotePath_root cfg root others (tmpBaseOf st ++ ".exit") Hroot) as [q1 H1].
  destruct (toRemotePath_root cfg root others (tmpBaseOf st ++ ".out") Hroot) as [q2 H2].
  destruct (toRemotePath_root cfg root others (tmpBaseOf st ++ ".err") Hroot) as [q3 H3].
  apply getRemoteUri_of_toRemotePath in H1, H2, H3.
  subst run. destruct (remoteExec cfg host command cwd timeoutMs st) as [r st'] eqn:Hrun.
  destruct (remoteExec_Polls_clock cfg host command cwd timeoutMs st _ _ _ r st' H1 H2 H3 Hrun)
    as (st0 & Hclock & Hp).
  destruct (Polls_clock _ _ _ _ _ _ _ _ _ _ Hp) as (K1 & K2 & K3).
  simpl. split.
  - intros e He. destruct (K2 e He) as [-> Hlate]. split; [reflexivity |]. fold T in Hlate. lia.
  - intros result Hr. specialize (K3 result Hr). unfold pollInterval in K3. lia.
Qed.

Lemma remoteExec_timing_witness :
  let run := remoteExec Sim.cfg0 Sim.deadHost "sleep 10" "/work" (Some 50) (initial 1000) in
  (forall e, fst run = Thrown e -> e = timedOut 50 /\ 50 <= clock (snd run) - clock (initial 1000))
  /\ (forall result, fst run = Returned result -> 300 <= clock (snd run) - clock (initial 1000)).
Proof.
  apply (remoteExec_timing Sim.cfg0 Sim.deadHost "/work" [] "sleep 10" "/work" (Some 50)
           (initial 1000)).
  reflexivity.
Defined.

(** ** Sentinel names *)

Lemma append_inv_head (p x y : string) : p ++ x = p ++ y -> x = y.
Proof. induction p as [|c p IH]; simpl; [auto | intros [= H]; auto]. Qed.

Lemma append_sep_inj (f : ascii -> bool) (sep : ascii) (a b c d : string) :
  f sep = false ->
  allChars f a = true -> allChars f c = true ->
  a ++ String sep b = c ++ String sep d ->
  a = c /\ b = d.
Proof.
  intros Hsep. revert c. induction a as [|x a IH]; intros [|y c] Ha Hc H; simpl in *.
  - injection H as ->. auto.
  - injection H as <- _. apply andb_prop in Hc as [Hy _]. congruence.
  - injection H as -> _. apply andb_prop in Ha as [Hx _]. congruence.
  - injection H as <- H. apply andb_prop in Ha as [_ Ha]. apply andb_prop in Hc as [_ Hc].
    destruct (IH c Ha Hc H) as [-> ->]. auto.
Qed.

Lemma uint_number_chars (d : Decimal.uint) :
  allChars isNumberChar (NilEmpty.string_of_uint d) = true.
Proof. induction d; simpl; auto. Qed.

Lemma ofNumber_number_chars (n : Z) : allChars isNumberChar (JS.ofNumber n) = true.
Proof.
  unfold JS.ofNumber, NilZero.string_of_int, NilZero.string_of_uint.
  destruct (Z.to_int n) as [d|d]; destruct d; simpl; auto using uint_number_chars.
Qed.

Lemma ofNumber_inj (a b : Z) : JS.ofNumber a = JS.ofNumber b -> a = b.
Proof.
  unfold JS.ofNumber. intros H.
  assert (Hnn : forall n, Z.to_int n <> Decimal.Pos Decimal.Nil
                          /\ Z.to_int n <> Decimal.Neg Decimal.Nil).
  { intros [|p|p]; simpl; split; try discriminate;
      intros [= Hp]; now apply Unsigned.to_uint_nonnil in Hp. }
  pose proof (NilZero.isi (Z.to_int a) (proj1 (Hnn a)) (proj2 (Hnn a))) as Ha.
  pose proof (NilZero.isi (Z.to_int b) (proj1 (Hnn b)) (proj2 (Hnn b))) as Hb.
  rewrite H, Hb in Ha. injection Ha as Ha. symmetry. now apply DecimalZ.to_int_inj.
Qed.

(** X16: the sentinel files of a command are named after the clock and the
    command counter, and the name determines both; as every run of
    [remoteExec] adds one to the counter, the command that comes next never
    gets the sentinel names of the one before, even at the same clock. *)
Theorem sentinel_names_are_unique :
  (forall st1 st2, tmpBaseOf st1 = tmpBaseOf st2 ->
                   clock st1 = clock st2 /\ execCounter st1 = execCounter st2)
  /\ (forall cfg host command cwd timeoutMs st d,
        tmpBaseOf (elapse d (snd (remoteExec cfg host command cwd timeoutMs st)))
        <> tmpBaseOf st).
Proof.
  assert (Hinj : forall st1 st2, tmpBaseOf st1 = tmpBaseOf st2 ->
                   clock st1 = clock st2 /\ execCounter st1 = execCounter st2).
  { intros st1 st2 H. unfold tmpBaseOf in H.
    apply append_inv_head in H.
    apply (append_sep_inj isNumberChar "_") in H;
      [| reflexivity | apply ofNumber_number_chars..].
    destruct H as [Hc Hn]. apply ofNumber_inj in Hc, Hn. split; lia. }
  split; [exact Hinj |].
  intros cfg host command cwd timeoutMs st d H.
  apply Hinj in H as [_ H].
  destruct (remoteExec_fields cfg host command cwd timeoutMs st) as (_ & _ & _ & _ & Hn).
  simpl in H. lia.
Qed.

(** ** Commands leave the files' bookkeeping alone *)

Lemma keepsFiles_ret {A} (a : A) : keepsFiles (ret a).
Proof. intros st. split; reflexivity. Qed.

Lemma keepsFiles_throw {A} (e : string) : keepsFiles (@throw A e).
Proof. intros st. split; reflexivity. Qed.

Lemma keepsFiles_lift {A} (o : Outcome A) : keepsFiles (lift o).
Proof. intros st. split; reflexivity. Qed.

Lemma keepsFiles_bind {A B} (m : M A) (k : A -> M B) :
  keepsFiles m -> (forall a, keepsFiles (k a)) -> keepsFiles (bind m k).
Proof.
  intros Hm Hk st. unfold bind. destruct (Hm st) as [H1 H2].
  destruct (m st) as [[a|e|] st']; simpl in *; [| auto..].
  destruct (Hk a st') as [K1 K2]. split; congruence.
Qed.

Lemma keepsFiles_try_catch {A} (m : M A) (h : Exn -> M A) :
  keepsFiles m -> (forall e, keepsFiles (h e)) -> keepsFiles (try_catch m h).
Proof.
  intros Hm Hh st. unfold try_catch. destruct (Hm st) as [H1 H2].
  destruct (m st) as [[a|e|] st']; simpl in *; [auto | | auto].
  destruct (Hh e st') as [K1 K2]. split; congruence.
Qed.

Lemma keepsFiles_execRemoteCommand (cfg : Config) (host : Host) (command cwd : string)
    (timeoutMs : option Z) :
  keepsFiles (execRemoteCommand cfg host command cwd timeoutMs).
Proof.
  unfold execRemoteCommand. cbv zeta. destruct (useSSHExec cfg).
  - destruct (negb _); [apply keepsFiles_throw |].
    intros st. unfold sshExec. cbv zeta.
    destruct (ssh_run host _ _); simpl; split; reflexivity.
  - intros st.
    destruct (remoteExec_fields cfg host command cwd (Some (default 120000 timeoutMs)) st)
      as (H1 & H2 & _).
    split; assumption.
Qed.

(** X17: bash and grep leave the write cache and the override slot as they
    were, on every input, with either transport for commands and whatever
    the command does or fails to do: a command run between a write and a
    read neither hides the written content nor consumes a pending
    override. *)
Theorem commands_keep_cache_and_override (cfg : Config) (host : Host)
    (command pattern : string) (cwd searchPath include : option string)
    (timeout context max_results : option Z) :
  keepsFiles (bash cfg host command cwd timeout)
  /\ keepsFiles (grep cfg host pattern searchPath include context max_results).
Proof.
  split.
  - unfold bash, tryTool, bash_body.
    apply keepsFiles_try_catch;
      [| intros [e|b]; [apply keepsFiles_ret | apply keepsFiles_throw]].
    repeat (apply keepsFiles_bind; [| intros ?]);
      first [apply keepsFiles_lift | apply keepsFiles_execRemoteCommand | apply keepsFiles_ret].
  - unfold grep, tryTool, grep_body.
    apply keepsFiles_try_catch;
      [| intros [e|b]; [apply keepsFiles_ret | apply keepsFiles_throw]].
    repeat (apply keepsFiles_bind; [| intros ?]);
      first [apply keepsFiles_lift | apply keepsFiles_execRemoteCommand
            | apply keepsFiles_ret
            | match goal with |- keepsFiles (if ?b then _ else _) => destruct b end;
              first [apply keepsFiles_execRemoteCommand | apply keepsFiles_ret]].
Qed.

(** ** The hidden terminal is created and warmed up once *)

Lemma remoteExec_events_ready (cfg : Config) (host : Host) (command cwd : string)
    (timeoutMs : option Z) (st : State) :
  remoteTerminal st = true ->
  terminalReady st = true ->
  terminalDisposed host (history st) = false ->
  exists evs,
    history (snd (remoteExec cfg host command cwd timeoutMs st)) = (evs ++ history st)%list
    /\ forallb isPollEvent evs = true.
Proof.
  intros Hterm Hready Hdisp.
  unfold remoteExec, bind, now, sync, getRemoteTerminal, sleep, sendText, lift, ret.
  cbv zeta. cbn -[poll pollBudget].
  rewrite Hterm, Hdisp. cbn -[poll pollBudget]. rewrite Hready. cbn -[poll pollBudget].
  match goal with |- context [getRemoteUri cfg ?p] =>
    destruct (getRemoteUri cfg p) as [exitUri|e|] end; cbn -[poll pollBudget].
  - match goal with |- context [poll cfg host ?f ?a ?u ?b ?c ?s0] =>
      destruct (poll_frame cfg host a u b c f s0) as (_ & evs & Hev & Hall) end.
    eexists. rewrite Hev. split.
    + match goal with |- (evs ++ history (record ?e ?s))%list = _ =>
        change (history (record e s)) with ([e] ++ history st)%list end.
      rewrite app_assoc. reflexivity.
    + rewrite forallb_app, Hall. reflexivity.
  - eexists. split; [events_since | reflexivity].
  - eexists. split; [events_since | reflexivity].
Qed.

(** X18: on a host that does not dispose of the terminal, the terminal is
    created and given its 500 ms to start by the first command only: a
    command that follows another one creates no terminal and does not wait
    for it; all it issues are the command line, the waits of 300 ms, the
    reads of the sentinels and the cleanup line. *)
Theorem terminal_is_warmed_up_once (cfg : Config) (host : Host)
    (command1 cwd1 command2 cwd2 : string) (timeout1 timeout2 : option Z) (st : State) :
  (forall h, terminalDisposed host h = false) ->
  let st1 := snd (remoteExec cfg host command1 cwd1 timeout1 st) in
  let st2 := snd (remoteExec cfg host command2 cwd2 timeout2 st1) in
  exists evs,
    history st2 = (evs ++ history st1)%list
    /\ forallb isPollEvent evs = true
    /\ ~ In ECreateTerminal evs
    /\ ~ In (ESleep 500) evs.
Proof.
  intros Hdisp st1 st2.
  destruct (remoteExec_fields cfg host command1 cwd1 timeout1 st) as (_ & _ & Hterm & Hready & _).
  destruct (remoteExec_events_ready cfg host command2 cwd2 timeout2 st1 Hterm Hready
              (Hdisp _)) as (evs & Hev & Hall).
  exists evs. split; [exact Hev |]. split; [exact Hall |].
  rewrite forallb_forall in Hall.
  split; intros Hin; apply Hall in Hin; discriminate.
Qed.

Lemma terminal_is_warmed_up_once_witness :
  let st1 := snd (remoteExec Sim.cfg0 Sim.doneHost "echo done" "/work" None (initial 1000)) in
  let st2 := snd (remoteExec Sim.cfg0 Sim.doneHost "ls" "/work" (Some 600) st1) in
  exists evs,
    history st2 = (evs ++ history st1)%list
    /\ forallb isPollEvent evs = true
    /\ ~ In ECreateTerminal evs
    /\ ~ In (ESleep 500) evs.
Proof.
  apply (terminal_is_warmed_up_once Sim.cfg0 Sim.doneHost "echo done" "/work" "ls" "/work"
           None (Some 600) (initial 1000)).
  intros h. reflexivity.
Defined.

(** ** The output of a process started over ssh *)

Lemma len_append (a b : string) : JS.len (a ++ b) = JS.len a + JS.len b.
Proof. unfold JS.len. rewrite length_append. lia. Qed.

Lemma len_nonneg (s : string) : 0 <= JS.len s.
Proof. unfold JS.len. lia. Qed.

Lemma len_zero (s : string) : JS.len s = 0 -> s = "".
Proof. destruct s; [reflexivity | unfold JS.len; simpl; lia]. Qed.

Section Collect.

Let step (acc d : string) : string := if JS.len acc <? MAX_BUFFER then acc ++ d else acc.

Lemma collect_full (chunks : list string) (acc : string) :
  MAX_BUFFER <= JS.len acc -> fold_left step chunks acc = acc.
Proof.
  intros H. induction chunks as [|d ds IH]; [reflexivity |].
  simpl. unfold step at 2. destruct (Z.ltb_spec (JS.len acc) MAX_BUFFER); [lia | exact IH].
Qed.

Lemma collect_prefix (chunks : list string) (acc : string) :
  exists k, fold_left step chunks acc = acc ++ joined (take k chunks).
Proof.
  revert acc. induction chunks as [|d ds IH]; intros acc.
  - exists 0%nat. simpl. now rewrite append_nil_r.
  - simpl. unfold step at 2. destruct (Z.ltb_spec (JS.len acc) MAX_BUFFER).
    + destruct (IH (acc ++ d)) as [k Hk]. exists (S k). rewrite Hk. simpl.
      apply append_assoc.
    + exists 0%nat. rewrite collect_full by assumption. simpl. now rewrite append_nil_r.
Qed.

Lemma collect_bounded (chunks : list string) (acc : string) (m : Z) :
  Forall (fun d => JS.len d <= m) chunks ->
  JS.len acc < MAX_BUFFER + m ->
  JS.len (fold_left step chunks acc) < MAX_BUFFER + m.
Proof.
  intros Hall. revert acc. induction Hall as [|d ds Hd Hds IH]; intros acc Hacc; [exact Hacc |].
  simpl. unfold step at 2. destruct (Z.ltb_spec (JS.len acc) MAX_BUFFER).
  - apply IH. rewrite len_append. lia.
  - apply IH. exact Hacc.
Qed.

Lemma collect_lossless (chunks : list string) (acc : string) :
  JS.len acc + JS.len (joined chunks) <= MAX_BUFFER ->
  fold_left step chunks acc = acc ++ joined chunks.
Proof.
  revert acc. induction chunks as [|d ds IH]; intros acc H.
  - simpl. now rewrite append_nil_r.
  - simpl in H. rewrite len_append in H.
    pose proof (len_nonneg d). pose proof (len_nonneg (joined ds)).
    simpl. unfold step at 2. destruct (Z.ltb_spec (JS.len acc) MAX_BUFFER).
    + rewrite IH by (rewrite len_append; lia). apply append_assoc.
    + rewrite IH by lia. assert (Hd : d = "") by (apply len_zero; lia). now rewrite Hd.
Qed.

End Collect.

Lemma longest_bounds (chunks : list string) :
  0 <= longest chunks /\ Forall (fun d => JS.len d <= longest chunks) chunks.
Proof.
  induction chunks as [|d ds [IH0 IH]]; [split; [reflexivity | constructor] |].
  change (longest (d :: ds)) with (Z.max (JS.len d) (longest ds)).
  split; [lia |]. constructor; [lia |].
  eapply Forall_impl; [exact IH |]. simpl. intros x Hx. lia.
Qed.

(** X19: the text collected from the chunks of a stream is made of the
    first chunks put end to end, none cut and none skipped before the
    last one kept; it is shorter than [MAX_BUFFER] plus the longest chunk;
    and a stream of no more than [MAX_BUFFER] characters is collected
    whole. *)
Theorem collect_keeps_whole_chunks (chunks : list string) :
  (exists k, collect chunks = joined (take k chunks))
  /\ JS.len (collect chunks) < MAX_BUFFER + longest chunks
  /\ (JS.len (joined chunks) <= MAX_BUFFER -> collect chunks = joined chunks).
Proof.
  unfold collect. split; [| split].
  - destruct (collect_prefix chunks "") as [k Hk]. exists k. exact Hk.
  - destruct (longest_bounds chunks) as [H0 Hall].
    apply collect_bounded; [exact Hall |]. change (JS.len "") with 0. unfold MAX_BUFFER. lia.
  - intros H. apply (collect_lossless chunks ""). change (JS.len "") with 0. lia.
Qed.

Lemma collect_keeps_whole_chunks_witness :
  collect ["./a.txt:1:"; "needle"; JS.nl] = joined ["./a.txt:1:"; "needle"; JS.nl].
Proof.
  apply (proj2 (proj2 (collect_keeps_whole_chunks ["./a.txt:1:"; "needle"; JS.nl]))).
  vm_compute. discriminate.
Defined.

(** ** What bash answers *)

Lemma append_nonempty_r (a b : string) : b <> "" -> a ++ b <> "".
Proof. destruct a; [auto | discriminate]. Qed.

Lemma truncateOutput_nonempty (content : string) (maxChars : Z) :
  content <> "" -> truncateOutput content maxChars <> "".
Proof.
  intros H. unfold truncateOutput. destruct (_ <=? _); [exact H |].
  apply append_nonempty_r. discriminate.
Qed.

Lemma bashOutput_nonempty (result : ExecResult) : bashOutput result <> "".
Proof.
  unfold bashOutput. destruct (stdout result) as [|c out]; destruct (stderr result) as [|d e];
    simpl; discriminate.
Qed.

Lemma bash_body_answer (cfg : Config) (host : Host) (command : string) (cwd : option string)
    (timeout : option Z) (st : State) (r : ToolResult) :
  fst (bash_body cfg host command cwd timeout st) = Returned r ->
  exists result, r = ok (truncateOutput (bashOutput result) 30000).
Proof.
  unfold bash_body, bind, lift, ret.
  destruct (orRemoteCwd cfg cwd) as [start|e|]; [| discriminate..].
  destruct (toRemotePath cfg start) as [remoteCwd|e|]; [| discriminate..].
  destruct (execRemoteCommand _ _ _ _ _ _) as [[result|e|] st']; simpl; [| discriminate..].
  intros [= <-]. eauto.
Qed.

(** X20: bash always answers with some text.  A command that printed
    nothing is answered with a note that carries its exit code, an output
    cut to size keeps the marker of the cut, and an error carries the
    prefix of the tool. *)
Theorem bash_never_answers_empty (cfg : Config) (host : Host) (hooks : Hooks)
    (command : string) (cwd : option string) (timeout : option Z) (st : State) :
  exists r st',
    callTool cfg host hooks (CallBash command cwd timeout) st = (Returned r, st')
    /\ text r <> ""
    /\ forall result, stdout result = "" -> stderr result = "" ->
         bashOutput result = "(no output, exit code " ++ showExit (exitCode result) ++ ")".
Proof.
  assert (Hmsg : messaged (toolBody cfg host hooks (CallBash command cwd timeout)))
    by (apply messaged_unreviewed; exact I).
  destruct (callTool_returns cfg host hooks (CallBash command cwd timeout) st)
    as (r & st' & H & Hthrown & Hret).
  { intros b. now apply messaged_not_nullish. }
  exists r, st'. split; [exact H |]. split.
  - destruct (fst (toolBody cfg host hooks (CallBash command cwd timeout) st))
      as [r0|e|] eqn:Hbody.
    + rewrite (Hret r0 eq_refl).
      destruct (bash_body_answer cfg host command cwd timeout st r0 Hbody) as [result ->].
      simpl. apply truncateOutput_nonempty, bashOutput_nonempty.
    + destruct (Hmsg st e Hbody) as [message ->].
      rewrite (Hthrown message eq_refl). simpl. discriminate.
    + exfalso. exact (settles_toolBody cfg host hooks (CallBash command cwd timeout) st Hbody).
  - intros result Hout Herr. unfold bashOutput. rewrite Hout, Herr. reflexivity.
Qed.

(** ** What glob lists *)

Lemma insert_sorted_perm (x : string) (l : list string) :
  Permutation (x :: l) (JS.insert_sorted x l).
Proof.
  induction l as [|y l IH]; simpl; [reflexivity |].
  destruct (String.leb x y); [reflexivity |].
  rewrite perm_swap. now apply perm_skip.
Qed.

Lemma insert_sorted_hd (x a : string) (l : list string) :
  codeUnitLe a x -> HdRel codeUnitLe a l -> HdRel codeUnitLe a (JS.insert_sorted x l).
Proof.
  intros Hax Hl. destruct l as [|y l]; simpl; [now constructor |].
  destruct (String.leb x y); constructor; [exact Hax |]. now inversion Hl.
Qed.

Lemma insert_sorted_sorted (x : string) (l : list string) :
  Sorted codeUnitLe l -> Sorted codeUnitLe (JS.insert_sorted x l).
Proof.
  induction 1 as [|y l Hl IH Hhd]; simpl; [repeat constructor |].
  destruct (String.leb x y) eqn:Hxy.
  - constructor; [now constructor | now constructor].
  - constructor; [exact IH |]. apply insert_sorted_hd; [| exact Hhd].
    unfold codeUnitLe. destruct (String.leb_total x y) as [H|H]; congruence.
Qed.

Lemma sort_sorted_perm (l : list string) :
  Permutation l (JS.sort l) /\ Sorted codeUnitLe (JS.sort l).
Proof.
  induction l as [|x l [IHp IHs]]; simpl; [split; constructor |]. split.
  - rewrite <- insert_sorted_perm. now apply perm_skip.
  - now apply insert_sorted_sorted.
Qed.

(** X21: when the file search of the host answers, glob lists exactly the
    paths it found, each as many times as it was found, in the order of
    their code units and one per line, and the note that no file matches
    when it found none. *)
Theorem glob_lists_what_was_found (cfg : Config) (host : Host) (root : string)
    (others : list string) (pattern : string) (searchPath : option string)
    (files : list string) (st : State) :
  workspaceFolders cfg = root :: others ->
  (forall folderUri, ws_findFiles host (history st) folderUri pattern 1000 = Resolved files) ->
  exists paths st',
    glob cfg host pattern searchPath st
    = (Returned (ok (match paths with
                     | [] => "No files found matching pattern."
                     | _ :: _ => JS.join JS.nl paths
                     end)), st')
    /\ Permutation files paths
    /\ Sorted codeUnitLe paths.
Proof.
  intros Hroot Hfind.
  destruct (sort_sorted_perm files) as [Hperm Hsorted].
  exists (JS.sort files).
  unfold glob, tryTool, try_catch, glob_body, bind, lift, ret, findFiles.
  assert (Hstart : exists start, orRemoteCwd cfg searchPath = Returned start).
  { unfold orRemoteCwd, getRemoteCwd. rewrite Hroot. destruct (strTruthy searchPath); eauto. }
  destruct Hstart as [start ->].
  destruct (toRemotePath_root cfg root others start Hroot) as [base Hbase]. rewrite Hbase.
  destruct (toRemotePath_root cfg root others base Hroot) as [q Hq].
  rewrite (getRemoteUri_of_toRemotePath cfg base q Hq).
  rewrite Hfind. simpl. eexists. split; [reflexivity |]. split; assumption.
Qed.

Lemma glob_lists_what_was_found_witness :
  exists paths st',
    glob Sim.cfg0 Sim.listingHost "**/*.txt" None (initial 1000)
    = (Returned (ok (match paths with
                     | [] => "No files found matching pattern."
                     | _ :: _ => JS.join JS.nl paths
                     end)), st')
    /\ Permutation ["/work/b.txt"; "/work/a/c.txt"; "/work/a.txt"] paths
    /\ Sorted codeUnitLe paths.
Proof.
  apply (glob_lists_what_was_found Sim.cfg0 Sim.listingHost "/work" [] "**/*.txt" None
           ["/work/b.txt"; "/work/a/c.txt"; "/work/a.txt"] (initial 1000)).
  - reflexivity.
  - intros folderUri. reflexivity.
Defined.

(** ** Commands over ssh *)

Lemma sshArgs_end (cfg : Config) (host_ fullCmd : string) :
  exists options, (buildSshArgs cfg host_ ++ [fullCmd] = options ++ ["--"; host_; fullCmd])%list.
Proof.
  unfold buildSshArgs.
  set (a := if JS.truthy (sshConfigFile cfg) then _ else _).
  set (b := if JS.truthy (sshIdentityFile cfg) then _ else _).
  set (d := ["-o"; "BatchMode=yes"; "-o"; "ConnectTimeout=10"; "-o"; "StrictHostKeyChecking=no"]).
  exists (a ++ b ++ sshExtraArgs cfg ++ d)%list.
  rewrite <- !app_assoc. reflexivity.
Qed.

(** X22: with the ssh transport a command never touches the hidden
    terminal: it leaves the terminal, its readiness and the command counter
    as they were, and either fails for want of a host name before anything
    is started, or starts ssh exactly once, with the host name and the
    command line, the change of directory in front, as the last two
    arguments after the end-of-options mark. *)
Theorem ssh_transport_spawns_once (cfg : Config) (host : Host) (command cwd : string)
    (timeoutMs : option Z) (st : State) :
  useSSHExec cfg = true ->
  let run := execRemoteCommand cfg host command cwd timeoutMs st in
  sameModuleState st (snd run)
  /\ ((getSshHost cfg = "" /\ run = (Thrown "No SSH host configured", st))
      \/ exists options,
           history (snd run)
           = ESpawnSsh (options ++ ["--"; getSshHost cfg; (cdPart cwd ++ command)%string])
               (default 120000 timeoutMs) :: history st).
Proof.
  intros Hssh. cbv zeta. unfold execRemoteCommand. cbv zeta. rewrite Hssh.
  destruct (JS.truthy (getSshHost cfg)) eqn:Ht; cbv beta iota delta [negb].
  - destruct (sshArgs_end cfg (getSshHost cfg) (cdPart cwd ++ command)) as [options Hopt].
    unfold sshExec. cbv beta zeta. rewrite Hopt. simpl default.
    match goal with |- context [ssh_run host (history st) ?args] =>
      destruct (ssh_run host (history st) args) end; cbn [fst snd];
      (split; [repeat split |]); right; exists options; reflexivity.
  - split; [apply sameModuleState_refl |]. left. split; [| reflexivity].
    destruct (getSshHost cfg); [reflexivity | discriminate].
Qed.

Lemma ssh_transport_spawns_once_witness :
  let run := execRemoteCommand Sim.cfgSsh Sim.grepOnlyHost "ls" "/work" None (initial 1000) in
  sameModuleState (initial 1000) (snd run)
  /\ ((getSshHost Sim.cfgSsh = "" /\ run = (Thrown "No SSH host configured", initial 1000))
      \/ exists options,
           history (snd run)
           = ESpawnSsh (options ++ ["--"; getSshHost Sim.cfgSsh; (cdPart "/work" ++ "ls")%string])
               (default 120000 None) :: history (initial 1000)).
Proof.
  apply (ssh_transport_spawns_once Sim.cfgSsh Sim.grepOnlyHost "ls" "/work" None (initial 1000)).
  reflexivity.
Defined.

(** ** What an edit leaves behind *)

Lemma consumeEditOverride_history (p : string) (st : State) :
  history (snd (consumeEditOverride p st)) = history st.
Proof.
  unfold consumeEditOverride. destruct (editOverride st) as [o|]; [| reflexivity].
  destruct (_ && _); [reflexivity |]. destruct (_ >=? _); reflexivity.
Qed.

(** the end of a run of edit_file: an error result, or a state in which the
    text sent to the remote file is the text in the cache *)
Ltac committed Hw Hok Hh :=
  first
    [ discriminate Hw
    | injection Hw as <- <-; first
        [ discriminate Hok
        | eexists; eexists; split; [reflexivity |];
          split; [simpl; rewrite Hh; events_since |];
          split; [reflexivity |];
          simpl; apply lookup_insert_eq ] ].

Ltac edit_tail Hw Hok Hh :=
  match type of Hw with context [negb ?b] => destruct b end;
  cbv beta iota delta [negb] in Hw; [| committed Hw Hok Hh];
  match type of Hw with context [?n >? 1] => destruct (n >? 1) end;
  cbv beta iota in Hw; [committed Hw Hok Hh |];
  match type of Hw with context [reviewEdit ?h] => destruct (reviewEdit h) as [?gate|] end;
  cbv beta iota in Hw;
  [ match type of Hw with context [match ?g ?a ?b ?c ?d ?e with Resolved _ => _ | _ => _ end] =>
      destruct (g a b c d e) as [[[] ?final]|?e'] end;
    cbv beta iota in Hw; split_run Hw; committed Hw Hok Hh
  | split_run Hw; committed Hw Hok Hh ].

Lemma edit_file_commits (cfg : Config) (host : Host) (hooks : Hooks)
    (P x y : string) (st st1 : State) (r : ToolResult) :
  edit_file cfg host hooks P x y st = (Returned r, st1) ->
  isError r = false ->
  exists remotePath uri written evs,
    toRemotePath cfg P = Returned remotePath
    /\ history st1 = (evs ++ history st)%list
    /\ writesOf evs = [(uri, written)]
    /\ writeCache st1 !! remotePath
       = Some {| ce_content := written; ce_timestamp := clock st1 |}.
Proof.
  intros Hw Hok.
  unfold edit_file, tryTool, try_catch, edit_file_body, bind, lift, sync, callReview, ret in Hw.
  destruct (getRemoteUri cfg P) as [uri|e|]; [| failed Hw..].
  destruct (toRemotePath cfg P) as [remotePath|e|]; [| failed Hw..].
  exists remotePath, uri.
  pose proof (consumeEditOverride_history remotePath st) as Hh0.
  destruct (consumeEditOverride remotePath st) as [o sB]. simpl in Hh0.
  destruct (getCachedWrite_frame remotePath sB) as (_ & Hh1 & _).
  unfold try_catch, readFile, writeFile, notifyUpdated, cacheWrite, ret in Hw.
  destruct o as [O|]; cbv beta iota in Hw;
    destruct (getCachedWrite remotePath sB) as [cached sA]; simpl in Hh1;
    assert (Hh : history sA = history st) by congruence;
    cbv beta iota in Hw; destruct cached as [t|]; cbv beta iota in Hw.
  - split_run Hw; committed Hw Hok Hh.
  - split_run Hw; committed Hw Hok Hh.
  - edit_tail Hw Hok Hh.
  - match type of Hw with context [settle ?w] => destruct w as [old|e] end;
      simpl in Hw; [| failed Hw].
    edit_tail Hw Hok Hh.
Qed.

(** X23: an edit_file that reports success has sent exactly one text to the
    remote file, and that text is what a read_file of the same path shows
    within the cache's time to live, cut down by [truncateOutput] and
    without a remote read; this with or without a review gate, which may
    have changed the text, and with or without a pending override, which
    replaces it. *)
Theorem read_after_edit_shows_what_was_written (cfg : Config) (host : Host) (hooks : Hooks)
    (P x y : string) (st st1 : State) (r : ToolResult) (d : Z) :
  edit_file cfg host hooks P x y st = (Returned r, st1) ->
  isError r = false ->
  0 <= d <= WRITE_CACHE_TTL ->
  exists uri written evs,
    history st1 = (evs ++ history st)%list
    /\ writesOf evs = [(uri, written)]
    /\ read_file cfg host P None None (elapse d st1)
       = (Returned (ok (truncateOutput written 30000)), elapse d st1).
Proof.
  intros Hw Hok Hd.
  destruct (edit_file_commits cfg host hooks P x y st st1 r Hw Hok)
    as (remotePath & uri & written & evs & Hpath & Hev & Hwr & Hcache).
  exists uri, written, evs. split; [exact Hev |]. split; [exact Hwr |].
  unfold read_file, tryTool, try_catch, read_file_body, bind, lift, sync.
  rewrite Hpath, (getCachedWrite_fresh remotePath written st1 Hcache d Hd). reflexivity.
Qed.

Lemma read_after_edit_shows_what_was_written_witness :
  let host := Sim.memHost Sim.noShell [(Sim.aTxt, "hello world")] in
  let st1 := snd (edit_file Sim.cfg0 host Sim.acceptingHooks "a.txt" "world" "there"
                    (initial 0)) in
  exists uri written evs,
    history st1 = (evs ++ history (initial 0))%list
    /\ writesOf evs = [(uri, written)]
    /\ read_file Sim.cfg0 host "a.txt" None None (elapse 5000 st1)
       = (Returned (ok (truncateOutput written 30000)), elapse 5000 st1).
Proof.
  apply (read_after_edit_shows_what_was_written Sim.cfg0
           (Sim.memHost Sim.noShell [(Sim.aTxt, "hello world")]) Sim.acceptingHooks
           "a.txt" "world" "there" (initial 0) _ (ok "Successfully edited a.txt") 5000);
    [reflexivity | reflexivity | unfold WRITE_CACHE_TTL; lia].
Defined.

Lemma includes_empty (s : string) : JS.includes s "" = true.
Proof. destruct s; reflexivity. Qed.

Lemma length_chars (s : string) : List.length (JS.chars s) = String.length s.
Proof. induction s as [|c s IH]; simpl; [reflexivity | now rewrite IH]. Qed.

(** X24: an edit_file with an empty old_string on a file of three
    characters or more, read from the remote side, is refused as
    ambiguous: the empty string is found between every two characters, so
    the count reported is the length of the file less one, and nothing is
    written. *)
Theorem edit_file_empty_old_string (cfg : Config) (host : Host) (hooks : Hooks)
    (P remotePath T y : string) (st : State) :
  toRemotePath cfg P = Returned remotePath ->
  editOverride st = None ->
  writeCache st !! remotePath = None ->
  fs_readFile host (history st) ("vscode-remote://ssh-remote+" ++ getSshHost cfg ++ remotePath)
  = Resolved T ->
  3 <= JS.len T ->
  edit_file cfg host hooks P "" y st
  = (Returned (err ("Error: old_string found " ++ JS.ofNumber (JS.len T - 1) ++ " times in "
                    ++ P ++ ". Provide more context to make it unique.")),
     suspend host (EReadFile ("vscode-remote://ssh-remote+" ++ getSshHost cfg ++ remotePath))
       0 st).
Proof.
  intros Hpath Hov Hcache Hread Hlen.
  assert (Hcount : Z.of_nat (List.length (JS.split T "")) = JS.len T).
  { unfold JS.split, JS.len. now rewrite length_chars. }
  rewrite (edit_file_ambiguous cfg host hooks P remotePath T "" y st Hpath Hov Hcache Hread
             (includes_empty T)) by lia.
  now rewrite Hcount.
Qed.

Lemma edit_file_empty_old_string_witness :
  let host := Sim.memHost Sim.noShell [(Sim.aTxt, "abc")] in
  edit_file Sim.cfg0 host Sim.noHooks "a.txt" "" "x" (initial 0)
  = (Returned (err ("Error: old_string found " ++ JS.ofNumber (JS.len "abc" - 1) ++ " times in "
                    ++ "a.txt" ++ ". Provide more context to make it unique.")),
     suspend host (EReadFile ("vscode-remote://ssh-remote+" ++ getSshHost Sim.cfg0 ++ "/work/a.txt"))
       0 (initial 0)).
Proof.
  apply (edit_file_empty_old_string Sim.cfg0 (Sim.memHost Sim.noShell [(Sim.aTxt, "abc")])
           Sim.noHooks "a.txt" "/work/a.txt" "abc" "x" (initial 0));
    [reflexivity | reflexivity | reflexivity | reflexivity | vm_compute; discriminate].
Defined.

(** ** A terminal that is gone *)

(** X25: when no hidden terminal has been created yet, or the host has
    disposed of it, the command starts by creating one and giving it its
    500 ms, before anything is sent to it; what follows are the events of
    the polling loop. *)
Theorem lost_terminal_is_recreated (cfg : Config) (host : Host) (command cwd : string)
    (timeoutMs : option Z) (st : State) :
  remoteTerminal st = false \/ terminalDisposed host (history st) = true ->
  exists evs,
    history (snd (remoteExec cfg host command cwd timeoutMs st))
    = (evs ++ [ESleep 500; ECreateTerminal] ++ history st)%list
    /\ forallb isPollEvent evs = true.
Proof.
  intros Hlost.
  assert (Hterm : remoteTerminal st && negb (terminalDisposed host (history st)) = false).
  { destruct Hlost as [-> | ->]; [reflexivity | apply andb_false_r]. }
  unfold remoteExec, bind, now, sync, getRemoteTerminal, sleep, sendText, lift, ret.
  cbv zeta. cbn -[poll pollBudget].
  rewrite Hterm. cbn -[poll pollBudget].
  match goal with |- context [getRemoteUri cfg ?p] =>
    destruct (getRemoteUri cfg p) as [exitUri|e|] end; cbn -[poll pollBudget].
  - match goal with |- context [poll cfg host ?f ?a ?u ?b ?c ?s0] =>
      destruct (poll_frame cfg host a u b c f s0) as (_ & evs & Hev & Hall) end.
    eexists. rewrite Hev. split.
    + match goal with |- (evs ++ history (record ?e ?s))%list = _ =>
        change (history (record e s))
          with ([e] ++ [ESleep 500; ECreateTerminal] ++ history st)%list end.
      rewrite app_assoc. reflexivity.
    + rewrite forallb_app, Hall. reflexivity.
  - eexists [_]. split; reflexivity.
  - eexists [_]. split; reflexivity.
Qed.

Lemma lost_terminal_is_recreated_witness :
  exists evs,
    history (snd (remoteExec Sim.cfg0 Sim.doneHost "echo done" "/work" None (initial 1000)))
    = (evs ++ [ESleep 500; ECreateTerminal] ++ history (initial 1000))%list
    /\ forallb isPollEvent evs = true.
Proof.
  apply (lost_terminal_is_recreated Sim.cfg0 Sim.doneHost "echo done" "/work" None
           (initial 1000)).
  left. reflexivity.
Defined.

(** ** The extension kind *)

Example stringify_kind :
  ExtensionKind.stringify ["ui"; "workspace"]
  = "[" ++ String "034" "ui" ++ String "034" "," ++ String "034" "workspace" ++ String "034" "]".
Proof. reflexivity. Qed.


Lemma readChar_escape (c : ascii) (r : string) :
  ExtensionKind.readChar (ExtensionKind.escape c ++ r) = Some (c, r).
Proof.
  destruct c as [[] [] [] [] [] [] [] []]; reflexivity.
Qed.

Lemma escapeAll_inj (s s' r r' : string) :
  ExtensionKind.escapeAll s ++ String "034" r = ExtensionKind.escapeAll s' ++ String "034" r' ->
  s = s' /\ r = r'.
Proof.
  revert s'. induction s as [|c s IH]; intros [|c' s'] H; simpl in H.
  - injection H as ->. auto.
  - rewrite append_assoc in H. apply (f_equal ExtensionKind.readChar) in H.
    rewrite readChar_escape in H. discriminate.
  - rewrite append_assoc in H. apply (f_equal ExtensionKind.readChar) in H.
    rewrite readChar_escape in H. discriminate.
  - rewrite !append_assoc in H. apply (f_equal ExtensionKind.readChar) in H.
    rewrite !readChar_escape in H. injection H as -> H.
    destruct (IH s' H) as [-> ->]. auto.
Qed.

Lemma quote_inj (s s' r r' : string) :
  ExtensionKind.quote s ++ r = ExtensionKind.quote s' ++ r' -> s = s' /\ r = r'.
Proof.
  unfold ExtensionKind.quote. simpl. rewrite !append_assoc. simpl. intros [= H].
  now apply escapeAll_inj.
Qed.

Lemma items_inj (a a' : list string) (r r' : string) :
  JS.join "," (ExtensionKind.quote <$> a) ++ String "]" r
  = JS.join "," (ExtensionKind.quote <$> a') ++ String "]" r' ->
  a = a' /\ r = r'.
Proof.
  revert a'. induction a as [|x a IH]; intros [|x' a'] H.
  - injection H as ->. auto.
  - destruct a'; discriminate.
  - destruct a; discriminate.
  - assert (Hcons : forall y (l : list string) t,
               JS.join "," (ExtensionKind.quote <$> (y :: l)) ++ String "]" t
               = ExtensionKind.quote y
                 ++ match l with
                    | [] => String "]" t
                    | _ :: _ =>
                        String "," (JS.join "," (ExtensionKind.quote <$> l) ++ String "]" t)
                    end).
    { intros y [|z l] t; [reflexivity |].
      change (ExtensionKind.quote <$> y :: z :: l)
        with (ExtensionKind.quote y :: ExtensionKind.quote z :: (ExtensionKind.quote <$> l)).
      rewrite join_cons, !append_assoc. reflexivity. }
    rewrite !Hcons in H. apply quote_inj in H as [-> H].
    destruct a as [|y a], a' as [|y' a']; try discriminate.
    + injection H as ->. auto.
    + injection H as H. destruct (IH (y' :: a') H) as [-> ->]. auto.
Qed.

Lemma stringify_inj (a a' : list string) :
  ExtensionKind.stringify a = ExtensionKind.stringify a' -> a = a'.
Proof.
  unfold ExtensionKind.stringify. intros H. simpl in H. injection H as H.
  now apply items_inj in H as [-> _].
Qed.

(** X26: a reload is prompted exactly when the kind in the package and
    the desired kind differ as arrays of strings: two arrays have the same
    JSON text only when they are the same array, whatever characters the
    strings hold. *)
Theorem reload_prompted_iff_kinds_differ (currentKind desiredKind : list string) :
  ExtensionKind.shouldPromptReload currentKind desiredKind = false
  <-> currentKind = desiredKind.
Proof.
  unfold ExtensionKind.shouldPromptReload. rewrite negb_false_iff, String.eqb_eq. split.
  - apply stringify_inj.
  - now intros ->.
Qed.

(** X27: the synchronisation settles: once the desired kind is in the
    package, the same settings prompt no further reload; the workspace comes
    first exactly for a remote workspace without forceLocal, and in every
    other case the ui comes first, so forceLocal changes nothing for a local
    workspace. *)
Theorem sync_settles_on_desired_kind (forceLocal isRemote : bool)
    (currentExtensionKind : list string) :
  let r := ExtensionKind.simulateSync forceLocal isRemote currentExtensionKind in
  ExtensionKind.needsReload
    (ExtensionKind.simulateSync forceLocal isRemote (ExtensionKind.desired r)) = false
  /\ (ExtensionKind.desired r = ["workspace"; "ui"] <-> isRemote = true /\ forceLocal = false)
  /\ (ExtensionKind.desired r = ["ui"; "workspace"] <-> isRemote = false \/ forceLocal = true)
  /\ ExtensionKind.desired (ExtensionKind.simulateSync true false currentExtensionKind)
     = ExtensionKind.desired (ExtensionKind.simulateSync false false currentExtensionKind).
Proof.
  cbv zeta. split; [| split; [| split]].
  - unfold ExtensionKind.simulateSync, ExtensionKind.shouldPromptReload. simpl.
    now rewrite String.eqb_refl.
  - destruct forceLocal, isRemote; simpl; split; try discriminate; intuition congruence.
  - destruct forceLocal, isRemote; simpl; split; try discriminate; intuition congruence.
  - reflexivity.
Qed.

(** ** Tool calls that end in a result *)






(** ** The timer of a command over ssh *)


